(** * AmplifyMe: the multi-stage generation pipeline

    A shallow embedding of [services/llmRouter.ts] (the model router with its
    retrying executor and trace log) and of [services/orchestratorSkeleton.ts]
    (the stage executors with their fallback cascades, the per-image
    enhancement loop with guardrail and rescue, and the orchestrator),
    together with the refine handler of [index.tsx] that calls it.

    Asynchronous code is sequential here: every [await] is a bind of a state
    and exception monad whose state is the router object (mode, trace id,
    trace list) and the outside world (the generative backend and the clock).
    A JavaScript [throw] keeps the state reached so far, as the trace list of
    the router object survives an exception.

    The pipeline is embedded twice. In the first embedding a parsed answer
    has the type it is cast to. In the second one, [Nullable], an answer
    may also be [null], which the unchecked cast lets through and the first
    read of a property throws at; what is stated about the stages whose
    handlers do not cover such a read is stated there. On the page, a
    handler runs to its end before the next event, except for
    [handleRefine], which is also taken apart at its [await]. *)

From Stdlib Require Import List String Ascii ZArith QArith Bool Lia Sorted.
Import ListNotations.
Close Scope Q_scope.
Open Scope string_scope.
Open Scope Z_scope.

Set Implicit Arguments.

(** ** JavaScript values *)

(** A string is truthy when it is not empty. *)
Definition truthy (s : string) : bool := negb (String.eqb s "").

(** [a || b] on strings. *)
Definition orElse (a b : string) : string := if truthy a then a else b.

(** [a || b] where [a] may be [undefined] or [null]. *)
Definition orElseOpt (a : option string) (b : string) : string :=
  match a with
  | Some s => orElse s b
  | None => b
  end.

(** A value that was thrown: an [Error] with its message, or [null] (the
    initial [lastError] of the retrying executor). *)
Inductive Thrown : Type :=
| JsNull
| JsError (message : string).

(** [error instanceof Error ? error.message : String(error)] *)
Definition errorMessage (e : Thrown) : string :=
  match e with
  | JsError m => m
  | JsNull => "null"
  end.

(** How a call ends. *)
Inductive Completion (A : Type) : Type :=
| Returns (a : A)
| Throws (e : Thrown).
Arguments Returns {A} a.
Arguments Throws {A} e.

(** ** types.ts and the router's types *)

Inductive Mode : Type := fast | quality.

Inductive AgentId : Type :=
| UNDERSTANDING | VISUAL_DIRECTOR | IMAGE_GEN | FAST_GUARDRAIL | IMAGE_QA
| COPY | EMPATHY.

Definition agentName (a : AgentId) : string :=
  match a with
  | UNDERSTANDING => "UNDERSTANDING"
  | VISUAL_DIRECTOR => "VISUAL_DIRECTOR"
  | IMAGE_GEN => "IMAGE_GEN"
  | FAST_GUARDRAIL => "FAST_GUARDRAIL"
  | IMAGE_QA => "IMAGE_QA"
  | COPY => "COPY"
  | EMPATHY => "EMPATHY"
  end.

Definition modeName (m : Mode) : string :=
  match m with fast => "fast" | quality => "quality" end.

Inductive MimeType : Type := application_json | text_plain.

Record ModelSpec : Type := {
  model : string;
  temperature : Q;
  topP : option Q;
  topK : option Z;
  maxOutputTokens : option Z;
  responseMimeType : option MimeType;
  retries : Z;
  tools : bool  (* whether [{ googleSearch: {} }] is attached *)
}.

Record LLMTraceRecord : Type := {
  tr_agent : AgentId;
  tr_mode : Mode;
  tr_model : string;
  tr_temperature : Q;
  tr_responseMimeType : option MimeType;
  tr_retriesUsed : Z;
  tr_durationMs : Z;
  tr_ok : bool;
  tr_error : option string
}.

(** The response schemas handed to the backend; each one fixes the type the
    parsed JSON is cast to. *)
Inductive Schema : Type :=
| UnderstandingSchema | DirectorSchema | GuardrailSchema | QASchema
| CopySchema.

Inductive Platform : Type := wechat_moments | xiaohongshu.
Inductive Language : Type := zh | en.
Inductive Action : Type := create | refine.

Definition platformName (p : Platform) : string :=
  match p with
  | wechat_moments => "wechat_moments"
  | xiaohongshu => "xiaohongshu"
  end.

(** A [File] is represented by the data URL that reading it yields. *)
Record UserRequest : Type := {
  images : list string;
  reference_images : option (list string);
  raw_text : string;
  platform : Platform;
  mood_user : string;
  intent_user : string;
  language : option Language;
  enable_l4_loop : option bool;
  performance_mode : option Mode;
  action : option Action;
  req_traceId : option string;
  variant_id : option string;
  refine_mode : option string;
  refine_instruction : option string;
  refine_image_index : option Z
}.

Record UnderstandingPerImage : Type := {
  upi_image_index : Z;
  what_matters : list string;
  risks : list string;
  keep_notes : list string;
  can_change_notes : list string
}.

Record UnderstandingOut : Type := {
  story_core : string;
  user_intent : string;
  u_platform : string;
  mood : string;
  suggested_tone : option string;
  target_aesthetic : list string;
  per_image : list UnderstandingPerImage
}.

(** Of a director plan the pipeline reads the index and the prompt only. *)
Record DirectorImagePlan : Type := {
  image_index : Z;
  nano_prompt_en_v2 : string
}.

Record DirectorOut : Type := { d_images : list DirectorImagePlan }.

(** The score is a number copied through from the backend; the code itself
    only ever writes the literal 0. *)
Record FastGuardrailOut : Type := {
  g_image_index : Z;
  pass : bool;
  score : Z;
  verdict : string;
  reasons : list string;
  revision_actions : list string
}.

Record ImageQAOut : Type := {
  qa_pass : bool;
  qa_score : Z;
  qa_verdict : string;
  qa_reasons : option (list string);
  qa_revision_actions : option (list string)
}.

Record GeneratedCopy : Type := {
  title : string;
  main_text : string;
  hash_tags : list string
}.

Definition Parsed (k : Schema) : Type :=
  match k with
  | UnderstandingSchema => UnderstandingOut
  | DirectorSchema => DirectorOut
  | GuardrailSchema => FastGuardrailOut
  | QASchema => ImageQAOut
  | CopySchema => GeneratedCopy
  end.

(** ** The backend capability *)

Inductive Part : Type :=
| InlineData (mimeType : string) (data : option string)
| Text (text : string).

Record GenerateContentParameters : Type := {
  p_model : string;
  p_contents : list Part;
  p_temperature : Q;
  p_responseMimeType : option MimeType;
  p_responseSchema : option Schema;
  p_systemInstruction : option string;
  p_tools : bool;
  p_topP : option Q;
  p_topK : option Z
}.

Record ResponsePart : Type := {
  part_text : option string;
  part_inlineData : option string
}.

(** [res.text] and [res.candidates[0].content.parts], either of which may be
    missing. *)
Record GenerateContentResponse : Type := {
  res_text : option string;
  res_parts : option (list ResponsePart)
}.

(** What the pipeline gets from outside: the backend, the clock, the trace id
    generator, and the built-ins of the language whose result the control
    flow does not look into. [JSON_parse k text] stands for
    [JSON.parse(text.replace(/```json/g, '').replace(/```/g, '').trim()) as T]
    with [T] the type of schema [k]; [None] is a parse error. The cast is
    taken at its word: a text that parses has the shape of [T]. The
    embedding in [Nullable] below has its own parser, for which it need
    not. *)
Record Env (World : Type) : Type := {
  generateContent :
    GenerateContentParameters -> World ->
    Completion GenerateContentResponse * World;
  performance_now : World -> Z;
  freshTraceId : World -> string;
  JSON_parse : forall k : Schema, string -> option (Parsed k);
  trim : string -> string;
  replace : string -> string -> string -> string;
  split_comma : string -> list string;
  match_mime : string -> option string
}.

(** ** services/llmRouter.ts *)

Definition MODEL_MATRIX (m : Mode) (a : AgentId) : option ModelSpec :=
  match m, a with
  | fast, UNDERSTANDING =>
      Some {| model := "gemini-3-pro-preview"; temperature := 0.2%Q;
              topP := None; topK := None; maxOutputTokens := None;
              responseMimeType := Some application_json; retries := 2;
              tools := true |}
  | fast, VISUAL_DIRECTOR =>
      Some {| model := "gemini-3-pro-preview"; temperature := 0.4%Q;
              topP := None; topK := None; maxOutputTokens := None;
              responseMimeType := Some application_json; retries := 2;
              tools := false |}
  | fast, IMAGE_GEN =>
      Some {| model := "gemini-2.5-flash-image"; temperature := 0.5%Q;
              topP := None; topK := None; maxOutputTokens := Some 1024;
              responseMimeType := None; retries := 2; tools := false |}
  | fast, FAST_GUARDRAIL =>
      Some {| model := "gemini-2.5-flash-lite"; temperature := 0.1%Q;
              topP := None; topK := None; maxOutputTokens := None;
              responseMimeType := Some application_json; retries := 1;
              tools := false |}
  | fast, IMAGE_QA => None
  | fast, COPY =>
      Some {| model := "gemini-2.5-flash"; temperature := 0.7%Q;
              topP := None; topK := None; maxOutputTokens := None;
              responseMimeType := Some application_json; retries := 2;
              tools := false |}
  | fast, EMPATHY =>
      Some {| model := "gemini-2.5-flash"; temperature := 0.5%Q;
              topP := None; topK := None; maxOutputTokens := Some 100;
              responseMimeType := None; retries := 2; tools := false |}
  | quality, UNDERSTANDING =>
      Some {| model := "gemini-3-pro-preview"; temperature := 0.2%Q;
              topP := None; topK := None; maxOutputTokens := None;
              responseMimeType := Some application_json; retries := 3;
              tools := true |}
  | quality, VISUAL_DIRECTOR =>
      Some {| model := "gemini-3-pro-preview"; temperature := 0.4%Q;
              topP := None; topK := None; maxOutputTokens := None;
              responseMimeType := Some application_json; retries := 3;
              tools := false |}
  | quality, IMAGE_GEN =>
      Some {| model := "gemini-3-pro-image-preview"; temperature := 0.55%Q;
              topP := Some 0.9%Q; topK := Some 30; maxOutputTokens := None;
              responseMimeType := None; retries := 3; tools := false |}
  | quality, IMAGE_QA =>
      Some {| model := "gemini-2.5-flash-lite"; temperature := 0.1%Q;
              topP := None; topK := None; maxOutputTokens := None;
              responseMimeType := Some application_json; retries := 2;
              tools := false |}
  | quality, FAST_GUARDRAIL => None
  | quality, COPY =>
      Some {| model := "gemini-3-pro-preview"; temperature := 0.7%Q;
              topP := None; topK := None; maxOutputTokens := None;
              responseMimeType := Some application_json; retries := 3;
              tools := false |}
  | quality, EMPATHY =>
      Some {| model := "gemini-3-pro-preview"; temperature := 0.5%Q;
              topP := None; topK := None; maxOutputTokens := Some 100;
              responseMimeType := None; retries := 2; tools := false |}
  end.

(** The router object: [mode] and [traceId] are set by the constructor,
    [traces] is the array that [recordTrace] pushes to. *)
Record LLMRouter : Type := {
  mode : Mode;
  traceId : string;
  traces : list LLMTraceRecord
}.

(** [new LLMRouter(request, traceId)] *)
Definition newLLMRouter (request : UserRequest) (tid : string) : LLMRouter :=
  {| mode := match enable_l4_loop request with
             | Some true => quality
             | _ => match performance_mode request with
                    | Some m => m
                    | None => fast
                    end
             end;
     traceId := tid;
     traces := [] |}.

Definition recordTrace (agentId : AgentId) (spec : ModelSpec) (attempt : Z)
    (durationMs : Z) (ok : bool) (error : option string)
    (modeOverride : option Mode) (r : LLMRouter) : LLMRouter :=
  {| mode := mode r;
     traceId := traceId r;
     traces := traces r ++
       [ {| tr_agent := agentId;
            tr_mode := match modeOverride with
                       | Some m => m
                       | None => mode r
                       end;
            tr_model := model spec;
            tr_temperature := temperature spec;
            tr_responseMimeType := responseMimeType spec;
            tr_retriesUsed := attempt;
            tr_durationMs := durationMs;
            tr_ok := ok;
            tr_error := error |} ] |}.

(** [Math.max(1, spec.retries || 1)] *)
Definition attemptsOf (spec : ModelSpec) : Z :=
  Z.max 1 (if retries spec =? 0 then 1 else retries spec).

Section Pipeline.

Context {World : Type}.
Variable env : Env World.

(** The model table, [MODEL_MATRIX] in the program. *)
Variable MATRIX : Mode -> AgentId -> option ModelSpec.

(** The state every call runs in. *)
Record Sys : Type := mkSys { llm : LLMRouter; world : World }.

Definition Async (A : Type) : Type := Sys -> Completion A * Sys.

Definition ret {A} (a : A) : Async A := fun s => (Returns a, s).

Definition throw {A} (e : Thrown) : Async A := fun s => (Throws e, s).

Definition bind {A B} (m : Async A) (k : A -> Async B) : Async B :=
  fun s =>
    match m s with
    | (Returns a, s') => k a s'
    | (Throws e, s') => (Throws e, s')
    end.

(** [try { m } catch (error) { h error }] *)
Definition tryCatch {A} (m : Async A) (h : Thrown -> Async A) : Async A :=
  fun s =>
    match m s with
    | (Returns a, s') => (Returns a, s')
    | (Throws e, s') => h e s'
    end.

Definition getMode : Async Mode := fun s => (Returns (mode (llm s)), s).

Definition getTraces : Async (list LLMTraceRecord) :=
  fun s => (Returns (traces (llm s)), s).

Definition getSpec (agentId : AgentId) : Async (option ModelSpec) :=
  fun s => (Returns (MATRIX (mode (llm s)) agentId), s).

Definition getSpecForMode (m : Mode) (agentId : AgentId) : option ModelSpec :=
  MATRIX m agentId.

(** An attempt function: a closure that talks to the backend and has no
    hand on the router's trace list. *)
Definition Backend (A : Type) : Type := World -> Completion A * World.

(** [await this.ai.models.generateContent(params)] followed by the rest of
    the closure. *)
Definition callBackend {A} (params : GenerateContentParameters)
    (k : GenerateContentResponse -> Completion A) : Backend A :=
  fun w =>
    match generateContent env params w with
    | (Returns res, w') => (k res, w')
    | (Throws e, w') => (Throws e, w')
    end.

Definition join_lines (l : list string) : string := String.concat "
" l.

(** [parts.map(part => part.text).filter(Boolean).join("\n")] *)
Definition partsText (parts : list ResponsePart) : string :=
  join_lines (filter truthy
    (flat_map (fun p => match part_text p with
                        | Some x => [x]
                        | None => []
                        end) parts)).

Definition extractTextFromResponse (res : GenerateContentResponse) : string :=
  if match res_text res with Some t => truthy t | None => false end then
    match res_text res with Some t => t | None => "" end
  else
    match res_parts res with
    | None => ""
    | Some parts => partsText parts
    end.

(** The loop of [withRetries]: [fuel] iterations are left, [attempt] is the
    loop counter and [lastError] the error of the previous iteration. *)
Definition invalidResponse (agentId : AgentId) : Thrown :=
  JsError ("[LLMRouter] Invalid response for " ++ agentName agentId).

Fixpoint withRetries_loop {T} (agentId : AgentId) (spec : ModelSpec)
    (action : Backend T) (isValid : T -> bool) (modeOverride : option Mode)
    (fuel : nat) (attempt : Z) (lastError : Thrown) : Async T :=
  match fuel with
  | O => throw lastError
  | S fuel' => fun s =>
      let start := performance_now env (world s) in
      let failed (error : Thrown) (w1 : World) :=
        let durationMs := performance_now env w1 - start in
        let s2 := mkSys (recordTrace agentId spec attempt durationMs false
                           (Some (errorMessage error)) modeOverride (llm s))
                        w1 in
        withRetries_loop agentId spec action isValid modeOverride fuel'
          (attempt + 1) error s2 in
      match action (world s) with
      | (Returns result, w1) =>
          if isValid result then
            let durationMs := performance_now env w1 - start in
            (Returns result,
             mkSys (recordTrace agentId spec attempt durationMs true None
                      modeOverride (llm s)) w1)
          else failed (invalidResponse agentId) w1
      | (Throws error, w1) => failed error w1
      end
  end.

Definition withRetries {T} (agentId : AgentId) (spec : ModelSpec)
    (action : Backend T) (isValid : T -> bool) (modeOverride : option Mode)
  : Async T :=
  withRetries_loop agentId spec action isValid modeOverride
    (Z.to_nat (attemptsOf spec)) 0 JsNull.

(** The default validator, [() => true]. *)
Definition alwaysValid {T} (_ : T) : bool := true.

(** Reading a property of a [null] spec. *)
Definition nullSpecError : Thrown :=
  JsError "TypeError: Cannot read properties of null".

Definition jsonAction (spec : ModelSpec) (agentId : AgentId)
    (contents : list Part) (systemInstruction : string) (schema : Schema)
  : Backend (Parsed schema) :=
  callBackend
    {| p_model := model spec; p_contents := contents;
       p_temperature := temperature spec;
       p_responseMimeType := Some application_json;
       p_responseSchema := Some schema;
       p_systemInstruction := Some systemInstruction;
       p_tools := tools spec; p_topP := None; p_topK := None |}
    (fun res =>
       let text := extractTextFromResponse res in
       if negb (truthy text) then
         Throws (JsError ("[LLMRouter] Empty JSON response for "
                          ++ agentName agentId))
       else
         match JSON_parse env schema text with
         | Some v => Returns v
         | None => Throws (JsError "SyntaxError: JSON.parse")
         end).

Definition callJson (agentId : AgentId) (contents : list Part)
    (systemInstruction : string) (schema : Schema) : Async (Parsed schema) :=
  bind (getSpec agentId) (fun spec =>
    match spec with
    | None => throw nullSpecError
    | Some spec =>
        withRetries agentId spec
          (jsonAction spec agentId contents systemInstruction schema)
          alwaysValid None
    end).

Definition textAction (spec : ModelSpec) (contents : list Part)
    (systemInstruction : string) : Backend string :=
  callBackend
    {| p_model := model spec; p_contents := contents;
       p_temperature := temperature spec;
       p_responseMimeType := None; p_responseSchema := None;
       p_systemInstruction := Some systemInstruction;
       p_tools := false; p_topP := None; p_topK := None |}
    (fun res => Returns (extractTextFromResponse res)).

(** [(text) => Boolean(text && text.trim())] *)
Definition textValid (text : string) : bool :=
  truthy text && truthy (trim env text).

Definition callText (agentId : AgentId) (contents : list Part)
    (systemInstruction : string) : Async string :=
  bind (getSpec agentId) (fun spec =>
    match spec with
    | None => throw nullSpecError
    | Some spec =>
        withRetries agentId spec (textAction spec contents systemInstruction)
          textValid None
    end).

Definition missingSpecError (m : Mode) (agentId : AgentId) : Thrown :=
  JsError ("[LLMRouter] Missing model spec for " ++ modeName m ++ ":"
           ++ agentName agentId).

Definition callTextWithMode (m : Mode) (agentId : AgentId)
    (contents : list Part) (systemInstruction : string) : Async string :=
  match getSpecForMode m agentId with
  | None => throw (missingSpecError m agentId)
  | Some spec =>
      withRetries agentId spec (textAction spec contents systemInstruction)
        textValid (Some m)
  end.

Definition callJsonWithMode (m : Mode) (agentId : AgentId)
    (contents : list Part) (systemInstruction : string) (schema : Schema)
  : Async (Parsed schema) :=
  match getSpecForMode m agentId with
  | None => throw (missingSpecError m agentId)
  | Some spec =>
      withRetries agentId spec
        (jsonAction spec agentId contents systemInstruction schema)
        alwaysValid (Some m)
  end.

(** [image.split(',')[1]] *)
Definition afterComma (dataUrl : string) : option string :=
  nth_error (split_comma env dataUrl) 1.

Definition buildImageParts (prompt : string) (base64Image : string)
    (referenceImages : list string) : list Part :=
  InlineData "image/png" (afterComma base64Image)
  :: map (fun image => InlineData "image/png" (afterComma image))
       referenceImages
  ++ [Text prompt].

(** The first part of the response that carries inline data. *)
Fixpoint firstInlineData (parts : list ResponsePart) : option string :=
  match parts with
  | [] => None
  | p :: rest =>
      match part_inlineData p with
      | Some data => Some ("data:image/png;base64," ++ data)
      | None => firstInlineData rest
      end
  end.

Definition imageAction (spec : ModelSpec) (prompt : string)
    (base64Image : string) (referenceImages : list string)
  : Backend (option string) :=
  callBackend
    {| p_model := model spec;
       p_contents := buildImageParts prompt base64Image referenceImages;
       p_temperature := temperature spec;
       p_responseMimeType := None; p_responseSchema := None;
       p_systemInstruction := None; p_tools := false;
       p_topP := topP spec; p_topK := topK spec |}
    (fun res =>
       match res_parts res with
       | None =>
           Throws (JsError "TypeError: Cannot read properties of undefined")
       | Some parts => Returns (firstInlineData parts)
       end).

(** [(image) => Boolean(image)] *)
Definition imageValid (image : option string) : bool :=
  match image with
  | Some s => truthy s
  | None => false
  end.

Definition callImageGenWithSpec (agentId : AgentId) (spec : ModelSpec)
    (prompt : string) (base64Image : string) (referenceImages : list string)
    (modeOverride : option Mode) : Async (option string) :=
  withRetries agentId spec
    (imageAction spec prompt base64Image referenceImages)
    imageValid modeOverride.

Definition callImageGen (prompt : string) (base64Image : string)
    (referenceImages : list string) : Async (option string) :=
  bind (getSpec IMAGE_GEN) (fun spec =>
    match spec with
    | None => throw nullSpecError
    | Some spec =>
        callImageGenWithSpec IMAGE_GEN spec prompt base64Image
          referenceImages None
    end).

Definition callImageGenWithMode (m : Mode) (prompt : string)
    (base64Image : string) (referenceImages : list string)
  : Async (option string) :=
  match getSpecForMode m IMAGE_GEN with
  | None => ret None
  | Some spec =>
      callImageGenWithSpec IMAGE_GEN spec prompt base64Image
        referenceImages (Some m)
  end.

(** ** services/orchestratorSkeleton.ts *)

Definition dq : string := String (ascii_of_nat 34) EmptyString.

Definition NANO_NEGATIVE_V3 : string :=
  "floating bokeh dots, random light spots, lens flare stickers, plastic skin, distorted fingers, text gibberish, clutter, watermarks.".

Definition UNDERSTANDING_SYSTEM : string := "
You are a Technical Photography Director.
Identify:
1. Subject focus
2. Primary light source
3. Background clutter to hide
".

Definition DIRECTOR_SYSTEM : string := "
You are a cinematic retoucher. Preserve structure and realism.
Rules:
- If a screen exists, use it as the key light with cyan/blue spill.
- Clean the background into deep, tidy shadows or matte black surfaces.
- No floating dots/orbs or fake bokeh. No distortions.

Template:
" ++ dq ++ "Cinema-grade relight.
Subject: [SUBJECT].
Lighting: screen-led key light with realistic spill.
Environment: clean dark background, remove clutter, matte/obsidian surfaces.
Color: neutral skin, cool shadows, high contrast." ++ dq ++ "

Negative: " ++ NANO_NEGATIVE_V3 ++ "
".

Definition FALLBACK_DIRECTOR_TEMPLATE : string := "
Cinema-grade relight.
Subject: [SUBJECT].
Lighting: screen-led key light with realistic spill.
Environment: clean dark background, remove clutter, matte/obsidian surfaces.
Color: neutral skin, cool shadows, high contrast.
Negative: " ++ NANO_NEGATIVE_V3 ++ "
".

Definition GUARDRAIL_SYSTEM : string := "
You are a Brutal Visual Quality Controller.
Compare Original vs Enhanced.
REJECT IF:
1. " ++ dq ++ "Hallucination" ++ dq ++ ": There are floating light dots or orbs that weren't there (FAIL).
2. " ++ dq ++ "Weakness" ++ dq ++ ": The background is still messy or hasn't changed (FAIL).
3. " ++ dq ++ "Distortion" ++ dq ++ ": The subject's shape is broken (FAIL).
Verdict 'OK' only if it looks like a clean movie frame.
".

(** The directive the rescue appends to the plan's prompt. *)
Definition STRICT_DIRECTIVE : string := "
[STRICT]: ELIMINATE ALL FLOATING DOTS. Deepen shadows to black. Make the screen light the ONLY light.".

Definition base64ToGenerativePart (base64DataUrl : string) : Part :=
  let parts := split_comma env base64DataUrl in
  let mimeMatch := match_mime env (hd "" parts) in
  let mimeType := match mimeMatch with
                  | Some m => m
                  | None => "image/png"
                  end in
  InlineData mimeType (nth_error parts 1).

(** Reading a file and turning it into a part; the file is its data URL. *)
Definition fileToGenerativePart (file : string) : Part :=
  base64ToGenerativePart file.

Definition validateAndConstructPrompt (plan : DirectorImagePlan)
    (platform : string) (subject : string) (referenceCount : nat) : string :=
  let p := orElse (nano_prompt_en_v2 plan) "" in
  let finalPrompt :=
    replace env p "[SUBJECT]" (orElse subject "primary subject") in
  let referenceNote :=
    if (0 <? referenceCount)%nat
    then "Use reference images for lighting and material style."
    else "" in
  trim env (finalPrompt ++ "
[ACTION]: Clean shadows, keep light physically real. Target: " ++ platform
            ++ " premium look. " ++ referenceNote).

Definition mapPlatformToUnderstanding (p : Platform) : string :=
  match p with
  | xiaohongshu => "rednote"
  | _ => "wechat"
  end.

(** [array.map((_, index) => f index)] *)
Fixpoint mapIndex {A B} (f : nat -> B) (l : list A) (index : nat) : list B :=
  match l with
  | [] => []
  | _ :: rest => f index :: mapIndex f rest (S index)
  end.

Definition buildFallbackUnderstanding (req : UserRequest) : UnderstandingOut :=
  {| story_core := orElse (raw_text req) "No user input provided.";
     user_intent := orElse (intent_user req) "unknown";
     u_platform := mapPlatformToUnderstanding (platform req);
     mood := orElse (mood_user req) "neutral";
     suggested_tone := Some "professional_clean";
     target_aesthetic := [];
     per_image :=
       mapIndex (fun index =>
                   {| upi_image_index := Z.of_nat index;
                      what_matters := ["subject"];
                      risks := []; keep_notes := [];
                      can_change_notes := [] |})
                (images req) 0 |}.

(** [understanding.per_image.find(p => p.image_index === index)
       ?.what_matters[0] || "subject"] *)
Definition subjectOf (understanding : UnderstandingOut) (index : Z) : string :=
  orElseOpt
    (match find (fun p => upi_image_index p =? index)
                (per_image understanding) with
     | Some p => hd_error (what_matters p)
     | None => None
     end)
    "subject".

Definition buildFallbackDirector (req : UserRequest)
    (understanding : UnderstandingOut) : DirectorOut :=
  {| d_images :=
       mapIndex (fun index =>
                   let subject := subjectOf understanding (Z.of_nat index) in
                   {| image_index := Z.of_nat index;
                      nano_prompt_en_v2 :=
                        replace env FALLBACK_DIRECTOR_TEMPLATE "[SUBJECT]"
                          subject |})
                (images req) 0 |}.

Definition runUnderstanding (req : UserRequest) : Async UnderstandingOut :=
  let imageParts := map fileToGenerativePart (images req) in
  callJson UNDERSTANDING (imageParts ++ [Text (raw_text req)])
    UNDERSTANDING_SYSTEM UnderstandingSchema.

Definition safeRunUnderstanding (req : UserRequest) : Async UnderstandingOut :=
  tryCatch (runUnderstanding req) (fun error =>
    bind getMode (fun m =>
      bind (match m with
            | quality =>
                tryCatch
                  (bind (callJsonWithMode fast UNDERSTANDING
                           [Text (raw_text req)] UNDERSTANDING_SYSTEM
                           UnderstandingSchema)
                        (fun u => ret (Some u)))
                  (fun fallbackError => ret None)
            | fast => ret None
            end)
        (fun returned =>
           match returned with
           | Some u => ret u
           | None => ret (buildFallbackUnderstanding req)
           end))).

(** [req.reference_images?.length || 0] *)
Definition referenceCountOf (req : UserRequest) : nat :=
  match reference_images req with
  | Some l => List.length l
  | None => O
  end.

(** The loop that rewrites the prompt of every plan in place. *)
Definition rewritePlans (req : UserRequest) (understanding : UnderstandingOut)
    (d : DirectorOut) : DirectorOut :=
  {| d_images :=
       map (fun plan =>
              let sub := subjectOf understanding (image_index plan) in
              let referenceCount := referenceCountOf req in
              {| image_index := image_index plan;
                 nano_prompt_en_v2 :=
                   validateAndConstructPrompt plan
                     (platformName (platform req)) sub referenceCount |})
           (d_images d) |}.

Definition DIRECTOR_TEXT : string := "Focus on Physicality and De-cluttering.".

Definition runVisualDirector (req : UserRequest)
    (understanding : UnderstandingOut) : Async DirectorOut :=
  let imageParts := map fileToGenerativePart (images req) in
  bind (callJson VISUAL_DIRECTOR (imageParts ++ [Text DIRECTOR_TEXT])
          DIRECTOR_SYSTEM DirectorSchema)
    (fun res => ret (rewritePlans req understanding res)).

Definition safeRunVisualDirector (req : UserRequest)
    (understanding : UnderstandingOut) : Async DirectorOut :=
  match images req with
  | [] => ret {| d_images := [] |}
  | _ :: _ =>
      tryCatch (runVisualDirector req understanding) (fun error =>
        bind getMode (fun m =>
          bind (match m with
                | quality =>
                    tryCatch
                      (let imageParts :=
                         map fileToGenerativePart (images req) in
                       bind (callJsonWithMode fast VISUAL_DIRECTOR
                               (imageParts ++ [Text DIRECTOR_TEXT])
                               DIRECTOR_SYSTEM DirectorSchema)
                         (fun fastDirector =>
                            ret (Some (rewritePlans req understanding
                                         fastDirector))))
                      (fun fallbackError => ret None)
                | fast => ret None
                end)
            (fun returned =>
               match returned with
               | Some d => ret d
               | None =>
                   let fallback := buildFallbackDirector req understanding in
                   ret (rewritePlans req understanding fallback)
               end)))
  end.

(** The automatic pass of a skipped or failed guardrail. *)
Definition autoPass (index : Z) : FastGuardrailOut :=
  {| g_image_index := index; pass := true; score := 0; verdict := "OK";
     reasons := []; revision_actions := [] |}.

(** The verdict of the QA evaluator brought down to the guardrail's. *)
Definition mapVerdict (v : string) : string :=
  if String.eqb v "OK" then "OK"
  else if String.eqb v "COLOR_CAST" then "COLOR_CAST"
  else if String.eqb v "ARTIFACTS" then "ARTIFACTS"
  else "TOO_WEAK_CHANGE".

Definition isSome {A} (o : option A) : bool :=
  match o with Some _ => true | None => false end.

Definition preferredAgentOf (m : Mode) : AgentId :=
  if isSome (getSpecForMode m FAST_GUARDRAIL) then FAST_GUARDRAIL
  else IMAGE_QA.

Definition runFastGuardrail (index : Z) (original enhanced : string)
  : Async FastGuardrailOut :=
  bind getMode (fun m =>
    let preferredAgent := preferredAgentOf m in
    if negb (isSome (getSpecForMode m preferredAgent)) then
      ret (autoPass index)
    else
      match preferredAgent with
      | IMAGE_QA =>
          bind (callJson IMAGE_QA
                  [base64ToGenerativePart original;
                   base64ToGenerativePart enhanced]
                  GUARDRAIL_SYSTEM QASchema)
            (fun qa : ImageQAOut =>
               ret {| g_image_index := index;
                      pass := qa_pass qa;
                      score := qa_score qa;
                      verdict := mapVerdict (qa_verdict qa);
                      reasons := match qa_reasons qa with
                                 | Some l => l
                                 | None => []
                                 end;
                      revision_actions :=
                        match qa_revision_actions qa with
                        | Some l => l
                        | None => []
                        end |})
      | _ =>
          callJson preferredAgent
            [base64ToGenerativePart original;
             base64ToGenerativePart enhanced]
            GUARDRAIL_SYSTEM GuardrailSchema
      end).

Definition safeRunFastGuardrail (index : Z) (original enhanced : string)
  : Async FastGuardrailOut :=
  tryCatch (runFastGuardrail index original enhanced) (fun error =>
    bind getMode (fun m =>
      bind (match m with
            | quality =>
                tryCatch
                  (bind (callJsonWithMode fast FAST_GUARDRAIL
                           [base64ToGenerativePart original;
                            base64ToGenerativePart enhanced]
                           GUARDRAIL_SYSTEM GuardrailSchema)
                        (fun g : FastGuardrailOut => ret (Some g)))
                  (fun fallbackError => ret None)
            | fast => ret None
            end)
        (fun returned =>
           match returned with
           | Some g => ret g
           | None => ret (autoPass index)
           end))).

(** *** The orchestrator *)

Record ImageScore : Type := {
  s_index : nat;
  s_score : Z;
  s_verdict : string
}.

Record Variant : Type := {
  v_id : string;
  style_name : string;
  usage_hint : string;
  creative_rationale : string;
  tone_direction : string;
  visual_direction : string;
  copy : GeneratedCopy;
  enhanced_images_base64 : list string
}.

Record UnderstandingBundle : Type := {
  b_story_core : string;
  scene : string;
  theme : string
}.

Record DebugInfo : Type := {
  nano_banana_prompts : list string;
  llmTrace : list LLMTraceRecord;
  perImageScores : list ImageScore
}.

Record OrchestratorResponse : Type := {
  r_traceId : string;
  understanding : UnderstandingBundle;
  visual_director_output : DirectorOut;
  empathic_reply : string;
  variants : list Variant;
  debugInfo : DebugInfo
}.

(** [array[i] = v] for an index inside the array, the only case the
    enhancement loop has. *)
Fixpoint array_set {A} (l : list A) (i : nat) (v : A) : list A :=
  match l, i with
  | [], _ => []
  | _ :: rest, O => v :: rest
  | x :: rest, S i' => x :: array_set rest i' v
  end.

(** [directorOut.images.find(p => p.image_index === i)] *)
Definition findPlan (directorOut : DirectorOut) (i : nat)
  : option DirectorImagePlan :=
  find (fun p => image_index p =? Z.of_nat i) (d_images directorOut).

(** The first statement of the loop body: the image call with its fallback
    under [fast]. *)
Definition generateImage (plan : DirectorImagePlan) (original : string)
    (referenceBase64 : list string) : Async (option string) :=
  tryCatch
    (callImageGen (nano_prompt_en_v2 plan) original referenceBase64)
    (fun error =>
       bind getMode (fun m =>
         match m with
         | quality =>
             tryCatch
               (callImageGenWithMode fast (nano_prompt_en_v2 plan) original
                  referenceBase64)
               (fun fallbackError => ret None)
         | fast => ret None
         end)).

Definition rescueModeOf (m : Mode) : Mode :=
  match m with
  | fast => quality
  | _ => m
  end.

(** The branch taken when the guardrail does not pass. *)
Definition rescue (plan : DirectorImagePlan) (original : string)
    (referenceBase64 : list string) (resultImg : option string)
  : Async (option string) :=
  let rescuePrompt := nano_prompt_en_v2 plan ++ STRICT_DIRECTIVE in
  bind getMode (fun m =>
    let rescueMode := rescueModeOf m in
    tryCatch
      (bind (callImageGenWithMode rescueMode rescuePrompt original
               referenceBase64)
         (fun rescueImg =>
            ret (if imageValid rescueImg then rescueImg else resultImg)))
      (fun error => ret resultImg)).

(** The body of the enhancement loop for an index that has a plan; it
    yields the final [resultImg] and the scores. *)
Definition enhanceBody (i : nat) (plan : DirectorImagePlan)
    (original : string) (referenceBase64 : list string)
    (perImageScores : list ImageScore)
  : Async (option string * list ImageScore) :=
  bind (generateImage plan original referenceBase64) (fun resultImg =>
    match resultImg with
    | Some img =>
        if truthy img then
          bind (safeRunFastGuardrail (Z.of_nat i) original img) (fun guard =>
            let perImageScores' : list ImageScore :=
              (perImageScores ++
               [ {| s_index := i; s_score := score guard;
                    s_verdict := verdict guard |} ])%list in
            if negb (pass guard) then
              bind (rescue plan original referenceBase64 resultImg)
                (fun resultImg' => ret (resultImg', perImageScores'))
            else ret (resultImg, perImageScores'))
        else ret (resultImg, perImageScores)
    | None => ret (resultImg, perImageScores)
    end).

(** [resultImg || originalBase64[i]] *)
Definition imageOr (resultImg : option string) (original : string) : string :=
  match resultImg with
  | Some img => orElse img original
  | None => original
  end.

(** [for (let i = ...; i < req.images.length; i++)], [fuel] being the number
    of indices left. *)
Fixpoint enhanceLoop (directorOut : DirectorOut)
    (originalBase64 referenceBase64 : list string) (fuel : nat) (i : nat)
    (enhancedImages : list string) (perImageScores : list ImageScore)
  : Async (list string * list ImageScore) :=
  match fuel with
  | O => ret (enhancedImages, perImageScores)
  | S fuel' =>
      match findPlan directorOut i with
      | None =>
          enhanceLoop directorOut originalBase64 referenceBase64 fuel' (S i)
            enhancedImages perImageScores
      | Some plan =>
          let original := nth i originalBase64 "" in
          bind (enhanceBody i plan original referenceBase64 perImageScores)
            (fun r =>
               enhanceLoop directorOut originalBase64 referenceBase64 fuel'
                 (S i)
                 (array_set enhancedImages i (imageOr (fst r) original))
                 (snd r))
      end
  end.

Definition EMPATHY_SYSTEM : string := "Respond as a warm friend.".
Definition COPY_SYSTEM : string := "Create high-impact post.".

(** The reply written when the empathy call failed. *)
Definition fallbackReply (req : UserRequest) : string :=
  if truthy (raw_text req)
  then "收到你的分享：「" ++ raw_text req ++ "」"
  else "Thanks for sharing. I am here with you.".

Definition fallbackCopy (req : UserRequest) : GeneratedCopy :=
  {| title := "Draft"; main_text := orElse (raw_text req) "";
     hash_tags := [] |}.

(** The empathy block: [empathicReply] is assigned in the [try], may be
    assigned again by the call under [fast], and is then assigned the
    template. *)
Definition empathyStage (req : UserRequest) : Async string :=
  tryCatch (callText EMPATHY [Text (raw_text req)] EMPATHY_SYSTEM)
    (fun error =>
       bind getMode (fun m =>
         bind (match m with
               | quality =>
                   tryCatch
                     (callTextWithMode fast EMPATHY [Text (raw_text req)]
                        EMPATHY_SYSTEM)
                     (fun fallbackError => ret "")
               | fast => ret ""
               end)
           (fun empathicReply => ret (fallbackReply req)))).

(** The copy block, of the same shape. *)
Definition copyStage (req : UserRequest) : Async GeneratedCopy :=
  tryCatch
    (callJson COPY [Text (raw_text req)] COPY_SYSTEM CopySchema
     : Async GeneratedCopy)
    (fun error =>
       bind getMode (fun m =>
         bind (match m with
               | quality =>
                   tryCatch
                     (callJsonWithMode fast COPY [Text (raw_text req)]
                        COPY_SYSTEM CopySchema : Async GeneratedCopy)
                     (fun fallbackError => ret (fallbackCopy req))
               | fast => ret (fallbackCopy req)
               end)
           (fun copy => ret (fallbackCopy req)))).

(** The [try] block of [runOrchestrator]. *)
Definition orchestrate (req : UserRequest) (tid : string)
  : Async OrchestratorResponse :=
  let originalBase64 := images req in
  let referenceBase64 := match reference_images req with
                         | Some l => l
                         | None => []
                         end in
  bind (safeRunUnderstanding req) (fun u =>
  bind (safeRunVisualDirector req u) (fun directorOut =>
  bind (enhanceLoop directorOut originalBase64 referenceBase64
          (List.length (images req)) 0
          (repeat "" (List.length (images req))) [])
    (fun loopOut =>
  bind (empathyStage req) (fun empathicReply =>
  bind (copyStage req) (fun copy =>
  bind getTraces (fun llmTrace =>
    let variant :=
      {| v_id := tid ++ "_v1";
         style_name := "Amplify Master";
         usage_hint := "Social ready";
         creative_rationale := "Structural relighting and background cleanup";
         tone_direction := orElseOpt (suggested_tone u) "Cinematic";
         visual_direction := "V3 Structural Overhaul";
         copy := copy;
         enhanced_images_base64 := fst loopOut |} in
    ret {| r_traceId := tid;
           understanding := {| b_story_core := story_core u; scene := "V3";
                               theme := mood u |};
           visual_director_output := directorOut;
           empathic_reply := empathicReply;
           variants := [variant];
           debugInfo :=
             {| nano_banana_prompts :=
                  map nano_prompt_en_v2 (d_images directorOut);
                llmTrace := llmTrace;
                perImageScores := snd loopOut |} |})))))).

(** [req.traceId || generateTraceId()] *)
Definition traceIdOf (req : UserRequest) (w : World) : string :=
  match req_traceId req with
  | Some t => if truthy t then t else freshTraceId env w
  | None => freshTraceId env w
  end.

(** The orchestrator with the state it ends in (the router is local to the
    call, [runOrchestrator] forgets it). *)
Definition runOrchestratorSys (req : UserRequest) (w : World)
  : Completion OrchestratorResponse * Sys :=
  let tid := traceIdOf req w in
  let router := newLLMRouter req tid in
  tryCatch (orchestrate req tid) (fun e => throw e) (mkSys router w).

Definition runOrchestrator (req : UserRequest) (w : World)
  : Completion OrchestratorResponse * World :=
  let (c, s) := runOrchestratorSys req w in (c, world s).

(** ** index.tsx: the refine handler *)

Inductive RefineOutcome : Type :=
| Alerted (message : string)
| Ran (c : Completion OrchestratorResponse).

Definition SESSION_EXPIRED : string :=
  "Session expired. Please generate new content.".

Definition handleRefine (currentTraceId : option string)
    (request : UserRequest) (variantId : string) (refineMode : string)
    (instruction : string) (refineImageIndex : option Z) (w : World)
  : RefineOutcome * World :=
  match currentTraceId with
  | Some tid =>
      if truthy tid then
        let refineRequest :=
          {| images := images request;
             reference_images := reference_images request;
             raw_text := raw_text request;
             platform := platform request;
             mood_user := mood_user request;
             intent_user := intent_user request;
             language := language request;
             enable_l4_loop := enable_l4_loop request;
             performance_mode := performance_mode request;
             action := Some refine;
             req_traceId := Some tid;
             variant_id := Some variantId;
             refine_mode := Some refineMode;
             refine_instruction := Some instruction;
             refine_image_index := refineImageIndex |} in
        let (c, w') := runOrchestrator refineRequest w in
        (Ran c, w')
      else (Alerted SESSION_EXPIRED, w)
  | None => (Alerted SESSION_EXPIRED, w)
  end.

End Pipeline.

Arguments Sys World : clear implicits.
Arguments Async World A : clear implicits.
Arguments Backend World A : clear implicits.

(** ** A scripted backend

    The backend used to run the pipeline on concrete inputs: it answers the
    calls it receives, whatever they ask, with the completions of a script,
    one per call, and fails once the script is used up. The clock advances
    by one at every call. *)

Module Mock.

Record World : Type := {
  script : list (Completion GenerateContentResponse);
  clock : Z
}.

Definition unavailable : Completion GenerateContentResponse :=
  Throws (JsError "503 backend unavailable").

Definition textResponse (t : string) : Completion GenerateContentResponse :=
  Returns {| res_text := Some t; res_parts := None |}.

Definition imageResponse (data : string)
  : Completion GenerateContentResponse :=
  Returns {| res_text := None;
             res_parts := Some [ {| part_text := None;
                                    part_inlineData := Some data |} ] |}.

Definition noImageResponse : Completion GenerateContentResponse :=
  Returns {| res_text := None;
             res_parts := Some [ {| part_text := Some "sorry";
                                    part_inlineData := None |} ] |}.

Definition respond (_ : GenerateContentParameters) (w : World)
  : Completion GenerateContentResponse * World :=
  match script w with
  | [] => (unavailable, {| script := []; clock := clock w + 1 |})
  | c :: rest => (c, {| script := rest; clock := clock w + 1 |})
  end.

(** A decoder for the texts the script uses: every text but ["not json"]
    parses, into a value built around the text. *)
Definition decode (k : Schema) (text : string) : option (Parsed k) :=
  if String.eqb text "not json" then None
  else
    match k return option (Parsed k) with
    | UnderstandingSchema =>
        Some {| story_core := text; user_intent := "seek_empathy";
                u_platform := "wechat"; mood := "tired";
                suggested_tone := None; target_aesthetic := [];
                per_image := [ {| upi_image_index := 0;
                                  what_matters := ["desk"]; risks := [];
                                  keep_notes := [];
                                  can_change_notes := [] |} ] |}
    | DirectorSchema =>
        Some {| d_images := [ {| image_index := 0;
                                 nano_prompt_en_v2 := text |} ] |}
    | GuardrailSchema =>
        Some {| g_image_index := 0; pass := String.eqb text "OK";
                score := if String.eqb text "OK" then 90 else 20;
                verdict := text; reasons := []; revision_actions := [] |}
    | QASchema =>
        Some {| qa_pass := String.eqb text "OK";
                qa_score := if String.eqb text "OK" then 90 else 20;
                qa_verdict := text; qa_reasons := None;
                qa_revision_actions := None |}
    | CopySchema =>
        Some {| title := "Post"; main_text := text; hash_tags := ["#life"] |}
    end.

Definition isSpace (c : ascii) : bool :=
  match nat_of_ascii c with
  | 9%nat | 10%nat | 11%nat | 12%nat | 13%nat | 32%nat => true
  | _ => false
  end.

Fixpoint dropSpaces (s : string) : string :=
  match s with
  | String c rest => if isSpace c then dropSpaces rest else s
  | EmptyString => EmptyString
  end.

Fixpoint reverse (s acc : string) : string :=
  match s with
  | String c rest => reverse rest (String c acc)
  | EmptyString => acc
  end.

Definition trimSpaces (s : string) : string :=
  reverse (dropSpaces (reverse (dropSpaces s) "")) "".

(** Replacement of the first occurrence, for replacement texts without
    dollar patterns. *)
Definition replaceFirst (s pattern replacement : string) : string :=
  match index 0 pattern s with
  | Some n =>
      substring 0 n s ++ replacement
      ++ substring (n + String.length pattern)
           (String.length s - n - String.length pattern) s
  | None => s
  end.

Fixpoint splitCommaAux (s cur : string) : list string :=
  match s with
  | EmptyString => [reverse cur ""]
  | String c rest =>
      if Ascii.eqb c ","%char then reverse cur "" :: splitCommaAux rest ""
      else splitCommaAux rest (String c cur)
  end.

Definition splitComma (s : string) : list string := splitCommaAux s "".

Definition mimeOf (s : string) : option string :=
  match index 0 ":" s with
  | Some i =>
      match index (S i) ";" s with
      | Some j => Some (substring (S i) (j - S i) s)
      | None => None
      end
  | None => None
  end.

Definition env : Env World :=
  {| generateContent := respond;
     performance_now := clock;
     freshTraceId := fun w => "trace_" ++ (if clock w =? 0 then "0" else "n");
     JSON_parse := decode;
     trim := trimSpaces;
     replace := replaceFirst;
     split_comma := splitComma;
     match_mime := mimeOf |}.

Definition start (l : list (Completion GenerateContentResponse)) : World :=
  {| script := l; clock := 0 |}.

(** The request of the scenarios: one note, [n] images, a mode. *)
Definition request (imgs : list string) (m : Mode) : UserRequest :=
  {| images := imgs; reference_images := None;
     raw_text := "today I'm tired"; platform := wechat_moments;
     mood_user := "tired"; intent_user := "seek_empathy";
     language := Some en; enable_l4_loop := None;
     performance_mode := Some m; action := Some create;
     req_traceId := None; variant_id := None; refine_mode := None;
     refine_instruction := None; refine_image_index := None |}.

Definition photo : string := "data:image/png;base64,AAAA".

(** The same request in language [l]. *)
Definition requestIn (l : option Language) (m : Mode) : UserRequest :=
  {| images := []; reference_images := None;
     raw_text := "today I'm tired"; platform := wechat_moments;
     mood_user := "tired"; intent_user := "seek_empathy";
     language := l; enable_l4_loop := None;
     performance_mode := Some m; action := Some create;
     req_traceId := None; variant_id := None; refine_mode := None;
     refine_instruction := None; refine_image_index := None |}.

(** A refine request that carries no trace id. *)
Definition refineRequest : UserRequest :=
  {| images := []; reference_images := None;
     raw_text := "today I'm tired"; platform := wechat_moments;
     mood_user := "tired"; intent_user := "seek_empathy";
     language := Some en; enable_l4_loop := None;
     performance_mode := Some fast; action := Some refine;
     req_traceId := None; variant_id := Some "trace_0_v1";
     refine_mode := Some "lighter";
     refine_instruction := Some "shorter"; refine_image_index := None |}.

(** The state an invocation starts in, with trace id [t]. *)
Definition boot (req : UserRequest)
    (l : list (Completion GenerateContentResponse)) : Sys World :=
  mkSys (newLLMRouter req "t") (start l).

(** What is read off a response in the examples: the reply, the caption,
    the enhanced images, and agent, mode, retry index and success flag of
    every trace record. *)
Definition summary (c : Completion OrchestratorResponse)
  : option (string * list GeneratedCopy * list (list string)
            * list (string * string * Z * bool)) :=
  match c with
  | Returns resp =>
      Some (empathic_reply resp,
            map copy (variants resp),
            map enhanced_images_base64 (variants resp),
            map (fun t => (agentName (tr_agent t), modeName (tr_mode t),
                           tr_retriesUsed t, tr_ok t))
                (llmTrace (debugInfo resp)))
  | Throws _ => None
  end.

End Mock.

(** ** Notions the statements below are written with *)

Open Scope list_scope.

(** The world after [j] runs of an attempt function. *)
Fixpoint worldAfter {W T} (action : Backend W T) (j : nat) (w : W) : W :=
  match j with
  | O => w
  | S j' => worldAfter action j' (snd (action w))
  end.

(** The error one attempt ends with in world [w]: the error the attempt
    function throws, or the executor's own error when the validator rejects
    the result; [None] when the attempt is accepted. *)
Definition attemptError {W T} (agentId : AgentId) (action : Backend W T)
    (isValid : T -> bool) (w : W) : option Thrown :=
  match fst (action w) with
  | Returns v => if isValid v then None else Some (invalidResponse agentId)
  | Throws e => Some e
  end.

(** The mode a trace record of a call carries. *)
Definition recordedMode (modeOverride : option Mode) (m : Mode) : Mode :=
  match modeOverride with
  | Some o => o
  | None => m
  end.

(** The retry indices of [n] consecutive attempts starting at [a]. *)
Definition indicesFrom (a : Z) (n : nat) : list Z :=
  map (fun j => a + Z.of_nat j) (seq 0 n).

(** The router of [s'] is the router of [s] with the records [recs]
    appended to its trace list, and nothing else changed. *)
Definition appended {W} (s s' : Sys W) (recs : list LLMTraceRecord) : Prop :=
  traces (llm s') = traces (llm s) ++ recs /\
  mode (llm s') = mode (llm s) /\
  traceId (llm s') = traceId (llm s).

(** A call only ever appends to the trace list. *)
Definition appendOnly {W A} (m : Async W A) : Prop :=
  forall s, exists recs, appended s (snd (m s)) recs.

(** The stage [stage], which starts with the call [primary] and may go on
    with fallbacks, keeps every record the primary call has appended,
    whatever the fallbacks do. *)
Definition keepsPrimary {W A} (primary stage : Async W A) : Prop :=
  forall s, exists recs,
    traces (llm (snd (stage s))) = traces (llm (snd (primary s))) ++ recs.

(** A call that never throws. *)
Definition total {W A} (m : Async W A) : Prop :=
  forall s, exists a, fst (m s) = Returns a.

(** The calls of a stage follow the cascade: when the call [primary] under
    the active mode returns, the stage makes no further call; when it
    throws under [fast], the stage makes no further call and returns
    [dflt]; when it throws under [quality], the stage goes on with the one
    call [cross], made under [fast], and makes no call after it. *)
Definition cascadeCalls {W A B C} (stage : Async W A) (primary : Async W B)
    (cross : Async W C) (dflt : A) : Prop :=
  forall s,
    match primary s with
    | (Returns _, s1) => snd (stage s) = s1
    | (Throws _, s1) =>
        match mode (llm s) with
        | fast => stage s = (Returns dflt, s1)
        | quality => snd (stage s) = snd (cross s1)
        end
    end.

(** [req.reference_images] read into data URLs, or the empty list. *)
Definition referencesOf (req : UserRequest) : list string :=
  match reference_images req with
  | Some l => l
  | None => []
  end.

(** The director's output and the state in which the enhancement loop of
    an invocation starts. *)
Definition loopEntry {W} (env : Env W) MATRIX (req : UserRequest)
    (s : Sys W) : DirectorOut * Sys W :=
  match safeRunUnderstanding env MATRIX req s with
  | (Returns u, s1) =>
      match safeRunVisualDirector env MATRIX req u s1 with
      | (Returns d, s2) => (d, s2)
      | (Throws _, s2) => ({| d_images := [] |}, s2)
      end
  | (Throws _, s1) => ({| d_images := [] |}, s1)
  end.

(** The enhancement loop of an invocation, stopped after [k] indices. *)
Definition loopUpTo {W} (env : Env W) MATRIX (req : UserRequest) (k : nat)
    (s : Sys W) : Completion (list string * list ImageScore) * Sys W :=
  enhanceLoop env MATRIX (fst (loopEntry env MATRIX req s)) (images req)
    (referencesOf req) k 0 (repeat ""%string (List.length (images req))) []
    (snd (loopEntry env MATRIX req s)).

(** The entry of index [j] as the iteration for [j] alone makes it: the
    empty string without a plan, else what the loop body yields in the state
    the loop has reached at [j], or the source image when it yields no
    image. *)
Definition bodyEntry {W} (env : Env W) MATRIX (req : UserRequest)
    (s : Sys W) (j : nat) : string :=
  let original := nth j (images req) ""%string in
  match findPlan (fst (loopEntry env MATRIX req s)) j with
  | None => ""%string
  | Some plan =>
      match loopUpTo env MATRIX req j s with
      | (Returns (_, scj), sj) =>
          match enhanceBody env MATRIX j plan original (referencesOf req)
                  scj sj with
          | (Returns res, _) => imageOr (fst res) original
          | (Throws _, _) => original
          end
      | (Throws _, _) => original
      end
  end.

(** The state in which the text stages of an invocation start. *)
Definition textEntry {W} (env : Env W) MATRIX (req : UserRequest)
    (s : Sys W) : Sys W :=
  snd (loopUpTo env MATRIX req (List.length (images req)) s).

(** The request [req] with its action replaced. *)
Definition withAction (req : UserRequest) (a : option Action) : UserRequest :=
  {| images := images req;
     reference_images := reference_images req;
     raw_text := raw_text req;
     platform := platform req;
     mood_user := mood_user req;
     intent_user := intent_user req;
     language := language req;
     enable_l4_loop := enable_l4_loop req;
     performance_mode := performance_mode req;
     action := a;
     req_traceId := req_traceId req;
     variant_id := variant_id req;
     refine_mode := refine_mode req;
     refine_instruction := refine_instruction req;
     refine_image_index := refine_image_index req |}.

(** The two parts the guardrail is called with. *)
Definition guardrailParts {W} (env : Env W) (original enhanced : string)
  : list Part :=
  [base64ToGenerativePart env original; base64ToGenerativePart env enhanced].

(** What the records of one run of the executor look like: numbered by the
    loop counter from [attempt] on, and all of the same call. *)
Definition runRecords (agentId : AgentId) (spec : ModelSpec)
    (modeOverride : option Mode) (m : Mode) (attempt : Z)
    (recs : list LLMTraceRecord) : Prop :=
  map tr_retriesUsed recs = indicesFrom attempt (List.length recs) /\
  Forall (fun r => tr_agent r = agentId /\
                   tr_mode r = recordedMode modeOverride m /\
                   tr_model r = model spec) recs.

(** The outcome [c] of an executor run of budget [fuel] that started in
    world [w] and appended [recs]. *)
Definition runOutcome {W T} (agentId : AgentId) (action : Backend W T)
    (isValid : T -> bool) (fuel : nat) (lastError : Thrown) (w : W)
    (recs : list LLMTraceRecord) (c : Completion T) : Prop :=
  match c with
  | Returns v =>
      isValid v = true /\
      exists k, List.length recs = S k /\
        map tr_ok recs = repeat false k ++ [true] /\
        fst (action (worldAfter action k w)) = Returns v /\
        (forall j, (j < k)%nat ->
           attemptError agentId action isValid (worldAfter action j w)
           <> None)
  | Throws e =>
      List.length recs = fuel /\
      map tr_ok recs = repeat false fuel /\
      (forall j, (j < fuel)%nat ->
         attemptError agentId action isValid (worldAfter action j w)
         <> None) /\
      match fuel with
      | O => e = lastError
      | S k =>
          attemptError agentId action isValid (worldAfter action k w)
          = Some e /\
          option_map tr_error (nth_error recs k)
          = Some (Some (errorMessage e))
      end
  end.

(** The number of attempts a call for agent [a] under mode [m] can make:
    none without a spec. *)
Definition budget (MATRIX : Mode -> AgentId -> option ModelSpec) (m : Mode)
    (a : AgentId) : nat :=
  match MATRIX m a with
  | Some spec => Z.to_nat (Z.max 1 (retries spec))
  | None => 0
  end.

(** The attempts of a stage for agent [a] (agent [a'] for its call under
    [fast]) when the active mode is [m]: those of the call under [m] and,
    in [quality] mode, those of the call under [fast]. *)
Definition stageBudget MATRIX (m : Mode) (a a' : AgentId) : nat :=
  budget MATRIX m a
  + match m with
    | quality => budget MATRIX fast a'
    | fast => 0
    end.

(** The attempts one image can take: generation, guardrail, rescue. *)
Definition bodyBudget MATRIX (m : Mode) : nat :=
  stageBudget MATRIX m IMAGE_GEN IMAGE_GEN
  + stageBudget MATRIX m (preferredAgentOf MATRIX m) FAST_GUARDRAIL
  + budget MATRIX quality IMAGE_GEN.

(** At most [bound] records, all of the agents [agents]. *)
Definition within (agents : list AgentId) (bound : nat)
    (recs : list LLMTraceRecord) : Prop :=
  (List.length recs <= bound)%nat /\
  Forall (fun r => In (tr_agent r) agents) recs.

(** From [s] to [s'] the router has got at most [bound] records more, all
    of the agents [agents]. *)
Definition recsAt {W} (agents : list AgentId) (bound : nat) (s s' : Sys W)
  : Prop :=
  exists recs, appended s s' recs /\ within agents bound recs.

(** A PNG data URL, as the image calls build it. *)
Definition isPngUrl (s : string) : Prop :=
  exists data, s = ("data:image/png;base64," ++ data)%string.

(** From [s] to [s'] the router has got records that all satisfy [P], and
    nothing else of it has changed. *)
Definition adds {W} (P : LLMTraceRecord -> Prop) (s s' : Sys W) : Prop :=
  exists recs, appended s s' recs /\ Forall P recs.

(** Whatever state it starts in, the call [m] leaves only records that
    satisfy [P]. *)
Definition adding {W A} (P : LLMTraceRecord -> Prop) (m : Async W A) : Prop :=
  forall s, adds P s (snd (m s)).

(** The record names the model the table has for the record's own mode and
    agent. *)
Definition configured (MATRIX : Mode -> AgentId -> option ModelSpec)
    (r : LLMTraceRecord) : Prop :=
  exists spec, MATRIX (tr_mode r) (tr_agent r) = Some spec /\
               tr_model r = model spec.

(** The record of a failed attempt. *)
Definition failedRecord (r : LLMTraceRecord) : Prop := tr_ok r = false.

(** A backend that fails every request. *)
Definition down {W} (env : Env W) : Prop :=
  forall p w, exists e, fst (generateContent env p w) = Throws e.

(** The environment of the scripted backend with the backend switched
    off. *)
Definition offline : Env Mock.World :=
  {| generateContent := fun _ w => (Mock.unavailable, w);
     performance_now := Mock.clock;
     freshTraceId := freshTraceId Mock.env;
     JSON_parse := Mock.decode;
     trim := Mock.trimSpaces;
     replace := Mock.replaceFirst;
     split_comma := Mock.splitComma;
     match_mime := Mock.mimeOf |}.

(** ** components/InputForm.tsx *)

(** A file that was picked or dropped: its MIME type, and the data URL that
    stands for it in a request. *)
Record PickedFile : Type := {
  file_type : string;
  file_url : string
}.

(** [s.startsWith(searchString)] *)
Definition startsWith (s searchString : string) : bool :=
  String.prefix searchString s.

(** [{ ...request, images: l }] *)
Definition withImages (request : UserRequest) (l : list string)
  : UserRequest :=
  {| images := l;
     reference_images := reference_images request;
     raw_text := raw_text request;
     platform := platform request;
     mood_user := mood_user request;
     intent_user := intent_user request;
     language := language request;
     enable_l4_loop := enable_l4_loop request;
     performance_mode := performance_mode request;
     action := action request;
     req_traceId := req_traceId request;
     variant_id := variant_id request;
     refine_mode := refine_mode request;
     refine_instruction := refine_instruction request;
     refine_image_index := refine_image_index request |}.

(** [onChange({ ...request, raw_text: e.target.value })] *)
Definition handleTextChange (request : UserRequest) (value : string)
  : UserRequest :=
  {| images := images request;
     reference_images := reference_images request;
     raw_text := value;
     platform := platform request;
     mood_user := mood_user request;
     intent_user := intent_user request;
     language := language request;
     enable_l4_loop := enable_l4_loop request;
     performance_mode := performance_mode request;
     action := action request;
     req_traceId := req_traceId request;
     variant_id := variant_id request;
     refine_mode := refine_mode request;
     refine_instruction := refine_instruction request;
     refine_image_index := refine_image_index request |}.

(** The keys [handleSelectChange] is called with by the form: the mood and
    intent chips and the two platform radios. *)
Inductive Selection : Type :=
| select_mood_user (value : string)
| select_intent_user (value : string)
| select_platform (value : Platform).

(** [onChange({ ...request, [key]: value })] *)
Definition handleSelectChange (request : UserRequest) (sel : Selection)
  : UserRequest :=
  {| images := images request;
     reference_images := reference_images request;
     raw_text := raw_text request;
     platform := match sel with
                 | select_platform value => value
                 | _ => platform request
                 end;
     mood_user := match sel with
                  | select_mood_user value => value
                  | _ => mood_user request
                  end;
     intent_user := match sel with
                    | select_intent_user value => value
                    | _ => intent_user request
                    end;
     language := language request;
     enable_l4_loop := enable_l4_loop request;
     performance_mode := performance_mode request;
     action := action request;
     req_traceId := req_traceId request;
     variant_id := variant_id request;
     refine_mode := refine_mode request;
     refine_instruction := refine_instruction request;
     refine_image_index := refine_image_index request |}.

(** [request.language || 'en'] *)
Definition langOf (request : UserRequest) : Language :=
  match language request with
  | Some l => l
  | None => en
  end.

Definition toggleLanguage (request : UserRequest) : UserRequest :=
  let newLang := match langOf request with en => zh | _ => en end in
  {| images := images request;
     reference_images := reference_images request;
     raw_text := raw_text request;
     platform := platform request;
     mood_user := mood_user request;
     intent_user := intent_user request;
     language := Some newLang;
     enable_l4_loop := enable_l4_loop request;
     performance_mode := performance_mode request;
     action := action request;
     req_traceId := req_traceId request;
     variant_id := variant_id request;
     refine_mode := refine_mode request;
     refine_instruction := refine_instruction request;
     refine_image_index := refine_image_index request |}.

Definition handleAdvancedToggle (request : UserRequest) (checked : bool)
  : UserRequest :=
  {| images := images request;
     reference_images := reference_images request;
     raw_text := raw_text request;
     platform := platform request;
     mood_user := mood_user request;
     intent_user := intent_user request;
     language := language request;
     enable_l4_loop := Some checked;
     performance_mode := Some (if checked then quality else fast);
     action := action request;
     req_traceId := req_traceId request;
     variant_id := variant_id request;
     refine_mode := refine_mode request;
     refine_instruction := refine_instruction request;
     refine_image_index := refine_image_index request |}.

(** The images of the request after [processFiles(newFiles)]: the files of
    an image type are put behind the images the request has and the list is
    cut at nine. *)
Definition processFiles (request : UserRequest) (newFiles : list PickedFile)
  : UserRequest :=
  let validFiles :=
    filter (fun f => startsWith (file_type f) "image/") newFiles in
  let combinedFiles :=
    firstn 9 (images request ++ map file_url validFiles) in
  withImages request combinedFiles.

(** [newImages.splice(index, 1)] for the index of a thumbnail. *)
Definition splice1 {A} (l : list A) (index : nat) : list A :=
  firstn index l ++ skipn (S index) l.

Definition removeImage (request : UserRequest) (index : nat) : UserRequest :=
  let newImages := splice1 (images request) index in
  withImages request newImages.

(** The [disabled] attribute of the submit button. *)
Definition submitDisabled (request : UserRequest) (isLoading : bool) : bool :=
  isLoading
  || (negb (truthy (raw_text request))
      && Nat.eqb (List.length (images request)) 0).

(** What the form can hand to [onChange] when the page holds [request]:
    the request one of its handlers builds. A thumbnail, and with it the
    button that removes it, is there for the indices of the images only. *)
Inductive formChange (request : UserRequest) : UserRequest -> Prop :=
| change_text value : formChange request (handleTextChange request value)
| change_select sel : formChange request (handleSelectChange request sel)
| change_advanced checked :
    formChange request (handleAdvancedToggle request checked)
| change_language : formChange request (toggleLanguage request)
| change_files newFiles : formChange request (processFiles request newFiles)
| change_remove index :
    (index < List.length (images request))%nat ->
    formChange request (removeImage request index).

(** ** components/ResultDisplay.tsx *)

(** [array.map((x, i) => f x i)] *)
Fixpoint mapWithIndex {A B} (f : A -> nat -> B) (l : list A) (i : nat)
  : list B :=
  match l with
  | [] => []
  | x :: rest => f x i :: mapWithIndex f rest (S i)
  end.

(** [enhancedImages?.[i]] *)
Definition enhancedAt (enhancedImages : option (list string)) (i : nat)
  : option string :=
  match enhancedImages with
  | Some l => nth_error l i
  | None => None
  end.

(** [images.map((original, i) => enhancedImages?.[i] || original)] *)
Definition displayImages (images : list string)
    (enhancedImages : option (list string)) : list string :=
  mapWithIndex (fun original i => orElseOpt (enhancedAt enhancedImages i)
                                    original)
    images 0.

(** Whether the badge is drawn on the image at [idx]:
    [enhancedImages && enhancedImages[idx]
       && enhancedImages[idx] !== images[idx]]. *)
Definition enhancedBadge (images : list string)
    (enhancedImages : option (list string)) (idx : nat) : bool :=
  match enhancedAt enhancedImages idx with
  | Some e =>
      truthy e
      && match nth_error images idx with
         | Some original => negb (String.eqb e original)
         | None => true
         end
  | None => false
  end.

(** The index [handlePrev] and [handleNext] of the carousel hand to
    [onIndexChange]. *)
Definition handlePrev (activeIndex : Z) : Z :=
  if 0 <? activeIndex then activeIndex - 1 else activeIndex.

Definition handleNext (total : Z) (activeIndex : Z) : Z :=
  if activeIndex <? total - 1 then activeIndex + 1 else activeIndex.

(** [t.startsWith('#') ? t : `#${t}`] *)
Definition hashTag (t : string) : string :=
  if startsWith t "#" then t else ("#" ++ t)%string.

(** The text [handleCopy] writes to the clipboard. *)
Definition copyText (cp : GeneratedCopy) : string :=
  String.concat "

"
    (filter truthy
       [title cp; main_text cp;
        String.concat " " (map hashTag (hash_tags cp))]).

(** [handleDownloadImage] goes on to the download only when this holds. *)
Definition downloadable (v : Variant) (activeImageIndex : nat) : bool :=
  match nth_error (enhanced_images_base64 v) activeImageIndex with
  | Some e => truthy e
  | None => false
  end.

(** [isVariantEnhanced], for a variant that is there. *)
Definition isVariantEnhanced (v : Variant) : bool :=
  match enhanced_images_base64 v with
  | first :: _ => startsWith first "data:image/"
  | [] => false
  end.

Section Interface.

Context {World : Type}.
Variable env : Env World.
Variable MATRIX : Mode -> AgentId -> option ModelSpec.

(** [response?.variants.find(v => v.id === selectedVariantId)
       || response?.variants[0]] *)
Definition activeVariant (response : option OrchestratorResponse)
    (selectedVariantId : option string) : option Variant :=
  match response with
  | None => None
  | Some r =>
      match find (fun v => match selectedVariantId with
                           | Some id => String.eqb (v_id v) id
                           | None => false
                           end) (variants r) with
      | Some v => Some v
      | None => hd_error (variants r)
      end
  end.

(** ** index.tsx: the state of the page and its handlers *)

Record AppState : Type := {
  app_request : UserRequest;
  app_response : option OrchestratorResponse;
  app_isLoading : bool;
  app_currentTraceId : option string
}.

(** The request the page starts with, and goes back to on reset, in
    language [lang]. *)
Definition blankRequest (lang : option Language) : UserRequest :=
  {| images := []; reference_images := None; raw_text := "";
     platform := wechat_moments; mood_user := "tired";
     intent_user := "seek_empathy"; language := lang;
     enable_l4_loop := Some false; performance_mode := Some fast;
     action := None; req_traceId := None; variant_id := None;
     refine_mode := Some "none"%string; refine_instruction := None;
     refine_image_index := None |}.

Definition initialState : AppState :=
  {| app_request := blankRequest (Some en); app_response := None;
     app_isLoading := false; app_currentTraceId := None |}.

(** [{ ...prev, action: undefined, variant_id: undefined,
       refine_mode: 'none', refine_instruction: undefined }] *)
Definition clearRefinement (prev : UserRequest) : UserRequest :=
  {| images := images prev;
     reference_images := reference_images prev;
     raw_text := raw_text prev;
     platform := platform prev;
     mood_user := mood_user prev;
     intent_user := intent_user prev;
     language := language prev;
     enable_l4_loop := enable_l4_loop prev;
     performance_mode := performance_mode prev;
     action := None;
     req_traceId := req_traceId prev;
     variant_id := None;
     refine_mode := Some "none"%string;
     refine_instruction := None;
     refine_image_index := refine_image_index prev |}.

(** The alert of a failed submission. *)
Definition generationFailed (request : UserRequest) : string :=
  match language request with
  | Some en => "Generation failed, check console."
  | _ => "生成失败，请查看控制台日志"
  end.

(** [handleSubmit]: the state when the handler is done, the alert it has
    raised if any, and the world. *)
Definition handleSubmit (st : AppState) (w : World)
  : AppState * option string * World :=
  let newRequest := withAction (app_request st) (Some create) in
  match runOrchestrator env MATRIX newRequest w with
  | (Returns result, w') =>
      ({| app_request := clearRefinement (app_request st);
          app_response := Some result;
          app_isLoading := false;
          app_currentTraceId := Some (r_traceId result) |}, None, w')
  | (Throws _, w') =>
      ({| app_request := app_request st;
          app_response := app_response st;
          app_isLoading := false;
          app_currentTraceId := app_currentTraceId st |},
       Some (generationFailed (app_request st)), w')
  end.

(** The request [handleRefine] builds. *)
Definition refineRequestOf (tid : string) (request : UserRequest)
    (variantId refineMode instruction : string)
    (refineImageIndex : option Z) : UserRequest :=
  {| images := images request;
     reference_images := reference_images request;
     raw_text := raw_text request;
     platform := platform request;
     mood_user := mood_user request;
     intent_user := intent_user request;
     language := language request;
     enable_l4_loop := enable_l4_loop request;
     performance_mode := performance_mode request;
     action := Some refine;
     req_traceId := Some tid;
     variant_id := Some variantId;
     refine_mode := Some refineMode;
     refine_instruction := Some instruction;
     refine_image_index := refineImageIndex |}.

(** [handleRefine] with the state of the page: the call itself is
    [handleRefine] above. *)
Definition handleRefineState (st : AppState)
    (variantId refineMode instruction : string)
    (refineImageIndex : option Z) (w : World)
  : AppState * option string * World :=
  match handleRefine env MATRIX (app_currentTraceId st) (app_request st)
          variantId refineMode instruction refineImageIndex w with
  | (Alerted message, w') => (st, Some message, w')
  | (Ran c, w') =>
      let refineRequest :=
        refineRequestOf
          (match app_currentTraceId st with Some t => t | None => "" end)
          (app_request st) variantId refineMode instruction
          refineImageIndex in
      match c with
      | Returns result =>
          ({| app_request := clearRefinement refineRequest;
              app_response := Some result;
              app_isLoading := false;
              app_currentTraceId := app_currentTraceId st |}, None, w')
      | Throws _ =>
          ({| app_request := refineRequest;
              app_response := app_response st;
              app_isLoading := false;
              app_currentTraceId := app_currentTraceId st |}, None, w')
      end
  end.

Definition handleReset (st : AppState) : AppState :=
  {| app_request := blankRequest (language (app_request st));
     app_response := None;
     app_isLoading := app_isLoading st;
     app_currentTraceId := None |}.

(** [handleRefine] taken apart at its [await], for the events the page
    handles while the call is under way. The part before: the guard, the
    request built from the state the handler was made in,
    [setRequest(refineRequest)] and [setIsLoading(true)]; the third
    component is the request handed to the orchestrator, if the guard lets
    the handler go on. *)
Definition refineBegin (st : AppState)
    (variantId refineMode instruction : string)
    (refineImageIndex : option Z)
  : AppState * option string * option UserRequest :=
  match app_currentTraceId st with
  | Some tid =>
      if truthy tid then
        let refineRequest :=
          refineRequestOf tid (app_request st) variantId refineMode
            instruction refineImageIndex in
        ({| app_request := refineRequest;
            app_response := app_response st;
            app_isLoading := true;
            app_currentTraceId := app_currentTraceId st |},
         None, Some refineRequest)
      else (st, Some SESSION_EXPIRED, None)
  | None => (st, Some SESSION_EXPIRED, None)
  end.

(** The part after the [await], in the state [st] the page is in when the
    call completes: [setResponse(result)] and the functional update of the
    request when it has returned, and [setIsLoading(false)] in any case;
    [currentTraceId] is not written. *)
Definition refineSettle (st : AppState)
    (c : Completion OrchestratorResponse) : AppState :=
  match c with
  | Returns result =>
      {| app_request := clearRefinement (app_request st);
         app_response := Some result;
         app_isLoading := false;
         app_currentTraceId := app_currentTraceId st |}
  | Throws _ =>
      {| app_request := app_request st;
         app_response := app_response st;
         app_isLoading := false;
         app_currentTraceId := app_currentTraceId st |}
  end.

(** [triggerRefine(mode)] of the result panel, wired to [handleRefine] of
    the page: nothing happens without an active variant. *)
Definition triggerRefine (st : AppState) (selectedVariantId : option string)
    (refineMode refineInput : string) (activeImageIndex : Z) (w : World)
  : AppState * option string * World :=
  match activeVariant (app_response st) selectedVariantId with
  | Some v =>
      handleRefineState st (v_id v) refineMode refineInput
        (Some activeImageIndex) w
  | None => (st, None, w)
  end.

(** [onChange={setRequest}] *)
Definition setRequest (st : AppState) (request : UserRequest) : AppState :=
  {| app_request := request;
     app_response := app_response st;
     app_isLoading := app_isLoading st;
     app_currentTraceId := app_currentTraceId st |}.

(** One event of the page, handled to its end (the handlers run one after
    another, no event comes in while a call is awaited): a change of the
    form, the submit button while it is not disabled, the reset, or a
    refinement asked for in the result panel, whose variant selection,
    input and image index are its own state. *)
Inductive step : AppState * World -> AppState * World -> Prop :=
| step_change st w request :
    formChange (app_request st) request ->
    step (st, w) (setRequest st request, w)
| step_submit st w :
    submitDisabled (app_request st) (app_isLoading st) = false ->
    step (st, w) (fst (fst (handleSubmit st w)), snd (handleSubmit st w))
| step_reset st w :
    step (st, w) (handleReset st, w)
| step_refine st w selectedVariantId refineMode refineInput
    activeImageIndex :
    step (st, w)
      (fst (fst (triggerRefine st selectedVariantId refineMode refineInput
                   activeImageIndex w)),
       snd (triggerRefine st selectedVariantId refineMode refineInput
              activeImageIndex w)).

(** The states the page gets to from its initial state in world [w0]. *)
Inductive reachable (w0 : World) : AppState * World -> Prop :=
| reach_init : reachable w0 (initialState, w0)
| reach_step a b : reachable w0 a -> step a b -> reachable w0 b.

(** What holds of the page between two events: no more than nine images,
    not loading, the trace id of the session is that of the response on
    display, and the request carries no trace id or the non-empty one of
    the session. *)
Definition sessionOk (st : AppState) : Prop :=
  (List.length (images (app_request st)) <= 9)%nat /\
  app_isLoading st = false /\
  match app_response st with
  | Some r => app_currentTraceId st = Some (r_traceId r)
  | None => True
  end /\
  match req_traceId (app_request st) with
  | Some t => app_currentTraceId st = Some t /\ truthy t = true
  | None => True
  end.

(** ** tests/orchestrator.test.ts *)

Definition mockRequest : UserRequest :=
  {| images := []; reference_images := None;
     raw_text := "今天下班路上一个人走回家，好像有点累。";
     platform := wechat_moments; mood_user := "tired";
     intent_user := "seek_empathy"; language := None;
     enable_l4_loop := None; performance_mode := Some fast;
     action := Some create; req_traceId := None; variant_id := None;
     refine_mode := None; refine_instruction := None;
     refine_image_index := None |}.

Inductive SanityOutcome : Type :=
| AllChecksPassed
| SomeChecksFailed
| SanityCheckException.

(** [runSanityCheck], with what it logs at its end as its result. The
    understanding bundle of a response is an object, so that check cannot
    fail. *)
Definition runSanityCheck (w : World) : SanityOutcome * World :=
  match runOrchestrator env MATRIX mockRequest w with
  | (Returns response, w') =>
      let passed := true in
      let passed := if truthy (r_traceId response) then passed else false in
      let passed :=
        match variants response with
        | [] => false
        | v :: _ => if truthy (main_text (copy v)) then passed else false
        end in
      (if passed then AllChecksPassed else SomeChecksFailed, w')
  | (Throws _, w') => (SanityCheckException, w')
  end.

End Interface.

(** ** The first version: services/llmRouter.ts and the orchestrator at the
    head of services/orchestratorSkeleton.ts

    The router of this version has no retries and no calls under another
    mode, and the orchestrator has no fallbacks. *)

Module V1.

Definition NANO_NEGATIVE_V3 : string :=
  "floating light orbs, artificial bokeh dots, random light spots, sticker-like bokeh, lens flare stickers, blurry smudges, ghosting, teal cast in blacks, plastic skin, distorted fingers, text on screen becoming gibberish, messy wires, domestic clutter, tissues, trash, watermarks.".

Definition UNDERSTANDING_SYSTEM : string := "
You are a Technical Photography Director. 
Analyze the image layers:
1. Subject: What is the focus? (e.g., a hand, a screen, a person)
2. Primary Light: Where is light coming from? (e.g., monitor glow)
3. Background Clutter: What must be hidden in shadows? (e.g., cables, tissues)
" ++ "Search for " ++ dq ++ "Low-key cinematography" ++ dq ++ " and " ++ dq ++ "product lighting" ++ dq ++ " for inspiration.
".

Definition DIRECTOR_SYSTEM : string := "
You are a Master Colorist and Cinematographer. 
Your goal is to " ++ dq ++ "Relight and Re-surface" ++ dq ++ " the scene while preserving structure.

**V3 Execution Rules**:
- **PHYSICAL LIGHTING**: If there is a screen, it MUST be the only primary light source. Add " ++ dq ++ "Cyan/Blue/White glow spill" ++ dq ++ " from the screen onto the nearby surfaces (hands, desk).
- **STRUCTURE PRESERVATION**: Do NOT add random dots or orbs. Lighting must follow the geometry of the objects.
- **SURFACE REWRITE**: Change all messy/domestic surfaces (desks with clutter) into " ++ dq ++ "Polished dark obsidian" ++ dq ++ " or " ++ dq ++ "Deep matte black" ++ dq ++ " to hide mess.
- **ATMOSPHERE**: Use " ++ dq ++ "Anamorphic cinematic style" ++ dq ++ ", " ++ dq ++ "High dynamic range" ++ dq ++ ", " ++ dq ++ "Deep moody shadows" ++ dq ++ ", " ++ dq ++ "Professional color grade" ++ dq ++ ".

**Golden Prompt Template**:
" ++ dq ++ "A professional cinematic re-rendering of this photo. 
LAYER 1 (Subject): Preserve the sharp contours and details of the [SUBJECT].
LAYER 2 (Lighting): Use the screen as a high-intensity key light. Apply realistic blue/cyan light spill and rim lighting to the subject's edges. 
LAYER 3 (Environment): Drown all background clutter and domestic items in deep, rich, clean black shadows (Chiaroscuro). Rewrite the desk surface as a clean, dark reflective material.
STRICTLY FORBID: No floating light spots, no artificial bokeh dots, no stickers.

Color Grade: Balanced neutral-warm skin tones, cinematic cool shadows, zero green tint." ++ dq ++ "

Negative: " ++ NANO_NEGATIVE_V3 ++ "
".

Definition GUARDRAIL_SYSTEM : string := "
You are a Brutal Visual Quality Controller.
Compare Original vs Enhanced.
REJECT IF:
1. " ++ dq ++ "Hallucination" ++ dq ++ ": There are floating light dots or orbs that weren't there (FAIL).
2. " ++ dq ++ "Weakness" ++ dq ++ ": The background is still messy or hasn't changed (FAIL).
3. " ++ dq ++ "Distortion" ++ dq ++ ": The subject's shape is broken (FAIL).
Verdict 'OK' only if it looks like a clean movie frame.
".

Section Old.

Context {World : Type}.
Variable env : Env World.
Variable MATRIX : Mode -> AgentId -> option ModelSpec.

(** [this.traces.push({ agent: agentId, mode: this.mode, model: spec.model,
      temperature: spec.temperature, retriesUsed: 0, durationMs: 0,
      ok: true })] *)
Definition pushTrace (agentId : AgentId) (spec : ModelSpec) (r : LLMRouter)
  : LLMRouter :=
  {| mode := mode r;
     traceId := traceId r;
     traces := traces r ++
       [ {| tr_agent := agentId;
            tr_mode := mode r;
            tr_model := model spec;
            tr_temperature := temperature spec;
            tr_responseMimeType := None;
            tr_retriesUsed := 0;
            tr_durationMs := 0;
            tr_ok := true;
            tr_error := None |} ] |}.

(** Calling a method of [res.text] or reading [res.candidates[0]] when it
    is not there. *)
Definition undefinedError : Thrown :=
  JsError "TypeError: Cannot read properties of undefined".

Definition callJson (agentId : AgentId) (contents : list Part)
    (systemInstruction : string) (schema : Schema)
  : Async World (Parsed schema) :=
  fun s =>
    match MATRIX (mode (llm s)) agentId with
    | None => (Throws nullSpecError, s)
    | Some spec =>
        match generateContent env
                {| p_model := model spec; p_contents := contents;
                   p_temperature := temperature spec;
                   p_responseMimeType := Some application_json;
                   p_responseSchema := Some schema;
                   p_systemInstruction := Some systemInstruction;
                   p_tools := tools spec; p_topP := None; p_topK := None |}
                (world s) with
        | (Throws e, w') => (Throws e, mkSys (llm s) w')
        | (Returns res, w') =>
            let s' := mkSys (pushTrace agentId spec (llm s)) w' in
            match res_text res with
            | None => (Throws undefinedError, s')
            | Some text =>
                match JSON_parse env schema text with
                | Some v => (Returns v, s')
                | None => (Throws (JsError "SyntaxError: JSON.parse"), s')
                end
            end
        end
    end.

Definition callText (agentId : AgentId) (contents : list Part)
    (systemInstruction : string) : Async World string :=
  fun s =>
    match MATRIX (mode (llm s)) agentId with
    | None => (Throws nullSpecError, s)
    | Some spec =>
        match generateContent env
                {| p_model := model spec; p_contents := contents;
                   p_temperature := temperature spec;
                   p_responseMimeType := None; p_responseSchema := None;
                   p_systemInstruction := Some systemInstruction;
                   p_tools := false; p_topP := None; p_topK := None |}
                (world s) with
        | (Throws e, w') => (Throws e, mkSys (llm s) w')
        | (Returns res, w') =>
            (Returns (orElseOpt (res_text res) ""),
             mkSys (pushTrace agentId spec (llm s)) w')
        end
    end.

Definition callImageGen (prompt : string) (base64Image : string)
  : Async World (option string) :=
  fun s =>
    match MATRIX (mode (llm s)) IMAGE_GEN with
    | None => (Throws nullSpecError, s)
    | Some spec =>
        let parts := [InlineData "image/png" (afterComma env base64Image);
                      Text prompt] in
        match generateContent env
                {| p_model := model spec; p_contents := parts;
                   p_temperature := temperature spec;
                   p_responseMimeType := None; p_responseSchema := None;
                   p_systemInstruction := None; p_tools := false;
                   p_topP := topP spec; p_topK := topK spec |}
                (world s) with
        | (Throws e, w') => (Throws e, mkSys (llm s) w')
        | (Returns res, w') =>
            match res_parts res with
            | None => (Throws undefinedError, mkSys (llm s) w')
            | Some parts => (Returns (firstInlineData parts), mkSys (llm s) w')
            end
        end
    end.

Definition validateAndConstructPrompt (plan : DirectorImagePlan)
    (platform : string) (subject : string) : string :=
  let p := orElse (nano_prompt_en_v2 plan) "" in
  let finalPrompt :=
    replace env p "[SUBJECT]" (orElse subject "primary subject") in
  finalPrompt ++ "
[ACTION]: Clean the desk, unify the shadows, and ensure the screen light looks physically real. Target: " ++ platform ++ " Premium Look.".

Definition runUnderstanding (req : UserRequest)
  : Async World UnderstandingOut :=
  let imageParts := map (fileToGenerativePart env) (images req) in
  callJson UNDERSTANDING (imageParts ++ [Text (raw_text req)])
    UNDERSTANDING_SYSTEM UnderstandingSchema.

Definition runVisualDirector (req : UserRequest)
    (understanding : UnderstandingOut) : Async World DirectorOut :=
  let imageParts := map (fileToGenerativePart env) (images req) in
  bind (callJson VISUAL_DIRECTOR
          (imageParts ++ [Text "Focus on Physicality and De-cluttering."])
          DIRECTOR_SYSTEM DirectorSchema)
    (fun res : DirectorOut =>
       ret {| d_images :=
                map (fun plan =>
                       let sub :=
                         subjectOf understanding (image_index plan) in
                       {| image_index := image_index plan;
                          nano_prompt_en_v2 :=
                            validateAndConstructPrompt plan
                              (platformName (platform req)) sub |})
                    (d_images res) |}).

Definition runFastGuardrail (index : Z) (original enhanced : string)
  : Async World FastGuardrailOut :=
  callJson FAST_GUARDRAIL
    [base64ToGenerativePart env original;
     base64ToGenerativePart env enhanced]
    GUARDRAIL_SYSTEM GuardrailSchema.

(** The body of the loop for an index that has a plan. *)
Definition enhanceBody (i : nat) (plan : DirectorImagePlan)
    (original : string) (perImageScores : list ImageScore)
  : Async World (option string * list ImageScore) :=
  bind (callImageGen (nano_prompt_en_v2 plan) original) (fun resultImg =>
    match resultImg with
    | Some img =>
        if truthy img then
          bind (runFastGuardrail (Z.of_nat i) original img) (fun guard =>
            let perImageScores' : list ImageScore :=
              (perImageScores ++
               [ {| s_index := i; s_score := score guard;
                    s_verdict := verdict guard |} ])%list in
            if negb (pass guard) then
              let rescuePrompt :=
                (nano_prompt_en_v2 plan ++ STRICT_DIRECTIVE)%string in
              bind (callImageGen rescuePrompt original) (fun rescueImg =>
                ret (if imageValid rescueImg then rescueImg else resultImg,
                     perImageScores'))
            else ret (resultImg, perImageScores'))
        else ret (resultImg, perImageScores)
    | None => ret (resultImg, perImageScores)
    end).

Fixpoint enhanceLoop (directorOut : DirectorOut)
    (originalBase64 : list string) (fuel : nat) (i : nat)
    (enhancedImages : list string) (perImageScores : list ImageScore)
  : Async World (list string * list ImageScore) :=
  match fuel with
  | O => ret (enhancedImages, perImageScores)
  | S fuel' =>
      match findPlan directorOut i with
      | None =>
          enhanceLoop directorOut originalBase64 fuel' (S i)
            enhancedImages perImageScores
      | Some plan =>
          let original := nth i originalBase64 "" in
          bind (enhanceBody i plan original perImageScores)
            (fun r =>
               enhanceLoop directorOut originalBase64 fuel' (S i)
                 (array_set enhancedImages i (imageOr (fst r) original))
                 (snd r))
      end
  end.

(** The [try] block of [runOrchestrator]. *)
Definition orchestrate (req : UserRequest) (tid : string)
  : Async World OrchestratorResponse :=
  bind (runUnderstanding req) (fun u =>
  bind (runVisualDirector req u) (fun directorOut =>
  bind (enhanceLoop directorOut (images req) (List.length (images req)) 0
          (repeat "" (List.length (images req))) [])
    (fun loopOut =>
  bind (callText EMPATHY [Text (raw_text req)] EMPATHY_SYSTEM)
    (fun empathicReply =>
  bind (callJson COPY [Text (raw_text req)] COPY_SYSTEM CopySchema)
    (fun copy : GeneratedCopy =>
  bind getTraces (fun llmTrace =>
    let variant :=
      {| v_id := (tid ++ "_v1")%string;
         style_name := "Amplify Master";
         usage_hint := "Social ready";
         creative_rationale := "Structural relighting and background cleanup";
         tone_direction := orElseOpt (suggested_tone u) "Cinematic";
         visual_direction := "V3 Structural Overhaul";
         copy := copy;
         enhanced_images_base64 := fst loopOut |} in
    ret {| r_traceId := tid;
           understanding := {| b_story_core := story_core u; scene := "V3";
                               theme := mood u |};
           visual_director_output := directorOut;
           empathic_reply := empathicReply;
           variants := [variant];
           debugInfo :=
             {| nano_banana_prompts :=
                  map nano_prompt_en_v2 (d_images directorOut);
                llmTrace := llmTrace;
                perImageScores := snd loopOut |} |})))))).

(** [runOrchestrator] with the state it ends in: the [catch] logs the
    error and throws it again. *)
Definition runOrchestratorSys (req : UserRequest) (w : World)
  : Completion OrchestratorResponse * Sys World :=
  let tid := traceIdOf env req w in
  let router := newLLMRouter req tid in
  tryCatch (orchestrate req tid) (fun e => throw e) (mkSys router w).

End Old.

End V1.

(** ** The version in between: the first orchestrator of unnamed/part_001

    It calls the router of the last version, with its retries, but has no
    fallback of its own: the understanding, the direction, the calls of the
    loop and the two text calls are made directly, and the guardrail reads
    the answer of either evaluator with the guardrail's schema. *)

Module V2.

Section Between.

Context {World : Type}.
Variable env : Env World.
Variable MATRIX : Mode -> AgentId -> option ModelSpec.

Definition runFastGuardrail (index : Z) (original enhanced : string)
  : Async World FastGuardrailOut :=
  bind getMode (fun m =>
    let preferredAgent := preferredAgentOf MATRIX m in
    if negb (isSome (getSpecForMode MATRIX m preferredAgent)) then
      ret (autoPass index)
    else
      callJson env MATRIX preferredAgent
        [base64ToGenerativePart env original;
         base64ToGenerativePart env enhanced]
        GUARDRAIL_SYSTEM GuardrailSchema).

(** The body of the loop for an index that has a plan. *)
Definition enhanceBody (i : nat) (plan : DirectorImagePlan)
    (original : string) (referenceBase64 : list string)
    (perImageScores : list ImageScore)
  : Async World (option string * list ImageScore) :=
  bind (callImageGen env MATRIX (nano_prompt_en_v2 plan) original
          referenceBase64)
    (fun resultImg =>
       match resultImg with
       | Some img =>
           if truthy img then
             bind (runFastGuardrail (Z.of_nat i) original img) (fun guard =>
               let perImageScores' : list ImageScore :=
                 (perImageScores ++
                  [ {| s_index := i; s_score := score guard;
                       s_verdict := verdict guard |} ])%list in
               if negb (pass guard) then
                 let rescuePrompt :=
                   (nano_prompt_en_v2 plan ++ STRICT_DIRECTIVE)%string in
                 bind getMode (fun m =>
                   let rescueMode := rescueModeOf m in
                   bind (callImageGenWithMode env MATRIX rescueMode
                           rescuePrompt original referenceBase64)
                     (fun rescueImg =>
                        ret (if imageValid rescueImg then rescueImg
                             else resultImg, perImageScores')))
               else ret (resultImg, perImageScores'))
           else ret (resultImg, perImageScores)
       | None => ret (resultImg, perImageScores)
       end).

Fixpoint enhanceLoop (directorOut : DirectorOut)
    (originalBase64 referenceBase64 : list string) (fuel : nat) (i : nat)
    (enhancedImages : list string) (perImageScores : list ImageScore)
  : Async World (list string * list ImageScore) :=
  match fuel with
  | O => ret (enhancedImages, perImageScores)
  | S fuel' =>
      match findPlan directorOut i with
      | None =>
          enhanceLoop directorOut originalBase64 referenceBase64 fuel' (S i)
            enhancedImages perImageScores
      | Some plan =>
          let original := nth i originalBase64 "" in
          bind (enhanceBody i plan original referenceBase64 perImageScores)
            (fun r =>
               enhanceLoop directorOut originalBase64 referenceBase64 fuel'
                 (S i)
                 (array_set enhancedImages i (imageOr (fst r) original))
                 (snd r))
      end
  end.

(** The [try] block of [runOrchestrator]. *)
Definition orchestrate (req : UserRequest) (tid : string)
  : Async World OrchestratorResponse :=
  let originalBase64 := images req in
  let referenceBase64 := match reference_images req with
                         | Some l => l
                         | None => []
                         end in
  bind (runUnderstanding env MATRIX req) (fun u =>
  bind (runVisualDirector env MATRIX req u) (fun directorOut =>
  bind (enhanceLoop directorOut originalBase64 referenceBase64
          (List.length (images req)) 0
          (repeat "" (List.length (images req))) [])
    (fun loopOut =>
  bind (callText env MATRIX EMPATHY [Text (raw_text req)] EMPATHY_SYSTEM)
    (fun empathicReply =>
  bind (callJson env MATRIX COPY [Text (raw_text req)] COPY_SYSTEM
          CopySchema)
    (fun copy : GeneratedCopy =>
  bind getTraces (fun llmTrace =>
    let variant :=
      {| v_id := (tid ++ "_v1")%string;
         style_name := "Amplify Master";
         usage_hint := "Social ready";
         creative_rationale := "Structural relighting and background cleanup";
         tone_direction := orElseOpt (suggested_tone u) "Cinematic";
         visual_direction := "V3 Structural Overhaul";
         copy := copy;
         enhanced_images_base64 := fst loopOut |} in
    ret {| r_traceId := tid;
           understanding := {| b_story_core := story_core u; scene := "V3";
                               theme := mood u |};
           visual_director_output := directorOut;
           empathic_reply := empathicReply;
           variants := [variant];
           debugInfo :=
             {| nano_banana_prompts :=
                  map nano_prompt_en_v2 (d_images directorOut);
                llmTrace := llmTrace;
                perImageScores := snd loopOut |} |})))))).

Definition runOrchestratorSys (req : UserRequest) (w : World)
  : Completion OrchestratorResponse * Sys World :=
  let tid := traceIdOf env req w in
  let router := newLLMRouter req tid in
  tryCatch (orchestrate req tid) (fun e => throw e) (mkSys router w).

End Between.

End V2.

(** The record the first version of the router writes for a call for agent
    [a] under mode [m]. *)
Definition plainRecord (m : Mode) (a : AgentId) (r : LLMTraceRecord) : Prop :=
  tr_agent r = a /\ tr_mode r = m /\ tr_ok r = true /\ tr_error r = None /\
  tr_retriesUsed r = 0.

(** From [s] to [s'] the router has got the records [recs], all of them
    plain records for agent [a]. *)
Definition addsPlain {W} (a : AgentId) (recs : list LLMTraceRecord)
    (s s' : Sys W) : Prop :=
  appended s s' recs /\ Forall (plainRecord (mode (llm s)) a) recs.

(** ** The answers of the backend as the code reads them

    [JSON.parse(...) as T] checks nothing: the value a text parses to is
    handed on as a [T] whatever it is. The stages that parse an answer and
    the orchestrator are embedded a second time here, with the value on
    which every read of a property stops: the text [null] parses to [null],
    the router takes it for the result of a successful attempt, and the
    first read of one of its properties throws a [TypeError]. An answer that
    is not [null] has the shape of [T], as above; answers of another shape
    are not among the values of this embedding. The retrying executor and
    the calls that parse nothing (the text calls, the image calls, the
    generation of an image and its rescue) are the ones above. *)

Module Nullable.

(** What [JSON.parse(...) as T] yields for a text that parses. *)
Inductive Json (T : Type) : Type :=
| JsonNull
| JsonValue (v : T).
Arguments JsonNull {T}.
Arguments JsonValue {T} v.

(** Reading a property of [null]. *)
Definition nullRead : Thrown :=
  JsError "TypeError: Cannot read properties of null".

(** The caption of a variant is whatever the caption call has returned. *)
Record Variant : Type := {
  v_id : string;
  style_name : string;
  usage_hint : string;
  creative_rationale : string;
  tone_direction : string;
  visual_direction : string;
  copy : Json GeneratedCopy;
  enhanced_images_base64 : list string
}.

Record OrchestratorResponse : Type := {
  r_traceId : string;
  understanding : UnderstandingBundle;
  visual_director_output : DirectorOut;
  empathic_reply : string;
  variants : list Variant;
  debugInfo : DebugInfo
}.

Section Loose.

Context {World : Type}.
Variable env : Env World.

(** [JSON.parse(text.replace(/```json/g, '').replace(/```/g, '').trim())
    as T] with [T] the type of schema [k]; [None] is a parse error. *)
Variable JSON_parse : forall k : Schema, string -> option (Json (Parsed k)).

Variable MATRIX : Mode -> AgentId -> option ModelSpec.

(** The first read of a property of a parsed answer. *)
Definition read {T} (answer : Json T) : Async World T :=
  match answer with
  | JsonNull => throw nullRead
  | JsonValue v => ret v
  end.

Definition jsonAction (spec : ModelSpec) (agentId : AgentId)
    (contents : list Part) (systemInstruction : string) (schema : Schema)
  : Backend World (Json (Parsed schema)) :=
  callBackend env
    {| p_model := model spec; p_contents := contents;
       p_temperature := temperature spec;
       p_responseMimeType := Some application_json;
       p_responseSchema := Some schema;
       p_systemInstruction := Some systemInstruction;
       p_tools := tools spec; p_topP := None; p_topK := None |}
    (fun res =>
       let text := extractTextFromResponse res in
       if negb (truthy text) then
         Throws (JsError ("[LLMRouter] Empty JSON response for "
                          ++ agentName agentId))
       else
         match JSON_parse schema text with
         | Some v => Returns v
         | None => Throws (JsError "SyntaxError: JSON.parse")
         end).

Definition callJson (agentId : AgentId) (contents : list Part)
    (systemInstruction : string) (schema : Schema)
  : Async World (Json (Parsed schema)) :=
  bind (getSpec MATRIX agentId) (fun spec =>
    match spec with
    | None => throw nullSpecError
    | Some spec =>
        withRetries env agentId spec
          (jsonAction spec agentId contents systemInstruction schema)
          alwaysValid None
    end).

Definition callJsonWithMode (m : Mode) (agentId : AgentId)
    (contents : list Part) (systemInstruction : string) (schema : Schema)
  : Async World (Json (Parsed schema)) :=
  match getSpecForMode MATRIX m agentId with
  | None => throw (missingSpecError m agentId)
  | Some spec =>
      withRetries env agentId spec
        (jsonAction spec agentId contents systemInstruction schema)
        alwaysValid (Some m)
  end.

(** [buildFallbackDirector]: the closure given to [map] reads
    [understanding.per_image] for every image of the request; the plans
    are those built above. *)
Definition buildFallbackDirector (req : UserRequest)
    (understanding : Json UnderstandingOut) : Async World DirectorOut :=
  match images req with
  | [] => ret {| d_images := [] |}
  | _ :: _ =>
      bind (read understanding) (fun u =>
        ret (buildFallbackDirector env req u))
  end.

Definition runUnderstanding (req : UserRequest)
  : Async World (Json UnderstandingOut) :=
  let imageParts := map (fileToGenerativePart env) (images req) in
  callJson UNDERSTANDING (imageParts ++ [Text (raw_text req)])
    UNDERSTANDING_SYSTEM UnderstandingSchema.

Definition safeRunUnderstanding (req : UserRequest)
  : Async World (Json UnderstandingOut) :=
  tryCatch (runUnderstanding req) (fun error =>
    bind getMode (fun m =>
      bind (match m with
            | quality =>
                tryCatch
                  (bind (callJsonWithMode fast UNDERSTANDING
                           [Text (raw_text req)] UNDERSTANDING_SYSTEM
                           UnderstandingSchema)
                        (fun u => ret (Some u)))
                  (fun fallbackError => ret None)
            | fast => ret None
            end)
        (fun returned =>
           match returned with
           | Some u => ret u
           | None => ret (JsonValue (buildFallbackUnderstanding req))
           end))).

(** The loop that rewrites the prompt of every plan in place: its body
    reads [understanding.per_image], so that with no plan nothing is read;
    the prompts are rewritten as above. *)
Definition rewritePlans (req : UserRequest)
    (understanding : Json UnderstandingOut) (d : DirectorOut)
  : Async World DirectorOut :=
  match d_images d with
  | [] => ret d
  | _ :: _ =>
      bind (read understanding) (fun u => ret (rewritePlans env req u d))
  end.

(** The plans of the last resort, built from the template and rewritten. *)
Definition fallbackPlans (req : UserRequest)
    (understanding : Json UnderstandingOut) : Async World DirectorOut :=
  bind (buildFallbackDirector req understanding)
    (fun fallback => rewritePlans req understanding fallback).

(** [res.images] is the first read of the answer. *)
Definition runVisualDirector (req : UserRequest)
    (understanding : Json UnderstandingOut) : Async World DirectorOut :=
  let imageParts := map (fileToGenerativePart env) (images req) in
  bind (callJson VISUAL_DIRECTOR (imageParts ++ [Text DIRECTOR_TEXT])
          DIRECTOR_SYSTEM DirectorSchema)
    (fun res =>
       bind (read res) (fun d => rewritePlans req understanding d)).

(** The plans of the last resort are built and rewritten in the handler,
    outside the inner [try]. *)
Definition safeRunVisualDirector (req : UserRequest)
    (understanding : Json UnderstandingOut) : Async World DirectorOut :=
  match images req with
  | [] => ret {| d_images := [] |}
  | _ :: _ =>
      tryCatch (runVisualDirector req understanding) (fun error =>
        bind getMode (fun m =>
          bind (match m with
                | quality =>
                    tryCatch
                      (let imageParts :=
                         map (fileToGenerativePart env) (images req) in
                       bind (callJsonWithMode fast VISUAL_DIRECTOR
                               (imageParts ++ [Text DIRECTOR_TEXT])
                               DIRECTOR_SYSTEM DirectorSchema)
                         (fun fastDirector =>
                            bind (read fastDirector) (fun d =>
                              bind (rewritePlans req understanding d)
                                (fun d' => ret (Some d')))))
                      (fun fallbackError => ret None)
                | fast => ret None
                end)
            (fun returned =>
               match returned with
               | Some d => ret d
               | None => fallbackPlans req understanding
               end)))
  end.

(** With the QA evaluator the verdict is read off the answer,
    [qa.verdict]; the answer of the fast guardrail is returned as it is. *)
Definition runFastGuardrail (index : Z) (original enhanced : string)
  : Async World (Json FastGuardrailOut) :=
  bind getMode (fun m =>
    let preferredAgent := preferredAgentOf MATRIX m in
    if negb (isSome (getSpecForMode MATRIX m preferredAgent)) then
      ret (JsonValue (autoPass index))
    else
      match preferredAgent with
      | IMAGE_QA =>
          bind (callJson IMAGE_QA
                  [base64ToGenerativePart env original;
                   base64ToGenerativePart env enhanced]
                  GUARDRAIL_SYSTEM QASchema)
            (fun answer =>
               bind (read answer) (fun qa : ImageQAOut =>
                 ret (JsonValue
                        {| g_image_index := index;
                           pass := qa_pass qa;
                           score := qa_score qa;
                           verdict := mapVerdict (qa_verdict qa);
                           reasons := match qa_reasons qa with
                                      | Some l => l
                                      | None => []
                                      end;
                           revision_actions :=
                             match qa_revision_actions qa with
                             | Some l => l
                             | None => []
                             end |})))
      | _ =>
          callJson preferredAgent
            [base64ToGenerativePart env original;
             base64ToGenerativePart env enhanced]
            GUARDRAIL_SYSTEM GuardrailSchema
      end).

Definition safeRunFastGuardrail (index : Z) (original enhanced : string)
  : Async World (Json FastGuardrailOut) :=
  tryCatch (runFastGuardrail index original enhanced) (fun error =>
    bind getMode (fun m =>
      bind (match m with
            | quality =>
                tryCatch
                  (bind (callJsonWithMode fast FAST_GUARDRAIL
                           [base64ToGenerativePart env original;
                            base64ToGenerativePart env enhanced]
                           GUARDRAIL_SYSTEM GuardrailSchema)
                        (fun g => ret (Some g)))
                  (fun fallbackError => ret None)
            | fast => ret None
            end)
        (fun returned =>
           match returned with
           | Some g => ret g
           | None => ret (JsonValue (autoPass index))
           end))).

(** The body of the enhancement loop for an index that has a plan. The
    guardrail's answer is read, [guard.score], right after the guardrail
    stage and outside any [try] of the body. *)
Definition enhanceBody (i : nat) (plan : DirectorImagePlan)
    (original : string) (referenceBase64 : list string)
    (perImageScores : list ImageScore)
  : Async World (option string * list ImageScore) :=
  bind (generateImage env MATRIX plan original referenceBase64)
    (fun resultImg =>
    match resultImg with
    | Some img =>
        if truthy img then
          bind (safeRunFastGuardrail (Z.of_nat i) original img)
            (fun answer =>
          bind (read answer) (fun guard =>
            let perImageScores' : list ImageScore :=
              (perImageScores ++
               [ {| s_index := i; s_score := score guard;
                    s_verdict := verdict guard |} ])%list in
            if negb (pass guard) then
              bind (rescue env MATRIX plan original referenceBase64 resultImg)
                (fun resultImg' => ret (resultImg', perImageScores'))
            else ret (resultImg, perImageScores')))
        else ret (resultImg, perImageScores)
    | None => ret (resultImg, perImageScores)
    end).

Fixpoint enhanceLoop (directorOut : DirectorOut)
    (originalBase64 referenceBase64 : list string) (fuel : nat) (i : nat)
    (enhancedImages : list string) (perImageScores : list ImageScore)
  : Async World (list string * list ImageScore) :=
  match fuel with
  | O => ret (enhancedImages, perImageScores)
  | S fuel' =>
      match findPlan directorOut i with
      | None =>
          enhanceLoop directorOut originalBase64 referenceBase64 fuel' (S i)
            enhancedImages perImageScores
      | Some plan =>
          let original := nth i originalBase64 "" in
          bind (enhanceBody i plan original referenceBase64 perImageScores)
            (fun r =>
               enhanceLoop directorOut originalBase64 referenceBase64 fuel'
                 (S i)
                 (array_set enhancedImages i (imageOr (fst r) original))
                 (snd r))
      end
  end.

(** The copy block: what a call returns is assigned to [copy] unread. *)
Definition copyStage (req : UserRequest) : Async World (Json GeneratedCopy) :=
  tryCatch
    (callJson COPY [Text (raw_text req)] COPY_SYSTEM CopySchema
     : Async World (Json GeneratedCopy))
    (fun error =>
       bind getMode (fun m =>
         bind (match m with
               | quality =>
                   tryCatch
                     (callJsonWithMode fast COPY [Text (raw_text req)]
                        COPY_SYSTEM CopySchema
                      : Async World (Json GeneratedCopy))
                     (fun fallbackError =>
                        ret (JsonValue (fallbackCopy req)))
               | fast => ret (JsonValue (fallbackCopy req))
               end)
           (fun copy => ret (JsonValue (fallbackCopy req))))).

(** The [try] block of [runOrchestrator]; [understanding.suggested_tone]
    is the first read of the understanding after the director stage. *)
Definition orchestrate (req : UserRequest) (tid : string)
  : Async World OrchestratorResponse :=
  let originalBase64 := images req in
  let referenceBase64 := match reference_images req with
                         | Some l => l
                         | None => []
                         end in
  bind (safeRunUnderstanding req) (fun understanding =>
  bind (safeRunVisualDirector req understanding) (fun directorOut =>
  bind (enhanceLoop directorOut originalBase64 referenceBase64
          (List.length (images req)) 0
          (repeat "" (List.length (images req))) [])
    (fun loopOut =>
  bind (empathyStage env MATRIX req) (fun empathicReply =>
  bind (copyStage req) (fun copy =>
  bind (read understanding) (fun u =>
  bind getTraces (fun llmTrace =>
    let variant :=
      {| v_id := tid ++ "_v1";
         style_name := "Amplify Master";
         usage_hint := "Social ready";
         creative_rationale := "Structural relighting and background cleanup";
         tone_direction := orElseOpt (suggested_tone u) "Cinematic";
         visual_direction := "V3 Structural Overhaul";
         copy := copy;
         enhanced_images_base64 := fst loopOut |} in
    ret {| r_traceId := tid;
           understanding := {| b_story_core := story_core u; scene := "V3";
                               theme := mood u |};
           visual_director_output := directorOut;
           empathic_reply := empathicReply;
           variants := [variant];
           debugInfo :=
             {| nano_banana_prompts :=
                  map nano_prompt_en_v2 (d_images directorOut);
                llmTrace := llmTrace;
                perImageScores := snd loopOut |} |}))))))).

(** [runOrchestrator]: the handler of the outer [try] throws again what it
    has caught. *)
Definition runOrchestratorSys (req : UserRequest) (w : World)
  : Completion OrchestratorResponse * Sys World :=
  let tid := traceIdOf env req w in
  let router := newLLMRouter req tid in
  tryCatch (orchestrate req tid) (fun e => throw e) (mkSys router w).

Definition runOrchestrator (req : UserRequest) (w : World)
  : Completion OrchestratorResponse * World :=
  let (c, s) := runOrchestratorSys req w in (c, world s).

(** The director's output and the state in which the enhancement loop of
    an invocation starts, when the stages before it have returned. *)
Definition loopEntry (req : UserRequest) (s : Sys World)
  : option (DirectorOut * Sys World) :=
  match safeRunUnderstanding req s with
  | (Returns u, s1) =>
      match safeRunVisualDirector req u s1 with
      | (Returns d, s2) => Some (d, s2)
      | (Throws _, _) => None
      end
  | (Throws _, _) => None
  end.

End Loose.

(** The decoder of the scripted backend, with the text [null]. *)
Definition decode (k : Schema) (text : string) : option (Json (Parsed k)) :=
  if String.eqb text "null" then Some JsonNull
  else option_map JsonValue (Mock.decode k text).

(** The calls of a stage follow the cascade: when the attempt [primary]
    under the active mode returns, the stage makes no further call; when it
    throws under [fast], the stage makes no further call and ends as
    [dflt], which makes no call, does; when it throws under [quality], the
    stage goes on with the one call [cross], made under [fast], and makes
    no call after it. *)
Definition cascade {W A B C} (stage : Async W A) (primary : Async W B)
    (cross : Async W C) (dflt : Async W A) : Prop :=
  forall s,
    match primary s with
    | (Returns _, s1) => snd (stage s) = s1
    | (Throws _, s1) =>
        match mode (llm s) with
        | fast => stage s = dflt s1 /\ snd (dflt s1) = s1
        | quality => snd (stage s) = snd (cross s1)
        end
    end.

End Nullable.

(** A parser none of whose answers is [null]: the answers of [parse], as
    they are. *)
Definition neverNull (parse : forall k : Schema, string -> option (Parsed k))
    (k : Schema) (text : string) : option (Nullable.Json (Parsed k)) :=
  option_map Nullable.JsonValue (parse k text).

Definition mapCompletion {A B} (f : A -> B) (c : Completion A)
  : Completion B :=
  match c with
  | Returns a => Returns (f a)
  | Throws e => Throws e
  end.

(** A response of the first embedding as one of the second. *)
Definition nullableVariant (v : Variant) : Nullable.Variant :=
  {| Nullable.v_id := v_id v;
     Nullable.style_name := style_name v;
     Nullable.usage_hint := usage_hint v;
     Nullable.creative_rationale := creative_rationale v;
     Nullable.tone_direction := tone_direction v;
     Nullable.visual_direction := visual_direction v;
     Nullable.copy := Nullable.JsonValue (copy v);
     Nullable.enhanced_images_base64 := enhanced_images_base64 v |}.

Definition nullableResponse (r : OrchestratorResponse)
  : Nullable.OrchestratorResponse :=
  {| Nullable.r_traceId := r_traceId r;
     Nullable.understanding := understanding r;
     Nullable.visual_director_output := visual_director_output r;
     Nullable.empathic_reply := empathic_reply r;
     Nullable.variants := map nullableVariant (variants r);
     Nullable.debugInfo := debugInfo r |}.

(** The call [m'] does what the call [m] does, its result seen through
    [f]. *)
Definition agrees {W A B} (f : A -> B) (m : Async W A) (m' : Async W B)
  : Prop :=
  forall s, m' s = (mapCompletion f (fst (m s)), snd (m s)).

Section Router.

Context {World : Type}.
Variable env : Env World.
Variable MATRIX : Mode -> AgentId -> option ModelSpec.

Lemma appended_refl (s : Sys World) : appended s s [].
Proof.
  unfold appended. rewrite app_nil_r. auto.
Qed.

Lemma appended_trans (s1 s2 s3 : Sys World) r1 r2 :
  appended s1 s2 r1 -> appended s2 s3 r2 -> appended s1 s3 (r1 ++ r2).
Proof.
  unfold appended. intros (H1 & H2 & H3) (H4 & H5 & H6).
  rewrite H4, H1, app_assoc. repeat split; congruence.
Qed.

Lemma indicesFrom_S a n :
  indicesFrom a (S n) = a :: indicesFrom (a + 1) n.
Proof.
  unfold indicesFrom. simpl. rewrite Z.add_0_r. f_equal.
  rewrite <- seq_shift, map_map. apply map_ext. intros j. lia.
Qed.

Lemma indicesFrom_length a n : List.length (indicesFrom a n) = n.
Proof.
  unfold indicesFrom. now rewrite length_map, length_seq.
Qed.

Section Loop.

Variable T : Type.
Variable agentId : AgentId.
Variable spec : ModelSpec.
Variable action : Backend World T.
Variable isValid : T -> bool.
Variable modeOverride : option Mode.

Let loop := withRetries_loop env agentId spec action isValid modeOverride.

Lemma withRetries_loop_spec :
  forall fuel attempt lastError s,
    exists recs,
      appended s (snd (loop fuel attempt lastError s)) recs /\
      (List.length recs <= fuel)%nat /\
      runRecords agentId spec modeOverride (mode (llm s)) attempt recs /\
      world (snd (loop fuel attempt lastError s))
      = worldAfter action (List.length recs) (world s) /\
      runOutcome agentId action isValid fuel lastError (world s) recs
        (fst (loop fuel attempt lastError s)).
Proof.
  induction fuel as [|fuel IH]; intros attempt lastError s.
  - exists []. simpl. repeat split; auto using appended_refl.
    + rewrite app_nil_r. reflexivity.
    + intros j Hj. lia.
  - unfold loop. simpl.
    set (start := performance_now env (world s)).
    assert (Hfail : forall error w1,
      action (world s) = (fst (action (world s)), w1) ->
      attemptError agentId action isValid (world s) = Some error ->
      let s2 := mkSys (recordTrace agentId spec attempt
                         (performance_now env w1 - start) false
                         (Some (errorMessage error)) modeOverride (llm s))
                      w1 in
      exists recs,
        appended s (snd (loop fuel (attempt + 1) error s2)) recs /\
        (List.length recs <= S fuel)%nat /\
        runRecords agentId spec modeOverride (mode (llm s)) attempt recs /\
        world (snd (loop fuel (attempt + 1) error s2))
        = worldAfter action (List.length recs) (world s) /\
        runOutcome agentId action isValid (S fuel) lastError (world s) recs
          (fst (loop fuel (attempt + 1) error s2))).
    { intros error w1 Hact Herr s2.
      destruct (IH (attempt + 1) error s2)
        as (recs & Happ & Hlen & (Hidx & Hall) & Hw & Hout).
      set (rec := {| tr_agent := agentId;
                     tr_mode := recordedMode modeOverride (mode (llm s));
                     tr_model := model spec;
                     tr_temperature := temperature spec;
                     tr_responseMimeType := responseMimeType spec;
                     tr_retriesUsed := attempt;
                     tr_durationMs := performance_now env w1 - start;
                     tr_ok := false;
                     tr_error := Some (errorMessage error) |}).
      assert (Hw1 : snd (action (world s)) = w1) by (rewrite Hact; reflexivity).
      exists (rec :: recs). repeat split.
      - destruct Happ as (H1 & _). rewrite H1. simpl.
        rewrite <- app_assoc. reflexivity.
      - destruct Happ as (_ & H2 & _). rewrite H2. reflexivity.
      - destruct Happ as (_ & _ & H3). rewrite H3. reflexivity.
      - simpl. lia.
      - simpl. rewrite indicesFrom_S. f_equal. exact Hidx.
      - constructor; [repeat split; reflexivity| exact Hall].
      - simpl. rewrite Hw1. exact Hw.
      - destruct (fst (loop fuel (attempt + 1) error s2)) as [v|e];
          simpl in Hout |- *.
        + destruct Hout as (Hv & k & Hk & Hoks & Hfst & Hprev).
          split; [exact Hv|]. exists (S k). repeat split.
          * simpl. now rewrite Hk.
          * simpl. now rewrite Hoks.
          * simpl. rewrite Hw1. exact Hfst.
          * intros [|j] Hj; simpl.
            -- rewrite Herr. discriminate.
            -- rewrite Hw1. apply Hprev. lia.
        + destruct Hout as (Hl & Hoks & Hprev & Hlast).
          repeat split.
          * simpl. now rewrite Hl.
          * simpl. now rewrite Hoks.
          * intros [|j] Hj; simpl.
            -- rewrite Herr. discriminate.
            -- rewrite Hw1. apply Hprev. lia.
          * destruct fuel as [|k].
            -- simpl. subst e. exact Herr.
            -- simpl. rewrite Hw1. apply Hlast.
          * destruct fuel as [|k].
            -- subst e. reflexivity.
            -- simpl. apply Hlast. }
    unfold attemptError in Hfail.
    destruct (action (world s)) as [[v|e] w1] eqn:Hact; simpl in Hfail.
    + destruct (isValid v) eqn:Hvalid.
      * set (rec := {| tr_agent := agentId;
                       tr_mode := recordedMode modeOverride (mode (llm s));
                       tr_model := model spec;
                       tr_temperature := temperature spec;
                       tr_responseMimeType := responseMimeType spec;
                       tr_retriesUsed := attempt;
                       tr_durationMs := performance_now env w1 - start;
                       tr_ok := true;
                       tr_error := None |}).
        exists [rec]. simpl. repeat split; auto.
        -- lia.
        -- unfold indicesFrom. simpl. f_equal. lia.
        -- now rewrite Hact.
        -- exists O. simpl. repeat split; auto.
           ++ now rewrite Hact.
           ++ intros j Hj. lia.
      * apply (Hfail (invalidResponse agentId) w1); reflexivity.
    + apply (Hfail e w1); reflexivity.
Qed.

End Loop.

Lemma attemptsOf_max (spec : ModelSpec) :
  attemptsOf spec = Z.max 1 (retries spec).
Proof.
  unfold attemptsOf. destruct (Z.eqb_spec (retries spec) 0) as [->|]; lia.
Qed.

Lemma attemptsOf_budget (spec : ModelSpec) :
  exists k, Z.to_nat (attemptsOf spec) = S k.
Proof.
  rewrite attemptsOf_max.
  destruct (Z.to_nat (Z.max 1 (retries spec))) as [|k] eqn:E; [lia|eauto].
Qed.

Lemma withRetries_spec T agentId spec (action : Backend World T) isValid
    modeOverride (s : Sys World) :
  exists recs,
    appended s
      (snd (withRetries env agentId spec action isValid modeOverride s)) recs /\
    (List.length recs <= Z.to_nat (attemptsOf spec))%nat /\
    runRecords agentId spec modeOverride (mode (llm s)) 0 recs /\
    world (snd (withRetries env agentId spec action isValid modeOverride s))
    = worldAfter action (List.length recs) (world s) /\
    runOutcome agentId action isValid (Z.to_nat (attemptsOf spec)) JsNull
      (world s) recs
      (fst (withRetries env agentId spec action isValid modeOverride s)).
Proof.
  unfold withRetries. apply withRetries_loop_spec.
Qed.

(** C4. The retrying executor runs the attempt function at most
    [max(1, retries)] times and at least once, the runs being consecutive
    from the world it starts in; every run, accepted or not, appends exactly
    one trace record, numbered by the loop counter, and nothing else touches
    the router. When a run returns a result the validator accepts (the
    default validator accepts everything), that result is returned at once:
    its record is the last one and the only one with [ok = true], and the
    world is left as that run left it. Otherwise all [max(1, retries)] runs
    failed, each with a record with [ok = false], and the error thrown is
    the error of the last run. *)
Theorem withRetries_runs_budget_records_rethrows :
  forall T agentId spec (action : Backend World T) isValid modeOverride
         (s : Sys World),
    let budget := Z.to_nat (Z.max 1 (retries spec)) in
    let out := withRetries env agentId spec action isValid modeOverride s in
    (forall v : T, alwaysValid v = true) /\
    exists recs,
      appended s (snd out) recs /\
      (1 <= List.length recs <= budget)%nat /\
      map tr_retriesUsed recs = indicesFrom 0 (List.length recs) /\
      world (snd out) = worldAfter action (List.length recs) (world s) /\
      (forall j, (j < List.length recs - 1)%nat ->
         attemptError agentId action isValid (worldAfter action j (world s))
         <> None) /\
      match fst out with
      | Returns v =>
          isValid v = true /\
          fst (action (worldAfter action (List.length recs - 1) (world s)))
          = Returns v /\
          map tr_ok recs = repeat false (List.length recs - 1) ++ [true]
      | Throws e =>
          List.length recs = budget /\
          map tr_ok recs = repeat false budget /\
          attemptError agentId action isValid
            (worldAfter action (budget - 1) (world s)) = Some e
      end.
Proof.
  intros T agentId spec action isValid modeOverride s budget out.
  split; [reflexivity|].
  destruct (withRetries_spec agentId spec action isValid modeOverride s)
    as (recs & Happ & Hlen & (Hidx & _) & Hw & Hout).
  fold out in Happ, Hw, Hout.
  rewrite attemptsOf_max in Hlen, Hout. fold budget in Hlen, Hout.
  assert (Hb : exists k, budget = S k).
  { unfold budget. rewrite <- attemptsOf_max. apply attemptsOf_budget. }
  destruct Hb as (b & Hb).
  exists recs. split; [exact Happ|].
  destruct (fst out) as [v|e]; simpl in Hout.
  - destruct Hout as (Hv & k & Hk & Hoks & Hfst & Hprev).
    rewrite Hk in *. replace (S k - 1)%nat with k by lia.
    repeat split; auto; lia.
  - destruct Hout as (Hl & Hoks & Hprev & Hlast).
    rewrite Hb in Hlast. destruct Hlast as (Hlast & _).
    repeat split; auto; try lia.
    + intros j Hj. apply Hprev. lia.
    + rewrite Hb. replace (S b - 1)%nat with b by lia. exact Hlast.
Qed.

(** *** The trace list only grows *)

Lemma appendOnly_ret A (a : A) : appendOnly (ret a : Async World A).
Proof. intros s. exists []. apply appended_refl. Qed.

Lemma appendOnly_throw A e : appendOnly (throw e : Async World A).
Proof. intros s. exists []. apply appended_refl. Qed.

Lemma appendOnly_bind A B (m : Async World A) (k : A -> Async World B) :
  appendOnly m -> (forall a, appendOnly (k a)) -> appendOnly (bind m k).
Proof.
  intros Hm Hk s. unfold bind.
  destruct (Hm s) as (r1 & H1).
  destruct (m s) as [[a|e] s1]; simpl in *.
  - destruct (Hk a s1) as (r2 & H2). exists (r1 ++ r2).
    eapply appended_trans; eauto.
  - exists r1. exact H1.
Qed.

Lemma appendOnly_tryCatch A (m : Async World A) (h : Thrown -> Async World A) :
  appendOnly m -> (forall e, appendOnly (h e)) -> appendOnly (tryCatch m h).
Proof.
  intros Hm Hh s. unfold tryCatch.
  destruct (Hm s) as (r1 & H1).
  destruct (m s) as [[a|e] s1]; simpl in *.
  - exists r1. exact H1.
  - destruct (Hh e s1) as (r2 & H2). exists (r1 ++ r2).
    eapply appended_trans; eauto.
Qed.

Lemma appendOnly_getMode : appendOnly (getMode : Async World Mode).
Proof. intros s. exists []. apply appended_refl. Qed.

Lemma appendOnly_getTraces : appendOnly (getTraces : Async World _).
Proof. intros s. exists []. apply appended_refl. Qed.

Lemma appendOnly_getSpec a : appendOnly (getSpec MATRIX a : Async World _).
Proof. intros s. exists []. apply appended_refl. Qed.

Lemma appendOnly_withRetries T agentId spec (action : Backend World T)
    isValid modeOverride :
  appendOnly (withRetries env agentId spec action isValid modeOverride).
Proof.
  intros s.
  destruct (withRetries_spec agentId spec action isValid modeOverride s)
    as (recs & Happ & _). eauto.
Qed.

Create HintDb grow.
#[local] Hint Resolve appendOnly_ret appendOnly_throw appendOnly_getMode
  appendOnly_getTraces appendOnly_getSpec appendOnly_withRetries : grow.

(** Calls built from binds, handlers and case distinctions over calls that
    only append. *)
Ltac grows :=
  repeat first
    [ solve [auto with grow]
    | apply appendOnly_bind; [|intros ?]
    | apply appendOnly_tryCatch; [|intros ?]
    | match goal with
      | |- appendOnly (match ?x with _ => _ end) => destruct x
      | |- appendOnly (if ?b then _ else _) => destruct b
      end ].

Lemma appendOnly_callJson a c i k :
  appendOnly (callJson env MATRIX a c i k).
Proof. unfold callJson. grows. Qed.

Lemma appendOnly_callText a c i :
  appendOnly (callText env MATRIX a c i).
Proof. unfold callText. grows. Qed.

Lemma appendOnly_callJsonWithMode m a c i k :
  appendOnly (callJsonWithMode env MATRIX m a c i k).
Proof. unfold callJsonWithMode, getSpecForMode. grows. Qed.

Lemma appendOnly_callTextWithMode m a c i :
  appendOnly (callTextWithMode env MATRIX m a c i).
Proof. unfold callTextWithMode, getSpecForMode. grows. Qed.

Lemma appendOnly_callImageGen p b r :
  appendOnly (callImageGen env MATRIX p b r).
Proof. unfold callImageGen, callImageGenWithSpec. grows. Qed.

Lemma appendOnly_callImageGenWithMode m p b r :
  appendOnly (callImageGenWithMode env MATRIX m p b r).
Proof.
  unfold callImageGenWithMode, callImageGenWithSpec, getSpecForMode. grows.
Qed.

#[local] Hint Resolve appendOnly_callJson appendOnly_callText
  appendOnly_callJsonWithMode appendOnly_callTextWithMode
  appendOnly_callImageGen appendOnly_callImageGenWithMode : grow.

Lemma appendOnly_safeRunUnderstanding req :
  appendOnly (safeRunUnderstanding env MATRIX req).
Proof. unfold safeRunUnderstanding, runUnderstanding. grows. Qed.

Lemma appendOnly_safeRunVisualDirector req u :
  appendOnly (safeRunVisualDirector env MATRIX req u).
Proof. unfold safeRunVisualDirector, runVisualDirector. grows. Qed.

Lemma appendOnly_safeRunFastGuardrail i o e :
  appendOnly (safeRunFastGuardrail env MATRIX i o e).
Proof. unfold safeRunFastGuardrail, runFastGuardrail. grows. Qed.

#[local] Hint Resolve appendOnly_safeRunUnderstanding
  appendOnly_safeRunVisualDirector appendOnly_safeRunFastGuardrail : grow.

Lemma appendOnly_enhanceBody i plan o r sc :
  appendOnly (enhanceBody env MATRIX i plan o r sc).
Proof. unfold enhanceBody, generateImage, rescue. grows. Qed.

#[local] Hint Resolve appendOnly_enhanceBody : grow.

Lemma appendOnly_enhanceLoop d o r fuel :
  forall i imgs sc, appendOnly (enhanceLoop env MATRIX d o r fuel i imgs sc).
Proof.
  induction fuel as [|fuel IH]; intros i imgs sc; simpl.
  - grows.
  - destruct (findPlan d i); [grows|apply IH].
Qed.

Lemma appendOnly_empathyStage req :
  appendOnly (empathyStage env MATRIX req).
Proof. unfold empathyStage. grows. Qed.

Lemma appendOnly_copyStage req :
  appendOnly (copyStage env MATRIX req).
Proof.
  unfold copyStage.
  grows; apply (appendOnly_callJsonWithMode fast COPY _ _ CopySchema).
Qed.

#[local] Hint Resolve appendOnly_enhanceLoop appendOnly_empathyStage
  appendOnly_copyStage : grow.

Lemma appendOnly_orchestrate req tid :
  appendOnly (orchestrate env MATRIX req tid).
Proof. unfold orchestrate. grows. Qed.

Lemma keepsPrimary_tryCatch A (m : Async World A) h :
  (forall e, appendOnly (h e)) -> keepsPrimary m (tryCatch m h).
Proof.
  intros Hh s. unfold tryCatch.
  destruct (m s) as [[a|e] s1]; simpl.
  - exists []. now rewrite app_nil_r.
  - destruct (Hh e s1) as (recs & Hr & _). eauto.
Qed.

Lemma orchestrate_llmTrace req tid (s : Sys World) :
  match orchestrate env MATRIX req tid s with
  | (Returns resp, s') => llmTrace (debugInfo resp) = traces (llm s')
  | (Throws _, _) => True
  end.
Proof.
  unfold orchestrate, bind.
  destruct (safeRunUnderstanding env MATRIX req s) as [[u|?] s1]; auto.
  destruct (safeRunVisualDirector env MATRIX req u s1) as [[d|?] s2]; auto.
  destruct (enhanceLoop _ _ _ _ _ _ _ _ _ s2) as [[l|?] s3]; auto.
  destruct (empathyStage env MATRIX req s3) as [[r|?] s4]; auto.
  destruct (copyStage env MATRIX req s4) as [[c|?] s5]; auto.
  reflexivity.
Qed.

(** C9. The trace list only grows. [recordTrace] puts one record behind the
    records the list has; the retrying executor, every call of the router,
    every stage and the whole [try] block of the orchestrator leave the
    trace list they found as a prefix of the one they end with (same
    records, same places), and change nothing else of the router; a stage
    that falls back keeps the records of its failed primary call; and the
    [llmTrace] of the response is the list the router ends with, which
    starts with the list the orchestrator began with. *)
Theorem trace_list_only_grows :
  (forall agentId spec attempt durationMs ok error modeOverride r,
      exists rec,
        traces (recordTrace agentId spec attempt durationMs ok error
                  modeOverride r) = traces r ++ [rec] /\
        tr_ok rec = ok /\ tr_retriesUsed rec = attempt) /\
  (forall T agentId spec (action : Backend World T) isValid modeOverride,
      appendOnly (withRetries env agentId spec action isValid modeOverride)) /\
  (forall a c i k, appendOnly (callJson env MATRIX a c i k)) /\
  (forall a c i, appendOnly (callText env MATRIX a c i)) /\
  (forall m a c i k, appendOnly (callJsonWithMode env MATRIX m a c i k)) /\
  (forall m a c i, appendOnly (callTextWithMode env MATRIX m a c i)) /\
  (forall p b r, appendOnly (callImageGen env MATRIX p b r)) /\
  (forall m p b r, appendOnly (callImageGenWithMode env MATRIX m p b r)) /\
  (forall req, appendOnly (safeRunUnderstanding env MATRIX req)) /\
  (forall req u, appendOnly (safeRunVisualDirector env MATRIX req u)) /\
  (forall i o e, appendOnly (safeRunFastGuardrail env MATRIX i o e)) /\
  (forall d o r n i imgs sc,
      appendOnly (enhanceLoop env MATRIX d o r n i imgs sc)) /\
  (forall req, appendOnly (empathyStage env MATRIX req)) /\
  (forall req, appendOnly (copyStage env MATRIX req)) /\
  (forall req tid, appendOnly (orchestrate env MATRIX req tid)) /\
  (forall req,
      keepsPrimary (runUnderstanding env MATRIX req)
        (safeRunUnderstanding env MATRIX req)) /\
  (forall i o e,
      keepsPrimary (runFastGuardrail env MATRIX i o e)
        (safeRunFastGuardrail env MATRIX i o e)) /\
  (forall plan o r,
      keepsPrimary (callImageGen env MATRIX (nano_prompt_en_v2 plan) o r)
        (generateImage env MATRIX plan o r)) /\
  (forall req,
      keepsPrimary
        (callText env MATRIX EMPATHY [Text (raw_text req)] EMPATHY_SYSTEM)
        (empathyStage env MATRIX req)) /\
  (forall req,
      keepsPrimary
        (callJson env MATRIX COPY [Text (raw_text req)] COPY_SYSTEM
           CopySchema)
        (copyStage env MATRIX req)) /\
  (forall req tid s,
      match orchestrate env MATRIX req tid s with
      | (Returns resp, s') =>
          llmTrace (debugInfo resp) = traces (llm s') /\
          exists recs, llmTrace (debugInfo resp) = traces (llm s) ++ recs
      | (Throws _, _) => True
      end).
Proof.
  repeat match goal with |- _ /\ _ => split end;
    try solve [intros; auto with grow].
  - intros. eexists. simpl. repeat split.
  - intros. apply appendOnly_orchestrate.
  - intros req. apply keepsPrimary_tryCatch. intros e. grows.
  - intros i o e. apply keepsPrimary_tryCatch. intros e'. grows.
  - intros plan o r. apply keepsPrimary_tryCatch. intros e. grows.
  - intros req. apply keepsPrimary_tryCatch. intros e. grows.
  - intros req. apply keepsPrimary_tryCatch. intros e.
    grows; apply (appendOnly_callJsonWithMode fast COPY _ _ CopySchema).
  - intros req tid s.
    pose proof (orchestrate_llmTrace req tid s) as Hl.
    destruct (appendOnly_orchestrate req tid s) as (recs & Hr & _).
    destruct (orchestrate env MATRIX req tid s) as [[resp|e] s']; auto.
    simpl in Hr. split; [exact Hl|]. exists recs. now rewrite Hl.
Qed.

(** *** The guardrail *)

(** C7. The guardrail takes the evaluator the table has for the active
    mode: the fast guardrail when it is configured, else the QA evaluator
    when that one is; when neither is, no call is made and the verdict is an
    automatic pass with [pass = true], score 0 and verdict OK, also through
    the wrapper the orchestrator calls. With the QA evaluator the pass flag
    and the score are copied and the verdict is brought down to the
    guardrail's: NEEDS_RECOMPOSE and NEEDS_CLEANUP become TOO_WEAK_CHANGE,
    while OK, COLOR_CAST, ARTIFACTS and TOO_WEAK_CHANGE stay. In the
    program's table the evaluator is the fast guardrail under [fast] and the
    QA evaluator under [quality]. *)
Theorem guardrail_picks_configured_evaluator :
  (forall index original enhanced (s : Sys World),
     let run := runFastGuardrail env MATRIX index original enhanced s in
     let parts := guardrailParts env original enhanced in
     match MATRIX (mode (llm s)) FAST_GUARDRAIL,
           MATRIX (mode (llm s)) IMAGE_QA with
     | Some _, _ =>
         run = callJson env MATRIX FAST_GUARDRAIL parts GUARDRAIL_SYSTEM
                 GuardrailSchema s
     | None, Some _ =>
         match callJson env MATRIX IMAGE_QA parts GUARDRAIL_SYSTEM QASchema s
         with
         | (Returns qa, s') =>
             exists g, run = (Returns g, s') /\
               pass g = qa_pass qa /\ score g = qa_score qa /\
               verdict g = mapVerdict (qa_verdict qa)
         | (Throws e, s') => run = (Throws e, s')
         end
     | None, None =>
         run = (Returns (autoPass index), s) /\
         safeRunFastGuardrail env MATRIX index original enhanced s
         = (Returns (autoPass index), s)
     end) /\
  (forall index,
     pass (autoPass index) = true /\ score (autoPass index) = 0 /\
     verdict (autoPass index) = "OK"%string) /\
  mapVerdict "NEEDS_RECOMPOSE" = "TOO_WEAK_CHANGE"%string /\
  mapVerdict "NEEDS_CLEANUP" = "TOO_WEAK_CHANGE"%string /\
  mapVerdict "OK" = "OK"%string /\
  mapVerdict "COLOR_CAST" = "COLOR_CAST"%string /\
  mapVerdict "ARTIFACTS" = "ARTIFACTS"%string /\
  mapVerdict "TOO_WEAK_CHANGE" = "TOO_WEAK_CHANGE"%string /\
  preferredAgentOf MODEL_MATRIX fast = FAST_GUARDRAIL /\
  preferredAgentOf MODEL_MATRIX quality = IMAGE_QA.
Proof.
  split; [|repeat split].
  intros index original enhanced s run parts.
  unfold run, parts, guardrailParts, safeRunFastGuardrail, runFastGuardrail,
    preferredAgentOf, getSpecForMode, tryCatch, bind, getMode.
  simpl.
  destruct (MATRIX (mode (llm s)) FAST_GUARDRAIL) as [sp|] eqn:Hfg; simpl.
  - rewrite ?Hfg. simpl. reflexivity.
  - destruct (MATRIX (mode (llm s)) IMAGE_QA) as [sq|] eqn:Hqa; simpl.
    + rewrite ?Hqa. simpl.
      destruct (callJson env MATRIX IMAGE_QA _ GUARDRAIL_SYSTEM QASchema s)
        as [[qa|e] s']; simpl.
      * eexists. split; [reflexivity|]. simpl. auto.
      * reflexivity.
    + rewrite ?Hqa. simpl. split; reflexivity.
Qed.

(** *** Stages never throw, and keep the mode *)

Lemma total_ret A (a : A) : total (ret a : Async World A).
Proof. intros s. eexists. reflexivity. Qed.

Lemma total_getMode : total (getMode : Async World Mode).
Proof. intros s. eexists. reflexivity. Qed.

Lemma total_getTraces : total (getTraces : Async World _).
Proof. intros s. eexists. reflexivity. Qed.

Lemma total_bind A B (m : Async World A) (k : A -> Async World B) :
  total m -> (forall a, total (k a)) -> total (bind m k).
Proof.
  intros Hm Hk s. unfold bind. destruct (Hm s) as (a & Ha).
  destruct (m s) as [c s1]. simpl in Ha. subst c. apply Hk.
Qed.

Lemma total_tryCatch A (m : Async World A) h :
  (forall e, total (h e)) -> total (tryCatch m h).
Proof.
  intros Hh s. unfold tryCatch. destruct (m s) as [[a|e] s1].
  - eexists. reflexivity.
  - apply Hh.
Qed.

Create HintDb tot.
#[local] Hint Resolve total_ret total_getMode total_getTraces : tot.

Ltac totals :=
  repeat first
    [ solve [auto with tot]
    | apply total_tryCatch; intros ?
    | apply total_bind; [|intros ?]
    | match goal with
      | |- total (match ?x with _ => _ end) => destruct x
      | |- total (if ?b then _ else _) => destruct b
      end ].

Lemma total_safeRunUnderstanding req :
  total (safeRunUnderstanding env MATRIX req).
Proof. unfold safeRunUnderstanding. totals. Qed.

Lemma total_safeRunVisualDirector req u :
  total (safeRunVisualDirector env MATRIX req u).
Proof. unfold safeRunVisualDirector. totals. Qed.

Lemma total_safeRunFastGuardrail i o e :
  total (safeRunFastGuardrail env MATRIX i o e).
Proof. unfold safeRunFastGuardrail. totals. Qed.

Lemma total_generateImage plan o r :
  total (generateImage env MATRIX plan o r).
Proof. unfold generateImage. totals. Qed.

Lemma total_rescue plan o r img :
  total (rescue env MATRIX plan o r img).
Proof. unfold rescue. totals. Qed.

#[local] Hint Resolve total_safeRunUnderstanding total_safeRunVisualDirector
  total_safeRunFastGuardrail total_generateImage total_rescue : tot.

Lemma total_enhanceBody i plan o r sc :
  total (enhanceBody env MATRIX i plan o r sc).
Proof. unfold enhanceBody. totals. Qed.

#[local] Hint Resolve total_enhanceBody : tot.

Lemma total_enhanceLoop d o r fuel :
  forall i imgs sc, total (enhanceLoop env MATRIX d o r fuel i imgs sc).
Proof.
  induction fuel as [|fuel IH]; intros i imgs sc; simpl.
  - totals.
  - destruct (findPlan d i); [totals|apply IH].
Qed.

Lemma total_empathyStage req : total (empathyStage env MATRIX req).
Proof. unfold empathyStage. totals. Qed.

Lemma total_copyStage req : total (copyStage env MATRIX req).
Proof. unfold copyStage. totals. Qed.

#[local] Hint Resolve total_enhanceLoop total_empathyStage total_copyStage
  : tot.

Lemma total_orchestrate req tid : total (orchestrate env MATRIX req tid).
Proof. unfold orchestrate. totals. Qed.

Lemma appendOnly_mode A (m : Async World A) (s : Sys World) :
  appendOnly m -> mode (llm (snd (m s))) = mode (llm s).
Proof. intros H. destruct (H s) as (recs & _ & Hm & _). exact Hm. Qed.

(** *** The cascade of every stage *)

(** The handler of a stage: it reads the mode, makes the call under [fast]
    when the mode is [quality], and ends without a further call. *)
Ltac cascade primary Hgrows :=
  let s := fresh "s" in
  let Hm := fresh "Hm" in
  intros s;
  unfold tryCatch, bind, getMode;
  pose proof (appendOnly_mode s Hgrows) as Hm;
  destruct (primary s) as [[?|?] ?]; simpl in Hm |- *;
  [ reflexivity
  | rewrite Hm; destruct (mode (llm s)); simpl;
    [ reflexivity
    | match goal with
      | |- _ = snd ?x => destruct x as [[?|?] ?]
      end; reflexivity ] ].

Lemma appendOnly_runUnderstanding req :
  appendOnly (runUnderstanding env MATRIX req).
Proof. unfold runUnderstanding. grows. Qed.

Lemma appendOnly_runVisualDirector req u :
  appendOnly (runVisualDirector env MATRIX req u).
Proof. unfold runVisualDirector. grows. Qed.

Lemma appendOnly_runFastGuardrail i o e :
  appendOnly (runFastGuardrail env MATRIX i o e).
Proof. unfold runFastGuardrail. grows. Qed.

Lemma cascade_understanding req :
  cascadeCalls (safeRunUnderstanding env MATRIX req)
    (runUnderstanding env MATRIX req)
    (callJsonWithMode env MATRIX fast UNDERSTANDING [Text (raw_text req)]
       UNDERSTANDING_SYSTEM UnderstandingSchema)
    (buildFallbackUnderstanding req).
Proof.
  unfold safeRunUnderstanding.
  cascade (runUnderstanding env MATRIX req)
    (appendOnly_runUnderstanding req).
Qed.

Lemma cascade_director req u :
  cascadeCalls (safeRunVisualDirector env MATRIX req u)
    (match images req with
     | [] => ret {| d_images := [] |}
     | _ :: _ => runVisualDirector env MATRIX req u
     end)
    (match images req with
     | [] => ret {| d_images := [] |}
     | _ :: _ =>
         callJsonWithMode env MATRIX fast VISUAL_DIRECTOR
           (map (fileToGenerativePart env) (images req) ++ [Text DIRECTOR_TEXT])
           DIRECTOR_SYSTEM DirectorSchema
     end)
    (rewritePlans env req u (buildFallbackDirector env req u)).
Proof.
  unfold safeRunVisualDirector.
  destruct (images req) as [|img rest] eqn:Himgs.
  - intros s. reflexivity.
  - cascade (runVisualDirector env MATRIX req u)
      (appendOnly_runVisualDirector req u).
Qed.

Lemma cascade_image plan o r :
  cascadeCalls (generateImage env MATRIX plan o r)
    (callImageGen env MATRIX (nano_prompt_en_v2 plan) o r)
    (callImageGenWithMode env MATRIX fast (nano_prompt_en_v2 plan) o r)
    None.
Proof.
  unfold generateImage.
  cascade (callImageGen env MATRIX (nano_prompt_en_v2 plan) o r)
    (appendOnly_callImageGen (nano_prompt_en_v2 plan) o r).
Qed.

Lemma cascade_guardrail i o e :
  cascadeCalls (safeRunFastGuardrail env MATRIX i o e)
    (runFastGuardrail env MATRIX i o e)
    (callJsonWithMode env MATRIX fast FAST_GUARDRAIL (guardrailParts env o e)
       GUARDRAIL_SYSTEM GuardrailSchema)
    (autoPass i).
Proof.
  unfold safeRunFastGuardrail, guardrailParts.
  cascade (runFastGuardrail env MATRIX i o e)
    (appendOnly_runFastGuardrail i o e).
Qed.

Lemma cascade_empathy req :
  cascadeCalls (empathyStage env MATRIX req)
    (callText env MATRIX EMPATHY [Text (raw_text req)] EMPATHY_SYSTEM)
    (callTextWithMode env MATRIX fast EMPATHY [Text (raw_text req)]
       EMPATHY_SYSTEM)
    (fallbackReply req).
Proof.
  unfold empathyStage.
  cascade (callText env MATRIX EMPATHY [Text (raw_text req)] EMPATHY_SYSTEM)
    (appendOnly_callText EMPATHY [Text (raw_text req)] EMPATHY_SYSTEM).
Qed.

Lemma cascade_copy req :
  cascadeCalls (copyStage env MATRIX req)
    (callJson env MATRIX COPY [Text (raw_text req)] COPY_SYSTEM CopySchema)
    (callJsonWithMode env MATRIX fast COPY [Text (raw_text req)] COPY_SYSTEM
       CopySchema)
    (fallbackCopy req).
Proof.
  unfold copyStage.
  cascade (callJson env MATRIX COPY [Text (raw_text req)] COPY_SYSTEM
             CopySchema)
    (appendOnly_callJson COPY [Text (raw_text req)] COPY_SYSTEM CopySchema).
Qed.

(** *** The enhancement loop *)

Lemma array_set_length A (l : list A) i v :
  List.length (array_set l i v) = List.length l.
Proof.
  revert i. induction l as [|x l IH]; intros [|i]; simpl; auto.
Qed.

Lemma array_set_other A (l : list A) i j v :
  i <> j -> nth_error (array_set l i v) j = nth_error l j.
Proof.
  revert i j.
  induction l as [|x l IH]; intros [|i] [|j] H; simpl; auto;
    try contradiction.
Qed.

Lemma array_set_same A (l : list A) i v :
  (i < List.length l)%nat -> nth_error (array_set l i v) i = Some v.
Proof.
  revert i. induction l as [|x l IH]; intros [|i] H; simpl in *;
    try lia; auto.
  apply IH. lia.
Qed.

Section EnhanceLoop.

Variable d : DirectorOut.
Variables o r : list string.

Let loop := enhanceLoop env MATRIX d o r.

Lemma enhanceLoop_skip fuel i imgs sc (s : Sys World) :
  findPlan d i = None ->
  loop (S fuel) i imgs sc s = loop fuel (S i) imgs sc s.
Proof.
  intros H. unfold loop. simpl. now rewrite H.
Qed.

(** The entries of indices without a plan, the entries before the index the
    loop is at, and the length of the array stay as they are. *)
Lemma enhanceLoop_untouched fuel :
  forall i imgs sc (s : Sys World),
    match loop fuel i imgs sc s with
    | (Returns (imgs', _), _) =>
        List.length imgs' = List.length imgs /\
        forall j, findPlan d j = None \/ (j < i)%nat ->
                  nth_error imgs' j = nth_error imgs j
    | (Throws _, _) => False
    end.
Proof.
  induction fuel as [|fuel IH]; intros i imgs sc s.
  - simpl. auto.
  - unfold loop. simpl.
    destruct (findPlan d i) as [plan|] eqn:Hp.
    + unfold bind.
      destruct (total_enhanceBody i plan (nth i o ""%string) r sc s)
        as (res & Hres).
      destruct (enhanceBody env MATRIX i plan (nth i o ""%string) r sc s)
        as [c s1]. simpl in Hres. subst c.
      specialize (IH (S i)
        (array_set imgs i (imageOr (fst res) (nth i o ""%string)))
        (snd res) s1).
      fold loop.
      destruct (loop fuel (S i) _ (snd res) s1) as [[[imgs' sc']|e] s']; auto.
      destruct IH as (Hlen & Hother).
      rewrite array_set_length in Hlen. split; [exact Hlen|].
      intros j Hj. rewrite Hother.
      * apply array_set_other. destruct Hj as [Hj|Hj]; [congruence|lia].
      * destruct Hj; [left; assumption|right; lia].
    + specialize (IH (S i) imgs sc s). fold loop.
      destruct (loop fuel (S i) imgs sc s) as [[[imgs' sc']|e] s']; auto.
      destruct IH as (Hlen & Hother). split; [exact Hlen|].
      intros j Hj. apply Hother. destruct Hj; [left; assumption|right; lia].
Qed.

(** Running [a + b] indices is running [a] of them and then [b]. *)
Lemma enhanceLoop_split a b :
  forall i imgs sc (s : Sys World),
    loop (a + b) i imgs sc s =
    match loop a i imgs sc s with
    | (Returns p, s1) => loop b (i + a) (fst p) (snd p) s1
    | (Throws e, s1) => (Throws e, s1)
    end.
Proof.
  induction a as [|a IH]; intros i imgs sc s.
  - simpl. now rewrite Nat.add_0_r.
  - unfold loop. simpl.
    destruct (findPlan d i) as [plan|].
    + unfold bind.
      destruct (enhanceBody env MATRIX i plan (nth i o ""%string) r sc s)
        as [[res|e] s1]; [|reflexivity].
      fold loop. rewrite IH. now rewrite Nat.add_succ_r.
    + fold loop. rewrite IH. now rewrite Nat.add_succ_r.
Qed.

End EnhanceLoop.

(** The response of an invocation, stage by stage. *)
Lemma orchestrate_run req tid (s : Sys World) :
  exists u tone imgs sc reply cp s',
    loopUpTo env MATRIX req (List.length (images req)) s
    = (Returns (imgs, sc), textEntry env MATRIX req s) /\
    fst (empathyStage env MATRIX req (textEntry env MATRIX req s))
    = Returns reply /\
    fst (copyStage env MATRIX req
           (snd (empathyStage env MATRIX req (textEntry env MATRIX req s))))
    = Returns cp /\
    orchestrate env MATRIX req tid s =
    (Returns
       {| r_traceId := tid;
          understanding := u;
          visual_director_output := fst (loopEntry env MATRIX req s);
          empathic_reply := reply;
          variants :=
            [ {| v_id := (tid ++ "_v1")%string;
                 style_name := "Amplify Master";
                 usage_hint := "Social ready";
                 creative_rationale :=
                   "Structural relighting and background cleanup";
                 tone_direction := tone;
                 visual_direction := "V3 Structural Overhaul";
                 copy := cp;
                 enhanced_images_base64 := imgs |} ];
          debugInfo :=
            {| nano_banana_prompts :=
                 map nano_prompt_en_v2
                   (d_images (fst (loopEntry env MATRIX req s)));
               llmTrace := traces (llm s');
               perImageScores := sc |} |}, s').
Proof.
  unfold textEntry, loopUpTo, loopEntry, orchestrate, bind, referencesOf.
  destruct (total_safeRunUnderstanding req s) as (u & Hu).
  destruct (safeRunUnderstanding env MATRIX req s) as [cu s1].
  simpl in Hu. subst cu.
  destruct (total_safeRunVisualDirector req u s1) as (dd & Hd).
  destruct (safeRunVisualDirector env MATRIX req u s1) as [cd s2].
  simpl in Hd. subst cd. simpl.
  destruct (total_enhanceLoop dd (images req)
              match reference_images req with Some l => l | None => [] end
              (List.length (images req)) 0%nat
              (repeat ""%string (List.length (images req))) [] s2)
    as (lp & Hl).
  destruct (enhanceLoop env MATRIX dd (images req) _ _ _ _ _ s2) as [cl s3].
  simpl in Hl. subst cl. simpl.
  destruct (total_empathyStage req s3) as (reply & Hr).
  destruct (empathyStage env MATRIX req s3) as [cr s4].
  simpl in Hr. subst cr. simpl.
  destruct (total_copyStage req s4) as (cp & Hc).
  destruct (copyStage env MATRIX req s4) as [cc s5].
  simpl in Hc. subst cc. simpl.
  destruct lp as [imgs sc].
  exists {| b_story_core := story_core u; scene := "V3"; theme := mood u |},
    (orElseOpt (suggested_tone u) "Cinematic"), imgs, sc, reply, cp, s5.
  repeat split; reflexivity.
Qed.


Lemma enhanceLoop_entry_at d o r n j m (s : Sys World) :
  (j < n)%nat ->
  match enhanceLoop env MATRIX d o r j 0 (repeat ""%string n) [] s,
        enhanceLoop env MATRIX d o r (j + S m) 0 (repeat ""%string n) [] s
  with
  | (Returns (_, scj), sj), (Returns (imgs, _), _) =>
      List.length imgs = n /\
      nth_error imgs j =
      match findPlan d j with
      | None => Some ""%string
      | Some plan =>
          match enhanceBody env MATRIX j plan (nth j o ""%string) r scj sj
          with
          | (Returns res, _) => Some (imageOr (fst res) (nth j o ""%string))
          | (Throws _, _) => None
          end
      end
  | _, _ => False
  end.
Proof.
  intros Hj.
  rewrite enhanceLoop_split.
  pose proof (enhanceLoop_untouched d o r j 0 (repeat ""%string n) [] s)
    as Hpre.
  destruct (enhanceLoop env MATRIX d o r j 0 (repeat ""%string n) [] s)
    as [[[imgsj scj]|e] sj]; [|contradiction].
  destruct Hpre as (Hlen & Hpre). rewrite repeat_length in Hlen.
  simpl fst. simpl snd. simpl.
  destruct (findPlan d j) as [plan|] eqn:Hp.
  - unfold bind.
    destruct (total_enhanceBody j plan (nth j o ""%string) r scj sj)
      as (res & Hres).
    destruct (enhanceBody env MATRIX j plan (nth j o ""%string) r scj sj)
      as [c s1]. simpl in Hres. subst c.
    pose proof (enhanceLoop_untouched d o r m (S j)
                  (array_set imgsj j (imageOr (fst res) (nth j o ""%string)))
                  (snd res) s1) as Hpost.
    destruct (enhanceLoop env MATRIX d o r m (S j) _ (snd res) s1)
      as [[[imgs sc]|e] s']; [|contradiction].
    destruct Hpost as (Hlen' & Hother).
    rewrite array_set_length in Hlen'. split; [congruence|].
    rewrite Hother by (right; lia).
    apply array_set_same. lia.
  - pose proof (enhanceLoop_untouched d o r m (S j) imgsj scj sj) as Hpost.
    destruct (enhanceLoop env MATRIX d o r m (S j) imgsj scj sj)
      as [[[imgs sc]|e] s']; [|contradiction].
    destruct Hpost as (Hlen' & Hother). split; [congruence|].
    rewrite Hother by (right; lia).
    rewrite Hpre by (left; exact Hp).
    now apply nth_error_repeat.
Qed.

(** Every entry of the array is what the iteration of its own index made
    of it. *)
Lemma orchestrate_entries req tid (s : Sys World) :
  match orchestrate env MATRIX req tid s with
  | (Returns resp, _) =>
      exists v, variants resp = [v] /\
        List.length (enhanced_images_base64 v) = List.length (images req) /\
        forall j, (j < List.length (images req))%nat ->
          nth_error (enhanced_images_base64 v) j
          = Some (bodyEntry env MATRIX req s j)
  | (Throws _, _) => False
  end.
Proof.
  destruct (orchestrate_run req tid s)
    as (u & tone & imgs & sc & reply & cp & s' & Hloop & _ & _ & Hrun).
  rewrite Hrun. eexists. split; [reflexivity|]. simpl.
  pose proof (enhanceLoop_untouched (fst (loopEntry env MATRIX req s))
                (images req) (referencesOf req) (List.length (images req))
                0 (repeat ""%string (List.length (images req))) []
                (snd (loopEntry env MATRIX req s))) as Hun.
  unfold loopUpTo in Hloop. rewrite Hloop in Hun.
  destruct Hun as (Hlen & _). rewrite repeat_length in Hlen.
  split; [exact Hlen|].
  intros j Hj.
  pose proof (enhanceLoop_entry_at (fst (loopEntry env MATRIX req s))
                (images req) (referencesOf req)
                (List.length (images req) - j - 1)
                (snd (loopEntry env MATRIX req s)) Hj) as He.
  replace (j + S (List.length (images req) - j - 1))%nat
    with (List.length (images req)) in He by lia.
  rewrite Hloop in He.
  unfold bodyEntry, loopUpTo.
  destruct (enhanceLoop env MATRIX (fst (loopEntry env MATRIX req s))
              (images req) (referencesOf req) j 0
              (repeat ""%string (List.length (images req))) []
              (snd (loopEntry env MATRIX req s)))
    as [[[imgsj scj]|e] sj]; [|contradiction].
  destruct He as (_ & He). rewrite He.
  destruct (findPlan (fst (loopEntry env MATRIX req s)) j) as [plan|];
    [|reflexivity].
  destruct (total_enhanceBody j plan (nth j (images req) ""%string)
              (referencesOf req) scj sj) as (res & Hres).
  destruct (enhanceBody env MATRIX j plan (nth j (images req) ""%string)
              (referencesOf req) scj sj) as [c s1].
  simpl in Hres. subst c. reflexivity.
Qed.

Lemma mode_loopEntry req (s : Sys World) :
  mode (llm (snd (loopEntry env MATRIX req s))) = mode (llm s).
Proof.
  unfold loopEntry.
  pose proof (appendOnly_mode s (appendOnly_safeRunUnderstanding req)) as H1.
  destruct (safeRunUnderstanding env MATRIX req s) as [[u|e] s1];
    simpl in *; [|exact H1].
  pose proof (appendOnly_mode s1 (appendOnly_safeRunVisualDirector req u))
    as H2.
  destruct (safeRunVisualDirector env MATRIX req u s1) as [[dd|e] s2];
    simpl in *; congruence.
Qed.

Lemma mode_loopUpTo req k (s : Sys World) :
  mode (llm (snd (loopUpTo env MATRIX req k s))) = mode (llm s).
Proof.
  unfold loopUpTo.
  rewrite (appendOnly_mode _ (appendOnly_enhanceLoop _ _ _ _ _ _ _)).
  apply mode_loopEntry.
Qed.

(** When the image call throws under the active mode and, in [quality]
    mode, under [fast] as well, the loop body ends without an image. *)
Lemma enhanceBody_no_image i plan original refs sc (s : Sys World) :
  (exists e,
     fst (callImageGen env MATRIX (nano_prompt_en_v2 plan) original refs s)
     = Throws e) ->
  (mode (llm s) = quality ->
   exists e,
     fst (callImageGenWithMode env MATRIX fast (nano_prompt_en_v2 plan)
            original refs
            (snd (callImageGen env MATRIX (nano_prompt_en_v2 plan) original
                    refs s)))
     = Throws e) ->
  fst (enhanceBody env MATRIX i plan original refs sc s)
  = Returns (None, sc).
Proof.
  intros (e & H1) H2.
  unfold enhanceBody, generateImage, tryCatch, bind, getMode.
  pose proof (appendOnly_mode s
                (appendOnly_callImageGen (nano_prompt_en_v2 plan) original
                   refs)) as Hm.
  destruct (callImageGen env MATRIX (nano_prompt_en_v2 plan) original refs s)
    as [c s1]. simpl in *. subst c. rewrite Hm.
  destruct (mode (llm s)); simpl; [reflexivity|].
  destruct (H2 eq_refl) as (e2 & H3).
  destruct (callImageGenWithMode env MATRIX fast (nano_prompt_en_v2 plan)
              original refs s1) as [c s2].
  simpl in H3. subst c. reflexivity.
Qed.

(** *** The rescue *)

Lemma rescueModeOf_quality m : rescueModeOf m = quality.
Proof. destruct m; reflexivity. Qed.

(** The records of the one call the rescue makes: those of one run of the
    retrying executor, one record per attempt. *)
Lemma rescue_call_records prompt original refs (s : Sys World) :
  exists recs,
    appended s
      (snd (callImageGenWithMode env MATRIX quality prompt original refs s))
      recs /\
    Forall (fun r => tr_agent r = IMAGE_GEN /\ tr_mode r = quality) recs /\
    map tr_retriesUsed recs = indicesFrom 0 (List.length recs) /\
    (List.length recs <=
     match MATRIX quality IMAGE_GEN with
     | Some spec => Z.to_nat (Z.max 1 (retries spec))
     | None => 0
     end)%nat /\
    (isSome (MATRIX quality IMAGE_GEN) = true -> (1 <= List.length recs)%nat).
Proof.
  unfold callImageGenWithMode, getSpecForMode, callImageGenWithSpec.
  destruct (MATRIX quality IMAGE_GEN) as [spec|].
  - destruct (withRetries_spec IMAGE_GEN spec
                (imageAction env spec prompt original refs) imageValid
                (Some quality) s)
      as (recs & Happ & Hlen & (Hidx & Hall) & _ & Hout).
    exists recs. rewrite attemptsOf_max in Hlen. repeat split; auto.
    + apply Happ.
    + apply Happ.
    + apply Happ.
    + eapply Forall_impl; [|exact Hall]. simpl. intros a (Ha & Hm & _).
      split; assumption.
    + intros _.
      destruct (fst (withRetries env IMAGE_GEN spec
                       (imageAction env spec prompt original refs) imageValid
                       (Some quality) s)); simpl in Hout.
      * destruct Hout as (_ & k & Hk & _). lia.
      * destruct Hout as (Hk & _).
        destruct (attemptsOf_budget spec) as (b & Hb). lia.
  - exists []. simpl. repeat split; auto; try discriminate.
    now rewrite app_nil_r.
Qed.

(** C3. When the guardrail has looked at a generated image and its verdict
    does not pass, the loop body goes on with one call of the image
    generator and ends with it: the call is made under [quality] whatever
    the active mode is, with the plan's prompt followed by the strict
    directive. The call is not one attempt: it is run by the retrying
    executor, and the records it appends are those of one run of it, one
    per attempt, at least one and at most [max(1, retries)] of them with
    the spec of the table, all of the image generator and none of a
    guardrail. An image it returns replaces the generated one, and when it
    throws or returns none the generated one stays; exactly one score, the
    guardrail's, is recorded for the image. *)
Theorem rescue_once_no_second_guardrail :
  forall i plan original refs sc (s : Sys World) img guard,
    let s1 := snd (generateImage env MATRIX plan original refs s) in
    let s2 :=
      snd (safeRunFastGuardrail env MATRIX (Z.of_nat i) original img s1) in
    let rescuePrompt := (nano_prompt_en_v2 plan ++ STRICT_DIRECTIVE)%string in
    let rescueCall :=
      callImageGenWithMode env MATRIX quality rescuePrompt original refs s2 in
    fst (generateImage env MATRIX plan original refs s)
    = Returns (Some img) ->
    truthy img = true ->
    fst (safeRunFastGuardrail env MATRIX (Z.of_nat i) original img s1)
    = Returns guard ->
    pass guard = false ->
    enhanceBody env MATRIX i plan original refs sc s =
    (Returns
       (match fst rescueCall with
        | Returns (Some rescueImg) =>
            if truthy rescueImg then Some rescueImg else Some img
        | _ => Some img
        end,
        sc ++ [ {| s_index := i; s_score := score guard;
                   s_verdict := verdict guard |} ]),
     snd rescueCall) /\
    rescueModeOf fast = quality /\
    rescueModeOf quality = quality /\
    exists recs,
      appended s2 (snd rescueCall) recs /\
      Forall (fun r => tr_agent r = IMAGE_GEN /\ tr_mode r = quality) recs /\
      map tr_retriesUsed recs = indicesFrom 0 (List.length recs) /\
      (List.length recs <=
       match MATRIX quality IMAGE_GEN with
       | Some spec => Z.to_nat (Z.max 1 (retries spec))
       | None => 0
       end)%nat /\
      (isSome (MATRIX quality IMAGE_GEN) = true ->
       (1 <= List.length recs)%nat).
Proof.
  intros i plan original refs sc s img guard s1 s2 rescuePrompt rescueCall
    Hgen Himg Hguard Hpass.
  split; [|split; [reflexivity|split; [reflexivity|]]].
  - unfold rescueCall, rescuePrompt, s2, s1 in *.
    clear rescueCall rescuePrompt s2 s1.
    unfold enhanceBody, bind.
    destruct (generateImage env MATRIX plan original refs s) as [c t1].
    simpl in Hgen, Hguard |- *. subst c. rewrite Himg.
    destruct (safeRunFastGuardrail env MATRIX (Z.of_nat i) original img t1)
      as [c t2].
    simpl in Hguard |- *. subst c. rewrite Hpass. simpl.
    unfold rescue, bind, getMode, tryCatch.
    rewrite rescueModeOf_quality.
    destruct (callImageGenWithMode env MATRIX quality
                (nano_prompt_en_v2 plan ++ STRICT_DIRECTIVE)%string original
                refs t2) as [[[rescueImg|]|e] t3]; simpl; try reflexivity.
  - apply rescue_call_records.
Qed.

(** *** The text stages *)

(** Once the empathy call under the active mode has thrown, the reply is
    the template, whatever the call under [fast] does. *)
Lemma empathyStage_after_failure req (s : Sys World) e :
  fst (callText env MATRIX EMPATHY [Text (raw_text req)] EMPATHY_SYSTEM s)
  = Throws e ->
  fst (empathyStage env MATRIX req s) = Returns (fallbackReply req).
Proof.
  intros H. unfold empathyStage, tryCatch, bind, getMode.
  destruct (callText env MATRIX EMPATHY [Text (raw_text req)] EMPATHY_SYSTEM s)
    as [c s1]. simpl in H. subst c.
  destruct (mode (llm s1)); simpl; [reflexivity|].
  destruct (callTextWithMode env MATRIX fast EMPATHY [Text (raw_text req)]
              EMPATHY_SYSTEM s1) as [[t|e2] s2]; reflexivity.
Qed.


(** *** Trace ids and the refine handler *)

Lemma runOrchestratorSys_total req (w : World) :
  exists resp, fst (runOrchestratorSys env MATRIX req w) = Returns resp.
Proof.
  unfold runOrchestratorSys, tryCatch.
  destruct (total_orchestrate req (traceIdOf env req w)
              (mkSys (newLLMRouter req (traceIdOf env req w)) w))
    as (resp & H).
  destruct (orchestrate env MATRIX req (traceIdOf env req w) _) as [c s'].
  simpl in H. subst c. simpl. eauto.
Qed.


End Router.

(** ** The stages when an answer cannot be read *)

Section NullAnswers.

Import Nullable.

Context {World : Type}.
Variable env : Env World.
Variable JSON_parse : forall k : Schema, string -> option (Json (Parsed k)).
Variable MATRIX : Mode -> AgentId -> option ModelSpec.

Create HintDb answers.
#[local] Hint Resolve appendOnly_ret appendOnly_throw appendOnly_getMode
  appendOnly_getTraces appendOnly_getSpec appendOnly_withRetries
  appendOnly_callText appendOnly_callTextWithMode appendOnly_callImageGen
  appendOnly_callImageGenWithMode appendOnly_empathyStage : answers.

Ltac grown :=
  repeat first
    [ solve [auto with answers]
    | apply appendOnly_bind; [|intros ?]
    | apply appendOnly_tryCatch; [|intros ?]
    | match goal with
      | |- appendOnly (match ?x with _ => _ end) => destruct x
      | |- appendOnly (if ?b then _ else _) => destruct b
      end ].

Lemma appendOnly_read T (answer : Json T) :
  appendOnly (read answer : Async World T).
Proof. destruct answer; simpl; grown. Qed.

Lemma appendOnly_null_callJson a c i k :
  appendOnly (callJson env JSON_parse MATRIX a c i k).
Proof. unfold callJson. grown. Qed.

Lemma appendOnly_null_callJsonWithMode m a c i k :
  appendOnly (callJsonWithMode env JSON_parse MATRIX m a c i k).
Proof. unfold callJsonWithMode, getSpecForMode. grown. Qed.

#[local] Hint Resolve appendOnly_read appendOnly_null_callJson
  appendOnly_null_callJsonWithMode : answers.

Lemma appendOnly_null_rewritePlans req u d :
  appendOnly (rewritePlans env req u d : Async World _).
Proof. unfold rewritePlans. grown. Qed.

Lemma appendOnly_null_buildFallbackDirector req u :
  appendOnly (buildFallbackDirector env req u : Async World _).
Proof. unfold buildFallbackDirector. grown. Qed.

#[local] Hint Resolve appendOnly_null_rewritePlans
  appendOnly_null_buildFallbackDirector : answers.

Lemma appendOnly_null_runUnderstanding req :
  appendOnly (runUnderstanding env JSON_parse MATRIX req).
Proof. unfold runUnderstanding. grown. Qed.

Lemma appendOnly_null_runVisualDirector req u :
  appendOnly (runVisualDirector env JSON_parse MATRIX req u).
Proof. unfold runVisualDirector. grown. Qed.

Lemma appendOnly_null_runFastGuardrail i o e :
  appendOnly (runFastGuardrail env JSON_parse MATRIX i o e).
Proof. unfold runFastGuardrail. grown. Qed.

Lemma appendOnly_null_safeRunUnderstanding req :
  appendOnly (safeRunUnderstanding env JSON_parse MATRIX req).
Proof. unfold safeRunUnderstanding, runUnderstanding. grown. Qed.

Lemma appendOnly_null_safeRunVisualDirector req u :
  appendOnly (safeRunVisualDirector env JSON_parse MATRIX req u).
Proof. unfold safeRunVisualDirector, runVisualDirector. grown. Qed.

Lemma appendOnly_null_safeRunFastGuardrail i o e :
  appendOnly (safeRunFastGuardrail env JSON_parse MATRIX i o e).
Proof. unfold safeRunFastGuardrail, runFastGuardrail. grown. Qed.

(** Reading an answer makes no call: it ends in the state it starts in. *)
Lemma read_state T (answer : Json T) (s : Sys World) :
  snd (read answer s) = s.
Proof. destruct answer; reflexivity. Qed.

Lemma rewritePlans_state req u d (s : Sys World) :
  snd (rewritePlans env req u d s) = s.
Proof.
  unfold rewritePlans. destruct (d_images d); [reflexivity|].
  destruct u; reflexivity.
Qed.

Lemma buildFallbackDirector_state req u (s : Sys World) :
  snd (buildFallbackDirector env req u s) = s.
Proof.
  unfold buildFallbackDirector. destruct (images req); [reflexivity|].
  destruct u; reflexivity.
Qed.

Lemma fallbackPlans_state req u (s : Sys World) :
  snd (fallbackPlans env req u s) = s.
Proof.
  unfold fallbackPlans, bind.
  pose proof (buildFallbackDirector_state req u s) as H.
  destruct (buildFallbackDirector env req u s) as [[d|e] s1]; simpl in H;
    subst s1; [|reflexivity].
  apply rewritePlans_state.
Qed.

(** The handler of a stage: it reads the mode, makes the call under [fast]
    when the mode is [quality], and ends without a further call. *)
Ltac cascades primary Hgrows :=
  let s := fresh "s" in
  let Hm := fresh "Hm" in
  intros s;
  unfold tryCatch, bind, getMode;
  pose proof (appendOnly_mode s Hgrows) as Hm;
  destruct (primary s) as [[?|?] ?]; simpl in Hm |- *;
  [ reflexivity
  | rewrite Hm; destruct (mode (llm s)); simpl;
    [ split; reflexivity
    | match goal with
      | |- _ = snd ?x => destruct x as [[?|?] ?]
      end; reflexivity ] ].

Lemma cascade_null_understanding req :
  cascade (safeRunUnderstanding env JSON_parse MATRIX req)
    (runUnderstanding env JSON_parse MATRIX req)
    (callJsonWithMode env JSON_parse MATRIX fast UNDERSTANDING
       [Text (raw_text req)] UNDERSTANDING_SYSTEM UnderstandingSchema)
    (ret (JsonValue (buildFallbackUnderstanding req))).
Proof.
  unfold safeRunUnderstanding.
  cascades (runUnderstanding env JSON_parse MATRIX req)
    (appendOnly_null_runUnderstanding req).
Qed.

Lemma cascade_null_director req u :
  images req <> [] ->
  cascade (safeRunVisualDirector env JSON_parse MATRIX req u)
    (runVisualDirector env JSON_parse MATRIX req u)
    (callJsonWithMode env JSON_parse MATRIX fast VISUAL_DIRECTOR
       (map (fileToGenerativePart env) (images req) ++ [Text DIRECTOR_TEXT])
       DIRECTOR_SYSTEM DirectorSchema)
    (fallbackPlans env req u).
Proof.
  intros Himgs s. unfold safeRunVisualDirector.
  destruct (images req) as [|img rest] eqn:Hi; [congruence|].
  unfold tryCatch, bind, getMode.
  pose proof (appendOnly_mode s (appendOnly_null_runVisualDirector req u))
    as Hm.
  destruct (runVisualDirector env JSON_parse MATRIX req u s) as [[d|e] s1];
    simpl in Hm |- *; [reflexivity|].
  rewrite Hm. destruct (mode (llm s)); simpl.
  - split; [reflexivity|]. apply fallbackPlans_state.
  - destruct (callJsonWithMode env JSON_parse MATRIX fast VISUAL_DIRECTOR
                _ DIRECTOR_SYSTEM DirectorSchema s1) as [[answer|e2] s2];
      simpl.
    + destruct answer as [|d]; simpl.
      * apply (fallbackPlans_state req u s2).
      * pose proof (rewritePlans_state req u d s2) as Hr.
        destruct (rewritePlans env req u d s2) as [[d'|e3] s3];
          simpl in Hr |- *; subst s3; [reflexivity|].
        apply (fallbackPlans_state req u s2).
    + apply (fallbackPlans_state req u s2).
Qed.

Lemma cascade_null_image plan o r :
  cascade (generateImage env MATRIX plan o r)
    (callImageGen env MATRIX (nano_prompt_en_v2 plan) o r)
    (callImageGenWithMode env MATRIX fast (nano_prompt_en_v2 plan) o r)
    (ret None).
Proof.
  unfold generateImage.
  cascades (callImageGen env MATRIX (nano_prompt_en_v2 plan) o r)
    (appendOnly_callImageGen env MATRIX (nano_prompt_en_v2 plan) o r).
Qed.

Lemma cascade_null_guardrail i o e :
  cascade (safeRunFastGuardrail env JSON_parse MATRIX i o e)
    (runFastGuardrail env JSON_parse MATRIX i o e)
    (callJsonWithMode env JSON_parse MATRIX fast FAST_GUARDRAIL
       (guardrailParts env o e) GUARDRAIL_SYSTEM GuardrailSchema)
    (ret (JsonValue (autoPass i))).
Proof.
  unfold safeRunFastGuardrail, guardrailParts.
  cascades (runFastGuardrail env JSON_parse MATRIX i o e)
    (appendOnly_null_runFastGuardrail i o e).
Qed.

Lemma cascade_null_empathy req :
  cascade (empathyStage env MATRIX req)
    (callText env MATRIX EMPATHY [Text (raw_text req)] EMPATHY_SYSTEM)
    (callTextWithMode env MATRIX fast EMPATHY [Text (raw_text req)]
       EMPATHY_SYSTEM)
    (ret (fallbackReply req)).
Proof.
  unfold empathyStage.
  cascades (callText env MATRIX EMPATHY [Text (raw_text req)] EMPATHY_SYSTEM)
    (appendOnly_callText env MATRIX EMPATHY [Text (raw_text req)]
       EMPATHY_SYSTEM).
Qed.

Lemma cascade_null_copy req :
  cascade (copyStage env JSON_parse MATRIX req)
    (callJson env JSON_parse MATRIX COPY [Text (raw_text req)] COPY_SYSTEM
       CopySchema)
    (callJsonWithMode env JSON_parse MATRIX fast COPY [Text (raw_text req)]
       COPY_SYSTEM CopySchema)
    (ret (JsonValue (fallbackCopy req))).
Proof.
  unfold copyStage.
  cascades (callJson env JSON_parse MATRIX COPY [Text (raw_text req)]
              COPY_SYSTEM CopySchema)
    (appendOnly_null_callJson COPY [Text (raw_text req)] COPY_SYSTEM
       CopySchema).
Qed.


(** What the attempt of the direction stage is: the call of the router,
    then the reads of its answer and, with a plan in it, of the
    understanding. *)
Lemma runVisualDirector_attempt req u (s : Sys World) :
  match callJson env JSON_parse MATRIX VISUAL_DIRECTOR
          (map (fileToGenerativePart env) (images req) ++ [Text DIRECTOR_TEXT])
          DIRECTOR_SYSTEM DirectorSchema s with
  | (Throws e, s1) =>
      runVisualDirector env JSON_parse MATRIX req u s = (Throws e, s1)
  | (Returns JsonNull, s1) =>
      runVisualDirector env JSON_parse MATRIX req u s = (Throws nullRead, s1)
  | (Returns (JsonValue d), s1) =>
      match d_images d, u with
      | _ :: _, JsonNull =>
          runVisualDirector env JSON_parse MATRIX req u s
          = (Throws nullRead, s1)
      | _, _ =>
          exists d',
            runVisualDirector env JSON_parse MATRIX req u s = (Returns d', s1)
      end
  end.
Proof.
  unfold runVisualDirector, bind.
  destruct (callJson env JSON_parse MATRIX VISUAL_DIRECTOR _ DIRECTOR_SYSTEM
              DirectorSchema s) as [[[|d]|e] s1]; simpl; try reflexivity.
  unfold rewritePlans.
  destruct (d_images d) as [|p rest]; destruct u as [|v]; simpl;
    first [reflexivity | eexists; reflexivity].
Qed.

(** What the attempt of the guardrail stage is. *)
Lemma runFastGuardrail_attempt i o e (s : Sys World) :
  match MATRIX (mode (llm s)) FAST_GUARDRAIL,
        MATRIX (mode (llm s)) IMAGE_QA with
  | Some _, _ =>
      runFastGuardrail env JSON_parse MATRIX i o e s
      = callJson env JSON_parse MATRIX FAST_GUARDRAIL (guardrailParts env o e)
          GUARDRAIL_SYSTEM GuardrailSchema s
  | None, Some _ =>
      match callJson env JSON_parse MATRIX IMAGE_QA (guardrailParts env o e)
              GUARDRAIL_SYSTEM QASchema s with
      | (Throws err, s1) =>
          runFastGuardrail env JSON_parse MATRIX i o e s = (Throws err, s1)
      | (Returns JsonNull, s1) =>
          runFastGuardrail env JSON_parse MATRIX i o e s
          = (Throws nullRead, s1)
      | (Returns (JsonValue qa), s1) =>
          exists g,
            runFastGuardrail env JSON_parse MATRIX i o e s
            = (Returns (JsonValue g), s1) /\
            pass g = qa_pass qa /\
            verdict g = mapVerdict (qa_verdict qa)
      end
  | None, None =>
      runFastGuardrail env JSON_parse MATRIX i o e s
      = (Returns (JsonValue (autoPass i)), s)
  end.
Proof.
  unfold runFastGuardrail, bind, getMode, preferredAgentOf, getSpecForMode,
    guardrailParts.
  destruct (MATRIX (mode (llm s)) FAST_GUARDRAIL) as [g|] eqn:Hg; simpl.
  - rewrite Hg. reflexivity.
  - destruct (MATRIX (mode (llm s)) IMAGE_QA) as [q|] eqn:Hq; simpl;
      [|reflexivity].
    destruct (callJson env JSON_parse MATRIX IMAGE_QA _ GUARDRAIL_SYSTEM
                QASchema s) as [[[|qa]|err] s1]; simpl; try reflexivity.
    eexists. split; [reflexivity|]. split; reflexivity.
Qed.

(** C5. In every stage the call under [fast] that follows a failure is made
    only when the active mode is [quality] and the attempt of the stage
    under the active mode has thrown, and then once; when the attempt
    returns no further call is made, and when it throws under [fast] no
    further call is made and the stage ends as its default does: the bundle
    built from the request, the plans built from the template, no image,
    the automatic pass, the templated reply, the draft caption. A request
    without images skips direction. For understanding, image generation,
    empathic reply and caption the attempt is the call of the router alone,
    and a call of the router throws only with its retries used up (the
    program's table has a spec for every agent a stage calls). For
    direction, and for the guardrail with the QA evaluator, the attempt is
    the call followed by reads of its answer: an answer [null], which the
    router has recorded as a success whatever retries are left, makes the
    attempt throw, and so does, for direction, a [null] understanding read
    for the plans. *)
Theorem cross_mode_call_follows_thrown_attempt_under_quality :
  (forall req,
     cascade (safeRunUnderstanding env JSON_parse MATRIX req)
       (callJson env JSON_parse MATRIX UNDERSTANDING
          (map (fileToGenerativePart env) (images req)
           ++ [Text (raw_text req)])
          UNDERSTANDING_SYSTEM UnderstandingSchema)
       (callJsonWithMode env JSON_parse MATRIX fast UNDERSTANDING
          [Text (raw_text req)] UNDERSTANDING_SYSTEM UnderstandingSchema)
       (ret (JsonValue (buildFallbackUnderstanding req)))) /\
  (forall req u,
     match images req with
     | [] =>
         forall s : Sys World,
           safeRunVisualDirector env JSON_parse MATRIX req u s
           = (Returns {| d_images := [] |}, s)
     | _ :: _ =>
         cascade (safeRunVisualDirector env JSON_parse MATRIX req u)
           (runVisualDirector env JSON_parse MATRIX req u)
           (callJsonWithMode env JSON_parse MATRIX fast VISUAL_DIRECTOR
              (map (fileToGenerativePart env) (images req)
               ++ [Text DIRECTOR_TEXT])
              DIRECTOR_SYSTEM DirectorSchema)
           (fallbackPlans env req u)
     end) /\
  (forall plan o r,
     cascade (generateImage env MATRIX plan o r)
       (callImageGen env MATRIX (nano_prompt_en_v2 plan) o r)
       (callImageGenWithMode env MATRIX fast (nano_prompt_en_v2 plan) o r)
       (ret None)) /\
  (forall i o e,
     cascade (safeRunFastGuardrail env JSON_parse MATRIX i o e)
       (runFastGuardrail env JSON_parse MATRIX i o e)
       (callJsonWithMode env JSON_parse MATRIX fast FAST_GUARDRAIL
          (guardrailParts env o e) GUARDRAIL_SYSTEM GuardrailSchema)
       (ret (JsonValue (autoPass i)))) /\
  (forall req,
     cascade (empathyStage env MATRIX req)
       (callText env MATRIX EMPATHY [Text (raw_text req)] EMPATHY_SYSTEM)
       (callTextWithMode env MATRIX fast EMPATHY [Text (raw_text req)]
          EMPATHY_SYSTEM)
       (ret (fallbackReply req))) /\
  (forall req,
     cascade (copyStage env JSON_parse MATRIX req)
       (callJson env JSON_parse MATRIX COPY [Text (raw_text req)] COPY_SYSTEM
          CopySchema)
       (callJsonWithMode env JSON_parse MATRIX fast COPY [Text (raw_text req)]
          COPY_SYSTEM CopySchema)
       (ret (JsonValue (fallbackCopy req)))) /\
  (forall T agentId spec (action : Backend World T) isValid modeOverride s,
     match fst (withRetries env agentId spec action isValid modeOverride s)
     with
     | Returns _ => True
     | Throws _ =>
         forall j, (j < Z.to_nat (Z.max 1 (retries spec)))%nat ->
           attemptError agentId action isValid
             (worldAfter action j (world s)) <> None
     end) /\
  (forall req u (s : Sys World),
     match callJson env JSON_parse MATRIX VISUAL_DIRECTOR
             (map (fileToGenerativePart env) (images req)
              ++ [Text DIRECTOR_TEXT])
             DIRECTOR_SYSTEM DirectorSchema s with
     | (Throws e, s1) =>
         runVisualDirector env JSON_parse MATRIX req u s = (Throws e, s1)
     | (Returns JsonNull, s1) =>
         runVisualDirector env JSON_parse MATRIX req u s
         = (Throws nullRead, s1)
     | (Returns (JsonValue d), s1) =>
         match d_images d, u with
         | _ :: _, JsonNull =>
             runVisualDirector env JSON_parse MATRIX req u s
             = (Throws nullRead, s1)
         | _, _ =>
             exists d',
               runVisualDirector env JSON_parse MATRIX req u s
               = (Returns d', s1)
         end
     end) /\
  (forall i o e (s : Sys World),
     match MATRIX (mode (llm s)) FAST_GUARDRAIL,
           MATRIX (mode (llm s)) IMAGE_QA with
     | Some _, _ =>
         runFastGuardrail env JSON_parse MATRIX i o e s
         = callJson env JSON_parse MATRIX FAST_GUARDRAIL
             (guardrailParts env o e) GUARDRAIL_SYSTEM GuardrailSchema s
     | None, Some _ =>
         match callJson env JSON_parse MATRIX IMAGE_QA
                 (guardrailParts env o e) GUARDRAIL_SYSTEM QASchema s with
         | (Throws err, s1) =>
             runFastGuardrail env JSON_parse MATRIX i o e s = (Throws err, s1)
         | (Returns JsonNull, s1) =>
             runFastGuardrail env JSON_parse MATRIX i o e s
             = (Throws nullRead, s1)
         | (Returns (JsonValue qa), s1) =>
             exists g,
               runFastGuardrail env JSON_parse MATRIX i o e s
               = (Returns (JsonValue g), s1) /\
               pass g = qa_pass qa /\
               verdict g = mapVerdict (qa_verdict qa)
         end
     | None, None =>
         runFastGuardrail env JSON_parse MATRIX i o e s
         = (Returns (JsonValue (autoPass i)), s)
     end) /\
  (forall m a,
     match a with
     | FAST_GUARDRAIL | IMAGE_QA => True
     | _ => isSome (MODEL_MATRIX m a) = true
     end) /\
  (forall m,
     isSome (MODEL_MATRIX m (preferredAgentOf MODEL_MATRIX m)) = true).
Proof.
  repeat match goal with |- _ /\ _ => split end;
    try solve [intros [] []; first [reflexivity | exact I]
              | intros []; reflexivity].
  - apply cascade_null_understanding.
  - intros req u. destruct (images req) as [|img rest] eqn:Hi.
    + intros s. unfold safeRunVisualDirector. rewrite Hi. reflexivity.
    + rewrite <- Hi. apply cascade_null_director. congruence.
  - apply cascade_null_image.
  - apply cascade_null_guardrail.
  - apply cascade_null_empathy.
  - apply cascade_null_copy.
  - intros T agentId spec action isValid modeOverride s.
    destruct (withRetries_spec env agentId spec action isValid modeOverride s)
      as (recs & _ & _ & _ & _ & Hout).
    destruct (fst (withRetries env agentId spec action isValid modeOverride s));
      [exact I|].
    simpl in Hout. rewrite attemptsOf_max in Hout. apply Hout.
  - apply runVisualDirector_attempt.
  - apply runFastGuardrail_attempt.
Qed.


(** *** The enhancement loop *)

(** When the image call throws under the active mode and, in [quality]
    mode, under [fast] as well, no image is generated. *)
Lemma generateImage_no_image plan original refs (s : Sys World) :
  (exists e,
     fst (callImageGen env MATRIX (nano_prompt_en_v2 plan) original refs s)
     = Throws e) ->
  (mode (llm s) = quality ->
   exists e,
     fst (callImageGenWithMode env MATRIX fast (nano_prompt_en_v2 plan)
            original refs
            (snd (callImageGen env MATRIX (nano_prompt_en_v2 plan) original
                    refs s)))
     = Throws e) ->
  fst (generateImage env MATRIX plan original refs s) = Returns None.
Proof.
  intros (e & H1) H2.
  unfold generateImage, tryCatch, bind, getMode.
  pose proof (appendOnly_mode s
                (appendOnly_callImageGen env MATRIX (nano_prompt_en_v2 plan)
                   original refs)) as Hm.
  destruct (callImageGen env MATRIX (nano_prompt_en_v2 plan) original refs s)
    as [c s1]. simpl in *. subst c. rewrite Hm.
  destruct (mode (llm s)); simpl; [reflexivity|].
  destruct (H2 eq_refl) as (e2 & H3).
  destruct (callImageGenWithMode env MATRIX fast (nano_prompt_en_v2 plan)
              original refs s1) as [c s2].
  simpl in H3. subst c. reflexivity.
Qed.

(** Without a generated image the body of the loop ends where the
    generation ends. *)
Lemma enhanceBody_without_image i plan original refs sc (s : Sys World) :
  fst (generateImage env MATRIX plan original refs s) = Returns None ->
  enhanceBody env JSON_parse MATRIX i plan original refs sc s
  = (Returns (None, sc), snd (generateImage env MATRIX plan original refs s)).
Proof.
  intros H. unfold enhanceBody, bind.
  destruct (generateImage env MATRIX plan original refs s) as [c s1].
  simpl in H. subst c. reflexivity.
Qed.

(** The generation of an image never throws. *)
Lemma generateImage_returns plan original refs (s : Sys World) :
  exists img, fst (generateImage env MATRIX plan original refs s) = Returns img.
Proof.
  unfold generateImage, tryCatch, bind, getMode.
  destruct (callImageGen env MATRIX (nano_prompt_en_v2 plan) original refs s)
    as [[img|e] s1]; simpl; [eauto|].
  destruct (mode (llm s1)); simpl; [eauto|].
  destruct (callImageGenWithMode env MATRIX fast (nano_prompt_en_v2 plan)
              original refs s1) as [[img|e2] s2]; simpl; eauto.
Qed.

(** The guardrail stage never throws: what it returns may be [null]. *)
Lemma safeRunFastGuardrail_returns i o e (s : Sys World) :
  exists answer,
    fst (safeRunFastGuardrail env JSON_parse MATRIX i o e s) = Returns answer.
Proof.
  unfold safeRunFastGuardrail, tryCatch, bind, getMode.
  destruct (runFastGuardrail env JSON_parse MATRIX i o e s)
    as [[g|err] s1]; simpl; [eauto|].
  destruct (mode (llm s1)); simpl; [eauto|].
  destruct (callJsonWithMode env JSON_parse MATRIX fast FAST_GUARDRAIL _
              GUARDRAIL_SYSTEM GuardrailSchema s1) as [[g|e2] s2];
    simpl; eauto.
Qed.

(** The rescue never throws. *)
Lemma rescue_returns plan o r img (s : Sys World) :
  exists img', fst (rescue env MATRIX plan o r img s) = Returns img'.
Proof.
  unfold rescue, bind, getMode, tryCatch. simpl.
  destruct (callImageGenWithMode env MATRIX (rescueModeOf (mode (llm s)))
              _ o r s) as [[x|e] s1]; simpl; eauto.
Qed.

(** The body of the loop throws exactly when an image was generated and
    the answer the guardrail stage returns for it is [null]: the error is
    that of the read. *)
Lemma enhanceBody_throws i plan original refs sc (s : Sys World) :
  let generated := generateImage env MATRIX plan original refs s in
  (forall e,
     fst (enhanceBody env JSON_parse MATRIX i plan original refs sc s)
     = Throws e -> e = nullRead) /\
  ((exists e,
      fst (enhanceBody env JSON_parse MATRIX i plan original refs sc s)
      = Throws e) <->
   (exists img,
      fst generated = Returns (Some img) /\ truthy img = true /\
      fst (safeRunFastGuardrail env JSON_parse MATRIX (Z.of_nat i) original
             img (snd generated)) = Returns JsonNull)).
Proof.
  intros generated. unfold generated, enhanceBody, bind.
  destruct (generateImage_returns plan original refs s) as (res & Hgen).
  destruct (generateImage env MATRIX plan original refs s) as [c s1].
  simpl in Hgen. subst c. simpl.
  destruct res as [img|].
  2:{ split; [discriminate|]. split.
      - intros (e & He). discriminate.
      - intros (img & Himg & _). discriminate. }
  destruct (truthy img) eqn:Ht.
  2:{ split; [discriminate|]. split.
      - intros (e & He). discriminate.
      - intros (img' & Himg & Ht' & _). congruence. }
  destruct (safeRunFastGuardrail_returns (Z.of_nat i) original img s1)
    as (answer & Hg).
  destruct (safeRunFastGuardrail env JSON_parse MATRIX (Z.of_nat i) original
              img s1) as [c s2] eqn:Hsafe.
  simpl in Hg. subst c. simpl.
  destruct answer as [|guard]; simpl.
  - split; [intros e He; congruence|]. split.
    + intros _. exists img. rewrite Hsafe. auto.
    + intros _. eauto.
  - assert (Hno : ~ (exists img',
                       Returns (Some img) = Returns (Some img') /\
                       truthy img' = true /\
                       fst (safeRunFastGuardrail env JSON_parse MATRIX
                              (Z.of_nat i) original img' s1)
                       = Returns JsonNull)).
    { intros (img' & Himg & _ & Hnull). injection Himg as <-.
      rewrite Hsafe in Hnull. discriminate. }
    destruct (pass guard); simpl.
    + split; [discriminate|]. split; [intros (e & He); discriminate|].
      intros H. destruct (Hno H).
    + destruct (rescue_returns plan original refs (Some img) s2) as (x & Hx).
      destruct (rescue env MATRIX plan original refs (Some img) s2) as [c s3].
      simpl in Hx. subst c. simpl.
      split; [discriminate|]. split; [intros (e & He); discriminate|].
      intros H. destruct (Hno H).
Qed.

Section NullLoop.

Variable d : DirectorOut.
Variables o r : list string.

Let loop := enhanceLoop env JSON_parse MATRIX d o r.

(** When the loop returns, the entries of indices without a plan, the
    entries before the index the loop is at, and the length of the array
    are as they were. *)
Lemma enhanceLoop_null_untouched fuel :
  forall i imgs sc (s : Sys World),
    match loop fuel i imgs sc s with
    | (Returns (imgs', _), _) =>
        List.length imgs' = List.length imgs /\
        forall j, findPlan d j = None \/ (j < i)%nat ->
                  nth_error imgs' j = nth_error imgs j
    | (Throws _, _) => True
    end.
Proof.
  induction fuel as [|fuel IH]; intros i imgs sc s.
  - simpl. auto.
  - unfold loop. simpl.
    destruct (findPlan d i) as [plan|] eqn:Hp.
    + unfold bind.
      destruct (enhanceBody env JSON_parse MATRIX i plan (nth i o ""%string)
                  r sc s) as [[res|e] s1]; [|exact I].
      specialize (IH (S i)
        (array_set imgs i (imageOr (fst res) (nth i o ""%string)))
        (snd res) s1).
      fold loop.
      destruct (loop fuel (S i) _ (snd res) s1) as [[[imgs' sc']|e] s']; auto.
      destruct IH as (Hlen & Hother).
      rewrite array_set_length in Hlen. split; [exact Hlen|].
      intros j Hj. rewrite Hother.
      * apply array_set_other. destruct Hj as [Hj|Hj]; [congruence|lia].
      * destruct Hj; [left; assumption|right; lia].
    + specialize (IH (S i) imgs sc s). fold loop.
      destruct (loop fuel (S i) imgs sc s) as [[[imgs' sc']|e] s']; auto.
      destruct IH as (Hlen & Hother). split; [exact Hlen|].
      intros j Hj. apply Hother. destruct Hj; [left; assumption|right; lia].
Qed.

(** Running [a + b] indices is running [a] of them and then [b]. *)
Lemma enhanceLoop_null_split a b :
  forall i imgs sc (s : Sys World),
    loop (a + b) i imgs sc s =
    match loop a i imgs sc s with
    | (Returns p, s1) => loop b (i + a) (fst p) (snd p) s1
    | (Throws e, s1) => (Throws e, s1)
    end.
Proof.
  induction a as [|a IH]; intros i imgs sc s.
  - simpl. now rewrite Nat.add_0_r.
  - unfold loop. simpl.
    destruct (findPlan d i) as [plan|].
    + unfold bind.
      destruct (enhanceBody env JSON_parse MATRIX i plan (nth i o ""%string)
                  r sc s) as [[res|e] s1]; [|reflexivity].
      fold loop. rewrite IH. now rewrite Nat.add_succ_r.
    + fold loop. rewrite IH. now rewrite Nat.add_succ_r.
Qed.

(** An iteration that generates no image stores the source image and hands
    on to the next index. *)
Lemma enhanceLoop_null_no_image fuel i plan imgs sc (s : Sys World) :
  findPlan d i = Some plan ->
  fst (generateImage env MATRIX plan (nth i o ""%string) r s) = Returns None ->
  loop (S fuel) i imgs sc s
  = loop fuel (S i) (array_set imgs i (nth i o ""%string)) sc
      (snd (generateImage env MATRIX plan (nth i o ""%string) r s)).
Proof.
  intros Hp Hgen. unfold loop. simpl. rewrite Hp. unfold bind.
  rewrite (enhanceBody_without_image i plan (nth i o ""%string) r sc s Hgen).
  reflexivity.
Qed.

End NullLoop.


End NullAnswers.

(** ** The two embeddings *)

Section Embeddings.

Context {World : Type}.
Variable env : Env World.
Variable MATRIX : Mode -> AgentId -> option ModelSpec.

Let parse := neverNull (JSON_parse env).

Lemma agrees_ret A B (f : A -> B) (a : A) :
  agrees f (ret a : Async World A) (ret (f a)).
Proof. intros s. reflexivity. Qed.

Lemma agrees_throw A B (f : A -> B) e :
  agrees f (throw e : Async World A) (throw e).
Proof. intros s. reflexivity. Qed.

Lemma agrees_bind A A' B B' (f : A -> A') (g : B -> B')
    (m : Async World A) m' (k : A -> Async World B) k' :
  agrees f m m' -> (forall a, agrees g (k a) (k' (f a))) ->
  agrees g (bind m k) (bind m' k').
Proof.
  intros Hm Hk s. unfold bind. rewrite (Hm s).
  destruct (m s) as [[a|e] s1]; simpl; [apply Hk|reflexivity].
Qed.

Lemma agrees_bind_same A B B' (g : B -> B') (m : Async World A)
    (k : A -> Async World B) k' :
  (forall a, agrees g (k a) (k' a)) -> agrees g (bind m k) (bind m k').
Proof.
  intros Hk s. unfold bind.
  destruct (m s) as [[a|e] s1]; simpl; [apply Hk|reflexivity].
Qed.

Lemma agrees_tryCatch A A' (f : A -> A') (m : Async World A) m' h h' :
  agrees f m m' -> (forall e, agrees f (h e) (h' e)) ->
  agrees f (tryCatch m h) (tryCatch m' h').
Proof.
  intros Hm Hh s. unfold tryCatch. rewrite (Hm s).
  destruct (m s) as [[a|e] s1]; simpl; [reflexivity|apply Hh].
Qed.

Lemma agrees_id A (m : Async World A) : agrees (fun a => a) m m.
Proof. intros s. destruct (m s) as [[a|e] s1]; reflexivity. Qed.

Lemma agrees_withRetries_loop T T' (f : T -> T') agentId spec
    (action : Backend World T) (action' : Backend World T') modeOverride :
  (forall w, action' w = (mapCompletion f (fst (action w)), snd (action w))) ->
  forall fuel attempt lastError,
    agrees f
      (withRetries_loop env agentId spec action alwaysValid modeOverride fuel
         attempt lastError)
      (withRetries_loop env agentId spec action' alwaysValid modeOverride
         fuel attempt lastError).
Proof.
  intros Hact. induction fuel as [|fuel IH]; intros attempt lastError s.
  - reflexivity.
  - simpl. rewrite (Hact (world s)).
    destruct (action (world s)) as [[v|e] w1]; simpl; [reflexivity|].
    apply IH.
Qed.

Lemma jsonAction_neverNull spec a c i k (w : World) :
  Nullable.jsonAction env parse spec a c i k w
  = (mapCompletion Nullable.JsonValue (fst (jsonAction env spec a c i k w)),
     snd (jsonAction env spec a c i k w)).
Proof.
  unfold Nullable.jsonAction, jsonAction, callBackend, parse, neverNull.
  destruct (generateContent env _ w) as [[res|e] w1]; simpl; [|reflexivity].
  destruct (negb (truthy (extractTextFromResponse res))); [reflexivity|].
  destruct (JSON_parse env k (extractTextFromResponse res)); reflexivity.
Qed.

Lemma agrees_callJson a c i k :
  agrees Nullable.JsonValue (callJson env MATRIX a c i k)
    (Nullable.callJson env parse MATRIX a c i k).
Proof.
  unfold callJson, Nullable.callJson.
  apply agrees_bind_same. intros [spec|]; [|apply agrees_throw].
  unfold withRetries. apply agrees_withRetries_loop.
  apply jsonAction_neverNull.
Qed.

Lemma agrees_callJsonWithMode m a c i k :
  agrees Nullable.JsonValue (callJsonWithMode env MATRIX m a c i k)
    (Nullable.callJsonWithMode env parse MATRIX m a c i k).
Proof.
  unfold callJsonWithMode, Nullable.callJsonWithMode.
  destruct (getSpecForMode MATRIX m a) as [spec|]; [|apply agrees_throw].
  unfold withRetries. apply agrees_withRetries_loop.
  apply jsonAction_neverNull.
Qed.


Lemma agrees_safeRunUnderstanding req :
  agrees Nullable.JsonValue (safeRunUnderstanding env MATRIX req)
    (Nullable.safeRunUnderstanding env parse MATRIX req).
Proof.
  unfold safeRunUnderstanding, Nullable.safeRunUnderstanding,
    runUnderstanding, Nullable.runUnderstanding.
  apply agrees_tryCatch;
    [apply (agrees_callJson _ _ _ UnderstandingSchema)|]. intros e.
  apply agrees_bind_same. intros m.
  apply (agrees_bind (f := option_map Nullable.JsonValue)).
  - destruct m; [apply (agrees_ret (option_map Nullable.JsonValue) None)|].
    apply agrees_tryCatch;
      [|intros e2; apply (agrees_ret (option_map Nullable.JsonValue) None)].
    eapply agrees_bind;
      [apply (agrees_callJsonWithMode _ _ _ _ UnderstandingSchema)|].
    intros u. apply (agrees_ret (option_map Nullable.JsonValue) (Some u)).
  - intros [u|]; apply agrees_ret.
Qed.

Lemma rewritePlans_neverNull req u d (s : Sys World) :
  Nullable.rewritePlans env req (Nullable.JsonValue u) d s
  = (Returns (rewritePlans env req u d), s).
Proof.
  unfold Nullable.rewritePlans, rewritePlans.
  destruct d as [[|p rest]]; reflexivity.
Qed.

Lemma fallbackPlans_neverNull req u (s : Sys World) :
  Nullable.fallbackPlans env req (Nullable.JsonValue u) s
  = (Returns (rewritePlans env req u (buildFallbackDirector env req u)), s).
Proof.
  unfold Nullable.fallbackPlans, Nullable.buildFallbackDirector, bind.
  unfold buildFallbackDirector at 1.
  destruct (images req) as [|img rest] eqn:Hi; simpl.
  - rewrite rewritePlans_neverNull. unfold buildFallbackDirector.
    rewrite Hi. reflexivity.
  - rewrite rewritePlans_neverNull. unfold buildFallbackDirector.
    rewrite Hi. reflexivity.
Qed.

Lemma agrees_runVisualDirector req u :
  agrees (fun d => d) (runVisualDirector env MATRIX req u)
    (Nullable.runVisualDirector env parse MATRIX req (Nullable.JsonValue u)).
Proof.
  unfold runVisualDirector, Nullable.runVisualDirector.
  eapply agrees_bind; [apply (agrees_callJson _ _ _ DirectorSchema)|].
  intros d s. simpl. unfold bind. simpl.
  rewrite rewritePlans_neverNull. reflexivity.
Qed.

Lemma agrees_safeRunVisualDirector req u :
  agrees (fun d => d) (safeRunVisualDirector env MATRIX req u)
    (Nullable.safeRunVisualDirector env parse MATRIX req
       (Nullable.JsonValue u)).
Proof.
  unfold safeRunVisualDirector, Nullable.safeRunVisualDirector.
  destruct (images req) as [|img rest] eqn:Hi; [apply agrees_ret|].
  rewrite <- Hi.
  apply agrees_tryCatch; [apply agrees_runVisualDirector|]. intros e.
  apply agrees_bind_same. intros m.
  apply (agrees_bind (f := fun o : option DirectorOut => o)).
  - destruct m; [apply agrees_id|].
    apply agrees_tryCatch; [|intros e2; apply agrees_id].
    eapply agrees_bind;
      [apply (agrees_callJsonWithMode _ _ _ _ DirectorSchema)|].
    intros d s. simpl. unfold bind. simpl.
    rewrite rewritePlans_neverNull. reflexivity.
  - intros [d|]; [apply agrees_id|].
    intros s. rewrite fallbackPlans_neverNull. reflexivity.
Qed.

Lemma agrees_runFastGuardrail i o e :
  agrees Nullable.JsonValue (runFastGuardrail env MATRIX i o e)
    (Nullable.runFastGuardrail env parse MATRIX i o e).
Proof.
  unfold runFastGuardrail, Nullable.runFastGuardrail.
  apply agrees_bind_same. intros m.
  destruct (negb (isSome (getSpecForMode MATRIX m (preferredAgentOf MATRIX m))));
    [apply agrees_ret|].
  destruct (preferredAgentOf MATRIX m);
    try apply (agrees_callJson _ _ _ GuardrailSchema).
  eapply agrees_bind; [apply (agrees_callJson _ _ _ QASchema)|].
  intros qa s. reflexivity.
Qed.

Lemma agrees_safeRunFastGuardrail i o e :
  agrees Nullable.JsonValue (safeRunFastGuardrail env MATRIX i o e)
    (Nullable.safeRunFastGuardrail env parse MATRIX i o e).
Proof.
  unfold safeRunFastGuardrail, Nullable.safeRunFastGuardrail.
  apply agrees_tryCatch; [apply agrees_runFastGuardrail|]. intros err.
  apply agrees_bind_same. intros m.
  apply (agrees_bind (f := option_map Nullable.JsonValue)).
  - destruct m; [apply (agrees_ret (option_map Nullable.JsonValue) None)|].
    apply agrees_tryCatch;
      [|intros e2; apply (agrees_ret (option_map Nullable.JsonValue) None)].
    eapply agrees_bind;
      [apply (agrees_callJsonWithMode _ _ _ _ GuardrailSchema)|].
    intros g. apply (agrees_ret (option_map Nullable.JsonValue) (Some g)).
  - intros [g|]; apply agrees_ret.
Qed.

Lemma agrees_enhanceBody i plan o r sc :
  agrees (fun p => p) (enhanceBody env MATRIX i plan o r sc)
    (Nullable.enhanceBody env parse MATRIX i plan o r sc).
Proof.
  unfold enhanceBody, Nullable.enhanceBody.
  apply agrees_bind_same. intros [img|]; [|apply agrees_id].
  destruct (truthy img); [|apply agrees_id].
  eapply agrees_bind; [apply agrees_safeRunFastGuardrail|].
  intros guard s. simpl. unfold bind at 1. simpl.
  destruct (negb (pass guard)); [|reflexivity].
  apply agrees_id.
Qed.

Lemma agrees_enhanceLoop d o r fuel :
  forall i imgs sc,
    agrees (fun p => p) (enhanceLoop env MATRIX d o r fuel i imgs sc)
      (Nullable.enhanceLoop env parse MATRIX d o r fuel i imgs sc).
Proof.
  induction fuel as [|fuel IH]; intros i imgs sc; simpl.
  - apply agrees_id.
  - destruct (findPlan d i) as [plan|]; [|apply IH].
    eapply agrees_bind; [apply agrees_enhanceBody|].
    intros res. apply IH.
Qed.

Lemma agrees_copyStage req :
  agrees Nullable.JsonValue (copyStage env MATRIX req)
    (Nullable.copyStage env parse MATRIX req).
Proof.
  unfold copyStage, Nullable.copyStage.
  apply agrees_tryCatch; [apply (agrees_callJson _ _ _ CopySchema)|].
  intros e.
  apply agrees_bind_same. intros m.
  apply (agrees_bind (f := @Nullable.JsonValue GeneratedCopy)).
  - destruct m; [apply agrees_ret|].
    apply agrees_tryCatch; [|intros e2; apply agrees_ret].
    apply (agrees_callJsonWithMode _ _ _ _ CopySchema).
  - intros cp. apply agrees_ret.
Qed.

Lemma agrees_orchestrate req tid :
  agrees nullableResponse (orchestrate env MATRIX req tid)
    (Nullable.orchestrate env parse MATRIX req tid).
Proof.
  unfold orchestrate, Nullable.orchestrate.
  eapply agrees_bind; [apply agrees_safeRunUnderstanding|]. intros u.
  eapply agrees_bind; [apply agrees_safeRunVisualDirector|]. intros d.
  eapply agrees_bind; [apply agrees_enhanceLoop|]. intros loopOut.
  apply agrees_bind_same. intros reply.
  eapply agrees_bind; [apply agrees_copyStage|]. intros cp.
  intros s. reflexivity.
Qed.

(** As long as no answer is [null], the two embeddings of the
    orchestrator are one: with the parser of the first embedding, whose
    answers all have the shape of their type, the orchestrator of the
    second makes the same calls, ends in the same state and returns the
    same response, or throws the same error. *)
Theorem embeddings_agree_without_null_answers :
  forall req (w : World),
    Nullable.runOrchestratorSys env (neverNull (JSON_parse env)) MATRIX req w
    = (mapCompletion nullableResponse
         (fst (runOrchestratorSys env MATRIX req w)),
       snd (runOrchestratorSys env MATRIX req w)).
Proof.
  intros req w. unfold Nullable.runOrchestratorSys, runOrchestratorSys.
  set (tid := traceIdOf env req w).
  assert (H : agrees nullableResponse
                (tryCatch (orchestrate env MATRIX req tid)
                   (fun e => throw e))
                (tryCatch (Nullable.orchestrate env parse MATRIX req tid)
                   (fun e => throw e))).
  { apply agrees_tryCatch; [apply agrees_orchestrate|].
    intros e. apply agrees_throw. }
  apply H.
Qed.

End Embeddings.

(** ** Runs on the scripted backend *)

Section Scenarios.

Import Mock.

Let run (req : UserRequest) (l : list (Completion GenerateContentResponse)) :=
  orchestrate env MODEL_MATRIX req "t" (boot req l).

(** A blank text is an attempt the validator rejects: the second attempt is
    the one returned, and both are in the trace. *)
Example callText_retries_blank_reply :
  let req := requestIn (Some en) fast in
  match callText env MODEL_MATRIX EMPATHY [Text "hi"] EMPATHY_SYSTEM
          (boot req [textResponse "   "; textResponse "with you"]) with
  | (c, s) =>
      c = Returns "with you" /\
      map (fun t => (tr_retriesUsed t, tr_ok t, tr_error t)) (traces (llm s))
      = [ (0, false, Some "[LLMRouter] Invalid response for EMPATHY");
          (1, true, None) ]
  end.
Proof. vm_compute. split; reflexivity. Qed.

(** The records of the failed attempts stay in the log when the fallback
    under [fast] succeeds. *)
Example failed_attempts_stay_in_trace :
  let req := requestIn (Some en) quality in
  summary (fst (run req [unavailable; unavailable; unavailable;
                         textResponse "u"; textResponse "with you";
                         textResponse "cap"]))
  = Some ("with you",
          [ {| title := "Post"; main_text := "cap";
               hash_tags := ["#life"] |} ],
          [[]],
          [ ("UNDERSTANDING", "quality", 0, false);
            ("UNDERSTANDING", "quality", 1, false);
            ("UNDERSTANDING", "quality", 2, false);
            ("UNDERSTANDING", "fast", 0, true);
            ("EMPATHY", "quality", 0, true);
            ("COPY", "quality", 0, true) ])%string.
Proof. vm_compute. reflexivity. Qed.

(** With the QA evaluator of [quality] mode, a verdict of the richer tier
    comes back as TOO_WEAK_CHANGE. *)
Example qa_verdict_is_mapped_down :
  let req := request [photo] quality in
  fst (runFastGuardrail env MODEL_MATRIX 0 photo photo
         (boot req [textResponse "NEEDS_CLEANUP"]))
  = Returns {| g_image_index := 0; pass := false; score := 20;
               verdict := "TOO_WEAK_CHANGE"; reasons := [];
               revision_actions := [] |}.
Proof. vm_compute. reflexivity. Qed.


(** C2, the code at a failing input. In [quality] mode, with no image, the
    empathy call fails twice under [quality] and succeeds under [fast] with
    the text "I hear you"; the caption call fails three times under
    [quality] and succeeds under [fast] with the text "cap". The trace has
    both successes, but the reply returned is the template and the caption
    returned is the draft built from the raw text: the results of the calls
    under [fast] are overwritten. *)
Example fast_retry_result_is_overwritten :
  let req := requestIn (Some en) quality in
  summary (fst (run req [textResponse "u";
                         unavailable; unavailable; textResponse "I hear you";
                         unavailable; unavailable; unavailable;
                         textResponse "cap"]))
  = Some ("收到你的分享：「today I'm tired」",
          [ {| title := "Draft"; main_text := "today I'm tired";
               hash_tags := [] |} ],
          [[]],
          [ ("UNDERSTANDING", "quality", 0, true);
            ("EMPATHY", "quality", 0, false);
            ("EMPATHY", "quality", 1, false);
            ("EMPATHY", "fast", 0, true);
            ("COPY", "quality", 0, false);
            ("COPY", "quality", 1, false);
            ("COPY", "quality", 2, false);
            ("COPY", "fast", 0, true) ])%string.
Proof. vm_compute. reflexivity. Qed.

(** The sibling stages do return the result of the call under [fast]: the
    story core of the response is the one the understanding call under
    [fast] produced. *)
Example understanding_fast_retry_result_is_used :
  let req := requestIn (Some en) quality in
  match fst (run req [unavailable; unavailable; unavailable;
                      textResponse "a quiet evening"]) with
  | Returns resp =>
      b_story_core (understanding resp) = "a quiet evening"%string
  | Throws _ => False
  end.
Proof. vm_compute. reflexivity. Qed.

(** C3, the claim as stated fails: the rescue is not one attempt. In [fast]
    mode the guardrail rejects the generated image; the rescue call, made
    under [quality], gets no image from its first attempt and an error from
    its second, and its third attempt returns the image that replaces the
    generated one. The three attempts are in the trace, and no record of a
    guardrail follows them. *)
Lemma rescue_call_makes_three_attempts :
  let req := request [photo] fast in
  budget MODEL_MATRIX quality IMAGE_GEN = 3%nat /\
  summary (fst (run req [textResponse "u"; textResponse "relight [SUBJECT]";
                         imageResponse "BBBB"; textResponse "ARTIFACTS";
                         noImageResponse; unavailable; imageResponse "CCCC";
                         textResponse "with you"; textResponse "cap"]))
  = Some ("with you",
          [ {| title := "Post"; main_text := "cap";
               hash_tags := ["#life"] |} ],
          [["data:image/png;base64,CCCC"]],
          [ ("UNDERSTANDING", "fast", 0, true);
            ("VISUAL_DIRECTOR", "fast", 0, true);
            ("IMAGE_GEN", "fast", 0, true);
            ("FAST_GUARDRAIL", "fast", 0, true);
            ("IMAGE_GEN", "quality", 0, false);
            ("IMAGE_GEN", "quality", 1, false);
            ("IMAGE_GEN", "quality", 2, true);
            ("EMPATHY", "fast", 0, true);
            ("COPY", "fast", 0, true) ])%string.
Proof. vm_compute. split; reflexivity. Qed.

(** The rescue of an image the guardrail rejects: the first attempt of the
    rescue call returns no image, the second does, and that image is the
    result. *)
Lemma rescue_once_witness :
  let req := request [photo] fast in
  let plan := {| image_index := 0; nano_prompt_en_v2 := "relight desk" |} in
  fst (enhanceBody env MODEL_MATRIX 0 plan photo [] []
         (boot req [imageResponse "BBBB"; textResponse "ARTIFACTS";
                    noImageResponse; imageResponse "CCCC"]))
  = Returns (Some "data:image/png;base64,CCCC"%string,
             [ {| s_index := 0; s_score := 20;
                  s_verdict := "ARTIFACTS" |} ]).
Proof.
  intros req plan.
  set (s := boot req [imageResponse "BBBB"; textResponse "ARTIFACTS";
                      noImageResponse; imageResponse "CCCC"]).
  set (img := "data:image/png;base64,BBBB"%string).
  set (guard := {| g_image_index := 0; pass := false; score := 20;
                   verdict := "ARTIFACTS"; reasons := [];
                   revision_actions := [] |}).
  assert (H1 : fst (generateImage env MODEL_MATRIX plan photo [] s)
               = Returns (Some img)) by (vm_compute; reflexivity).
  assert (H2 : truthy img = true) by (vm_compute; reflexivity).
  assert (H3 : fst (safeRunFastGuardrail env MODEL_MATRIX (Z.of_nat 0) photo
                      img (snd (generateImage env MODEL_MATRIX plan photo []
                                  s)))
               = Returns guard) by (vm_compute; reflexivity).
  assert (H4 : pass guard = false) by reflexivity.
  destruct (@rescue_once_no_second_guardrail _ env MODEL_MATRIX 0%nat plan
              photo [] [] s img guard H1 H2 H3 H4) as (H & _).
  rewrite H. vm_compute. reflexivity.
Defined.




End Scenarios.

(** ** Runs with an answer that is [null] *)

Section NullScenarios.

Import Mock.

(** What is read off the trace in the examples: agent, mode, retry index
    and success flag of every record. *)
Let records (l : list LLMTraceRecord) : list (string * string * Z * bool) :=
  map (fun t => (agentName (tr_agent t), modeName (tr_mode t),
                 tr_retriesUsed t, tr_ok t)) l.

(** C5, the claim as stated fails. In [quality] mode the director answers
    the first attempt with the text [null]: the router records the attempt
    as a success, two of the three attempts of the spec are left, and the
    call under [fast] is made all the same, because reading the answer has
    thrown inside the stage. The QA evaluator does the same for the
    generated image, and the guardrail call under [fast] follows its one
    successful attempt. *)
Lemma null_answer_is_followed_by_fast_call_with_retries_left :
  let req := request [photo] quality in
  budget MODEL_MATRIX quality VISUAL_DIRECTOR = 3%nat /\
  budget MODEL_MATRIX quality IMAGE_QA = 2%nat /\
  match Nullable.runOrchestratorSys env Nullable.decode MODEL_MATRIX req
          (start [textResponse "u";
                  textResponse "null"; textResponse "relight [SUBJECT]";
                  imageResponse "BBBB";
                  textResponse "null"; textResponse "OK";
                  textResponse "with you"; textResponse "cap"]) with
  | (Returns resp, _) =>
      records (llmTrace (Nullable.debugInfo resp))
      = [ ("UNDERSTANDING", "quality", 0, true);
          ("VISUAL_DIRECTOR", "quality", 0, true);
          ("VISUAL_DIRECTOR", "fast", 0, true);
          ("IMAGE_GEN", "quality", 0, true);
          ("IMAGE_QA", "quality", 0, true);
          ("FAST_GUARDRAIL", "fast", 0, true);
          ("EMPATHY", "quality", 0, true);
          ("COPY", "quality", 0, true) ]%string
  | (Throws _, _) => False
  end.
Proof. vm_compute. repeat split. Qed.



End NullScenarios.

(** ** What the calls of the router return *)

Section RouterResults.

Context {World : Type}.
Variable env : Env World.
Variable MATRIX : Mode -> AgentId -> option ModelSpec.

(** What the executor returns was returned by the attempt function in some
    world and accepted by the validator. *)
Lemma withRetries_returns T agentId spec (action : Backend World T) isValid
    modeOverride (s : Sys World) v :
  fst (withRetries env agentId spec action isValid modeOverride s)
  = Returns v ->
  isValid v = true /\ exists w, fst (action w) = Returns v.
Proof.
  intros H.
  destruct (withRetries_spec env agentId spec action isValid modeOverride s)
    as (recs & _ & _ & _ & _ & Hout).
  rewrite H in Hout. simpl in Hout.
  destruct Hout as (Hv & k & _ & _ & Hact & _). eauto.
Qed.

Lemma callBackend_returns A params (k : GenerateContentResponse -> Completion A)
    (w : World) v :
  fst (callBackend env params k w) = Returns v ->
  exists res, k res = Returns v.
Proof.
  unfold callBackend.
  destruct (generateContent env params w) as [[res|e] w']; simpl.
  - eauto.
  - discriminate.
Qed.

Lemma callText_nonblank agentId contents systemInstruction (s : Sys World) t :
  fst (callText env MATRIX agentId contents systemInstruction s) = Returns t ->
  truthy t = true /\ truthy (trim env t) = true.
Proof.
  unfold callText, bind, getSpec. simpl.
  destruct (MATRIX (mode (llm s)) agentId) as [spec|]; simpl;
    [|discriminate].
  intros E. apply withRetries_returns in E. destruct E as (E & _).
  unfold textValid in E. now apply andb_prop in E.
Qed.

Lemma callTextWithMode_nonblank m agentId contents systemInstruction
    (s : Sys World) t :
  fst (callTextWithMode env MATRIX m agentId contents systemInstruction s)
  = Returns t ->
  truthy t = true /\ truthy (trim env t) = true.
Proof.
  unfold callTextWithMode, getSpecForMode.
  destruct (MATRIX m agentId) as [spec|]; simpl; [|discriminate].
  intros E. apply withRetries_returns in E. destruct E as (E & _).
  unfold textValid in E. now apply andb_prop in E.
Qed.

(** X1. A free-text call, under the active mode or under a given one,
    returns only a text that is not empty and not blank: such a reply is an
    attempt that failed. *)
Theorem text_calls_return_no_blank_text :
  forall m agentId contents systemInstruction (s : Sys World),
    match fst (callText env MATRIX agentId contents systemInstruction s) with
    | Returns t => truthy t = true /\ truthy (trim env t) = true
    | Throws _ => True
    end /\
    match fst (callTextWithMode env MATRIX m agentId contents
                 systemInstruction s) with
    | Returns t => truthy t = true /\ truthy (trim env t) = true
    | Throws _ => True
    end.
Proof.
  intros m agentId contents systemInstruction s. split.
  - destruct (fst (callText env MATRIX agentId contents systemInstruction s))
      as [t|e] eqn:E; [|exact I].
    eapply callText_nonblank, E.
  - destruct (fst (callTextWithMode env MATRIX m agentId contents
                     systemInstruction s)) as [t|e] eqn:E; [|exact I].
    eapply callTextWithMode_nonblank, E.
Qed.

Lemma firstInlineData_prefix parts img :
  firstInlineData parts = Some img ->
  exists data, img = ("data:image/png;base64," ++ data)%string.
Proof.
  induction parts as [|p parts IH]; simpl; [discriminate|].
  destruct (part_inlineData p) as [data|]; [|exact IH].
  intros H. injection H as <-. eauto.
Qed.

Lemma imageAction_returns spec prompt image refs (w : World) v :
  fst (imageAction env spec prompt image refs w) = Returns v ->
  imageValid v = true ->
  exists data, v = Some ("data:image/png;base64," ++ data)%string.
Proof.
  intros H Hv. unfold imageAction in H.
  apply callBackend_returns in H. destruct H as (res & H).
  destruct (res_parts res) as [parts|]; [|discriminate].
  injection H as <-.
  destruct (firstInlineData parts) as [img|] eqn:E; [|discriminate].
  destruct (firstInlineData_prefix _ E) as (data & ->). eauto.
Qed.

Lemma callImageGen_png prompt image refs (s : Sys World) r :
  fst (callImageGen env MATRIX prompt image refs s) = Returns r ->
  exists data, r = Some ("data:image/png;base64," ++ data)%string.
Proof.
  unfold callImageGen, bind, getSpec, callImageGenWithSpec. simpl.
  destruct (MATRIX (mode (llm s)) IMAGE_GEN) as [spec|]; simpl;
    [|discriminate].
  intros E. apply withRetries_returns in E. destruct E as (Hv & w & Hact).
  eapply imageAction_returns; eauto.
Qed.

Lemma callImageGenWithMode_png m prompt image refs (s : Sys World) r :
  fst (callImageGenWithMode env MATRIX m prompt image refs s) = Returns r ->
  r = None \/
  exists data, r = Some ("data:image/png;base64," ++ data)%string.
Proof.
  unfold callImageGenWithMode, getSpecForMode, callImageGenWithSpec.
  destruct (MATRIX m IMAGE_GEN) as [spec|]; simpl.
  - intros E. apply withRetries_returns in E. destruct E as (Hv & w & Hact).
    right. eapply imageAction_returns; eauto.
  - intros E. injection E as <-. now left.
Qed.


Lemma jsonAction_returns spec agentId contents system k (w : World) v :
  fst (jsonAction env spec agentId contents system k w) = Returns v ->
  exists text, truthy text = true /\ JSON_parse env k text = Some v.
Proof.
  intros H. unfold jsonAction in H.
  apply callBackend_returns in H. destruct H as (res & H).
  destruct (truthy (extractTextFromResponse res)) eqn:Ht; simpl in H;
    [|discriminate].
  destruct (JSON_parse env k (extractTextFromResponse res)) as [v'|] eqn:Hp;
    [|discriminate].
  injection H as <-. eauto.
Qed.


End RouterResults.

(** ** The trace of an invocation, stage by stage *)

Section TraceShape.

Context {World : Type}.
Variable env : Env World.
Variable MATRIX : Mode -> AgentId -> option ModelSpec.

Lemma recsAt_refl agents n (s : Sys World) : recsAt agents n s s.
Proof.
  exists []. split; [apply appended_refl|].
  split; [simpl; lia|constructor].
Qed.

Lemma recsAt_weaken agents agents' n n' (s s' : Sys World) :
  recsAt agents n s s' -> incl agents agents' -> (n <= n')%nat ->
  recsAt agents' n' s s'.
Proof.
  intros (recs & Happ & Hlen & Hall) Hincl Hn.
  exists recs. split; [exact Happ|]. split; [lia|].
  eapply Forall_impl; [|exact Hall]. intros r Hr. apply Hincl, Hr.
Qed.

Lemma recsAt_trans agents n1 n2 (s1 s2 s3 : Sys World) :
  recsAt agents n1 s1 s2 -> recsAt agents n2 s2 s3 ->
  recsAt agents (n1 + n2) s1 s3.
Proof.
  intros (r1 & Ha1 & Hl1 & Hf1) (r2 & Ha2 & Hl2 & Hf2).
  exists (r1 ++ r2). split; [eapply appended_trans; eauto|].
  split; [rewrite length_app; lia|]. apply Forall_app. auto.
Qed.

Lemma recsAt_mode agents n (s s' : Sys World) :
  recsAt agents n s s' -> mode (llm s') = mode (llm s).
Proof. intros (recs & (_ & H & _) & _). exact H. Qed.

Lemma recsAt_withRetries T a spec (action : Backend World T) isValid
    modeOverride (s : Sys World) :
  recsAt [a] (Z.to_nat (Z.max 1 (retries spec))) s
    (snd (withRetries env a spec action isValid modeOverride s)).
Proof.
  destruct (withRetries_spec env a spec action isValid modeOverride s)
    as (recs & Happ & Hlen & (_ & Hall) & _).
  rewrite attemptsOf_max in Hlen.
  exists recs. split; [exact Happ|]. split; [exact Hlen|].
  eapply Forall_impl; [|exact Hall]. simpl. intros r (Hr & _).
  left. symmetry. exact Hr.
Qed.

Lemma recsAt_callJson a c i k (s : Sys World) :
  recsAt [a] (budget MATRIX (mode (llm s)) a) s
    (snd (callJson env MATRIX a c i k s)).
Proof.
  unfold callJson, bind, getSpec, budget. simpl.
  destruct (MATRIX (mode (llm s)) a) as [spec|]; simpl.
  - apply recsAt_withRetries.
  - apply recsAt_refl.
Qed.

Lemma recsAt_callText a c i (s : Sys World) :
  recsAt [a] (budget MATRIX (mode (llm s)) a) s
    (snd (callText env MATRIX a c i s)).
Proof.
  unfold callText, bind, getSpec, budget. simpl.
  destruct (MATRIX (mode (llm s)) a) as [spec|]; simpl.
  - apply recsAt_withRetries.
  - apply recsAt_refl.
Qed.

Lemma recsAt_callJsonWithMode m a c i k (s : Sys World) :
  recsAt [a] (budget MATRIX m a) s
    (snd (callJsonWithMode env MATRIX m a c i k s)).
Proof.
  unfold callJsonWithMode, getSpecForMode, budget.
  destruct (MATRIX m a) as [spec|]; simpl.
  - apply recsAt_withRetries.
  - apply recsAt_refl.
Qed.

Lemma recsAt_callTextWithMode m a c i (s : Sys World) :
  recsAt [a] (budget MATRIX m a) s
    (snd (callTextWithMode env MATRIX m a c i s)).
Proof.
  unfold callTextWithMode, getSpecForMode, budget.
  destruct (MATRIX m a) as [spec|]; simpl.
  - apply recsAt_withRetries.
  - apply recsAt_refl.
Qed.

Lemma recsAt_callImageGen p b r (s : Sys World) :
  recsAt [IMAGE_GEN] (budget MATRIX (mode (llm s)) IMAGE_GEN) s
    (snd (callImageGen env MATRIX p b r s)).
Proof.
  unfold callImageGen, callImageGenWithSpec, bind, getSpec, budget. simpl.
  destruct (MATRIX (mode (llm s)) IMAGE_GEN) as [spec|]; simpl.
  - apply recsAt_withRetries.
  - apply recsAt_refl.
Qed.

Lemma recsAt_callImageGenWithMode m p b r (s : Sys World) :
  recsAt [IMAGE_GEN] (budget MATRIX m IMAGE_GEN) s
    (snd (callImageGenWithMode env MATRIX m p b r s)).
Proof.
  unfold callImageGenWithMode, callImageGenWithSpec, getSpecForMode, budget.
  destruct (MATRIX m IMAGE_GEN) as [spec|]; simpl.
  - apply recsAt_withRetries.
  - apply recsAt_refl.
Qed.

(** The records of a stage whose calls follow the cascade. *)
Lemma recsAt_cascade A B C (stage : Async World A) (primary : Async World B)
    (cross : Async World C) dflt agents (bp : Mode -> nat) bc :
  cascadeCalls stage primary cross dflt ->
  (forall s, recsAt agents (bp (mode (llm s))) s (snd (primary s))) ->
  (forall s, recsAt agents bc s (snd (cross s))) ->
  forall s,
    recsAt agents
      (bp (mode (llm s))
       + match mode (llm s) with quality => bc | fast => 0 end)
      s (snd (stage s)).
Proof.
  intros Hc Hp Hx s. specialize (Hc s). specialize (Hp s).
  destruct (primary s) as [[b|e] s1]; simpl in Hp.
  - rewrite Hc. eapply recsAt_weaken; [exact Hp|apply incl_refl|lia].
  - destruct (mode (llm s)).
    + rewrite Hc. simpl. now rewrite Nat.add_0_r.
    + rewrite Hc. eapply recsAt_trans; [exact Hp|apply Hx].
Qed.

Lemma recsAt_understanding req (s : Sys World) :
  recsAt [UNDERSTANDING]
    (stageBudget MATRIX (mode (llm s)) UNDERSTANDING UNDERSTANDING) s
    (snd (safeRunUnderstanding env MATRIX req s)).
Proof.
  apply (recsAt_cascade (fun m => budget MATRIX m UNDERSTANDING)
           (cascade_understanding env MATRIX req)).
  - intros s0. unfold runUnderstanding.
    apply (recsAt_callJson UNDERSTANDING _ _ UnderstandingSchema).
  - intros s0.
    apply (recsAt_callJsonWithMode fast UNDERSTANDING _ _
             UnderstandingSchema).
Qed.

Lemma recsAt_director req u (s : Sys World) :
  recsAt [VISUAL_DIRECTOR]
    (stageBudget MATRIX (mode (llm s)) VISUAL_DIRECTOR VISUAL_DIRECTOR) s
    (snd (safeRunVisualDirector env MATRIX req u s)).
Proof.
  apply (recsAt_cascade (fun m => budget MATRIX m VISUAL_DIRECTOR)
           (cascade_director env MATRIX req u)).
  - intros s0. destruct (images req) as [|img rest] eqn:Himgs;
      [apply recsAt_refl|].
    unfold runVisualDirector, bind.
    pose proof (recsAt_callJson VISUAL_DIRECTOR
                  (map (fileToGenerativePart env) (images req)
                   ++ [Text DIRECTOR_TEXT]) DIRECTOR_SYSTEM DirectorSchema s0)
      as H.
    destruct (callJson env MATRIX VISUAL_DIRECTOR _ DIRECTOR_SYSTEM
                DirectorSchema s0) as [[d|e] t1]; exact H.
  - intros s0. destruct (images req) as [|img rest];
      [apply recsAt_refl|].
    apply (recsAt_callJsonWithMode fast VISUAL_DIRECTOR _ _ DirectorSchema).
Qed.

Lemma recsAt_generateImage plan o r (s : Sys World) :
  recsAt [IMAGE_GEN] (stageBudget MATRIX (mode (llm s)) IMAGE_GEN IMAGE_GEN)
    s (snd (generateImage env MATRIX plan o r s)).
Proof.
  apply (recsAt_cascade (fun m => budget MATRIX m IMAGE_GEN)
           (cascade_image env MATRIX plan o r)).
  - intros s0. apply recsAt_callImageGen.
  - intros s0. apply recsAt_callImageGenWithMode.
Qed.

Lemma preferredAgentOf_cases m :
  preferredAgentOf MATRIX m = FAST_GUARDRAIL \/
  preferredAgentOf MATRIX m = IMAGE_QA.
Proof.
  unfold preferredAgentOf. destruct (isSome _); auto.
Qed.

Lemma recsAt_runFastGuardrail i o e (s : Sys World) :
  recsAt [FAST_GUARDRAIL; IMAGE_QA]
    (budget MATRIX (mode (llm s)) (preferredAgentOf MATRIX (mode (llm s))))
    s (snd (runFastGuardrail env MATRIX i o e s)).
Proof.
  unfold runFastGuardrail, bind, getMode. simpl.
  destruct (negb (isSome (getSpecForMode MATRIX (mode (llm s))
                            (preferredAgentOf MATRIX (mode (llm s))))));
    [apply recsAt_refl|].
  destruct (preferredAgentOf_cases (mode (llm s))) as [Hp|Hp]; rewrite Hp.
  - eapply recsAt_weaken;
      [apply (recsAt_callJson FAST_GUARDRAIL _ _ GuardrailSchema)| |lia].
    intros a [<-|[]]. now left.
  - pose proof (recsAt_callJson IMAGE_QA
                  [base64ToGenerativePart env o; base64ToGenerativePart env e]
                  GUARDRAIL_SYSTEM QASchema s) as H.
    destruct (callJson env MATRIX IMAGE_QA _ GUARDRAIL_SYSTEM QASchema s)
      as [[qa|err] s1]; simpl in *;
      (eapply recsAt_weaken; [exact H| |lia]);
      intros a [<-|[]]; right; now left.
Qed.

Lemma recsAt_guardrail i o e (s : Sys World) :
  recsAt [FAST_GUARDRAIL; IMAGE_QA]
    (stageBudget MATRIX (mode (llm s))
       (preferredAgentOf MATRIX (mode (llm s))) FAST_GUARDRAIL)
    s (snd (safeRunFastGuardrail env MATRIX i o e s)).
Proof.
  apply (recsAt_cascade
           (fun m => budget MATRIX m (preferredAgentOf MATRIX m))
           (cascade_guardrail env MATRIX i o e)).
  - intros s0. apply recsAt_runFastGuardrail.
  - intros s0.
    eapply recsAt_weaken;
      [apply (recsAt_callJsonWithMode fast FAST_GUARDRAIL _ _
                GuardrailSchema)| |lia].
    intros a [<-|[]]. now left.
Qed.

Lemma recsAt_rescue plan o r img (s : Sys World) :
  recsAt [IMAGE_GEN] (budget MATRIX quality IMAGE_GEN) s
    (snd (rescue env MATRIX plan o r img s)).
Proof.
  unfold rescue, bind, getMode, tryCatch. simpl.
  rewrite rescueModeOf_quality.
  pose proof (recsAt_callImageGenWithMode quality
                (nano_prompt_en_v2 plan ++ STRICT_DIRECTIVE)%string o r s)
    as H.
  destruct (callImageGenWithMode env MATRIX quality _ o r s)
    as [[x|err] s1]; exact H.
Qed.

Lemma recsAt_enhanceBody i plan o r sc (s : Sys World) :
  recsAt [IMAGE_GEN; FAST_GUARDRAIL; IMAGE_QA]
    (bodyBudget MATRIX (mode (llm s))) s
    (snd (enhanceBody env MATRIX i plan o r sc s)).
Proof.
  assert (Hi : incl [IMAGE_GEN] [IMAGE_GEN; FAST_GUARDRAIL; IMAGE_QA]).
  { intros a [<-|[]]. now left. }
  assert (Hg : incl [FAST_GUARDRAIL; IMAGE_QA]
                 [IMAGE_GEN; FAST_GUARDRAIL; IMAGE_QA]).
  { intros a Ha. now right. }
  unfold enhanceBody, bind, bodyBudget.
  pose proof (recsAt_generateImage plan o r s) as H1.
  destruct (generateImage env MATRIX plan o r s) as [[res|err] s1];
    simpl in H1 |- *;
    [|eapply recsAt_weaken; [exact H1|exact Hi|lia]].
  destruct res as [img|];
    [|eapply recsAt_weaken; [exact H1|exact Hi|lia]].
  destruct (truthy img);
    [|eapply recsAt_weaken; [exact H1|exact Hi|lia]].
  pose proof (recsAt_guardrail (Z.of_nat i) o img s1) as H2.
  rewrite (recsAt_mode H1) in H2.
  destruct (safeRunFastGuardrail env MATRIX (Z.of_nat i) o img s1)
    as [[guard|err] s2]; simpl in H2 |- *.
  - destruct (negb (pass guard)); simpl.
    + pose proof (recsAt_rescue plan o r (Some img) s2) as H3.
      destruct (rescue env MATRIX plan o r (Some img) s2) as [[x|err] s3];
        simpl in H3 |- *;
        (eapply recsAt_trans;
         [eapply recsAt_trans;
          [eapply recsAt_weaken; [exact H1|exact Hi|apply le_n]
          |eapply recsAt_weaken; [exact H2|exact Hg|apply le_n]]
         |eapply recsAt_weaken; [exact H3|exact Hi|apply le_n]]).
    + eapply recsAt_weaken;
        [eapply recsAt_trans;
         [eapply recsAt_weaken; [exact H1|exact Hi|apply le_n]
         |eapply recsAt_weaken; [exact H2|exact Hg|apply le_n]]
        |apply incl_refl|lia].
  - eapply recsAt_weaken;
      [eapply recsAt_trans;
       [eapply recsAt_weaken; [exact H1|exact Hi|apply le_n]
       |eapply recsAt_weaken; [exact H2|exact Hg|apply le_n]]
      |apply incl_refl|lia].
Qed.

Lemma recsAt_enhanceLoop d o r fuel :
  forall i imgs sc (s : Sys World),
    recsAt [IMAGE_GEN; FAST_GUARDRAIL; IMAGE_QA]
      (fuel * bodyBudget MATRIX (mode (llm s))) s
      (snd (enhanceLoop env MATRIX d o r fuel i imgs sc s)).
Proof.
  induction fuel as [|fuel IH]; intros i imgs sc s; simpl.
  - apply recsAt_refl.
  - destruct (findPlan d i) as [plan|].
    + unfold bind.
      pose proof (recsAt_enhanceBody i plan (nth i o ""%string) r sc s) as H1.
      destruct (enhanceBody env MATRIX i plan (nth i o ""%string) r sc s)
        as [[res|err] s1]; simpl in H1 |- *.
      * eapply recsAt_trans; [exact H1|].
        rewrite <- (recsAt_mode H1). apply IH.
      * eapply recsAt_weaken; [exact H1|apply incl_refl|lia].
    + eapply recsAt_weaken; [apply IH|apply incl_refl|lia].
Qed.

Lemma recsAt_empathy req (s : Sys World) :
  recsAt [EMPATHY] (stageBudget MATRIX (mode (llm s)) EMPATHY EMPATHY) s
    (snd (empathyStage env MATRIX req s)).
Proof.
  apply (recsAt_cascade (fun m => budget MATRIX m EMPATHY)
           (cascade_empathy env MATRIX req)).
  - intros s0. apply recsAt_callText.
  - intros s0. apply recsAt_callTextWithMode.
Qed.

Lemma recsAt_copy req (s : Sys World) :
  recsAt [COPY] (stageBudget MATRIX (mode (llm s)) COPY COPY) s
    (snd (copyStage env MATRIX req s)).
Proof.
  apply (recsAt_cascade (fun m => budget MATRIX m COPY)
           (cascade_copy env MATRIX req)).
  - intros s0. apply (recsAt_callJson COPY _ _ CopySchema).
  - intros s0. apply (recsAt_callJsonWithMode fast COPY _ _ CopySchema).
Qed.

(** The run of the [try] block, state by state. *)
Lemma orchestrate_states req tid (s : Sys World) :
  exists u s1 d s2 imgs sc s3 reply s4 cp s5,
    safeRunUnderstanding env MATRIX req s = (Returns u, s1) /\
    safeRunVisualDirector env MATRIX req u s1 = (Returns d, s2) /\
    enhanceLoop env MATRIX d (images req) (referencesOf req)
      (List.length (images req)) 0
      (repeat ""%string (List.length (images req))) [] s2
    = (Returns (imgs, sc), s3) /\
    empathyStage env MATRIX req s3 = (Returns reply, s4) /\
    copyStage env MATRIX req s4 = (Returns cp, s5) /\
    orchestrate env MATRIX req tid s =
    (Returns
       {| r_traceId := tid;
          understanding := {| b_story_core := story_core u; scene := "V3";
                              theme := mood u |};
          visual_director_output := d;
          empathic_reply := reply;
          variants :=
            [ {| v_id := (tid ++ "_v1")%string;
                 style_name := "Amplify Master";
                 usage_hint := "Social ready";
                 creative_rationale :=
                   "Structural relighting and background cleanup";
                 tone_direction := orElseOpt (suggested_tone u) "Cinematic";
                 visual_direction := "V3 Structural Overhaul";
                 copy := cp;
                 enhanced_images_base64 := imgs |} ];
          debugInfo :=
            {| nano_banana_prompts := map nano_prompt_en_v2 (d_images d);
               llmTrace := traces (llm s5);
               perImageScores := sc |} |}, s5).
Proof.
  unfold orchestrate, bind, referencesOf.
  destruct (total_safeRunUnderstanding env MATRIX req s) as (u & Hu).
  destruct (safeRunUnderstanding env MATRIX req s) as [cu s1] eqn:E1.
  simpl in Hu. subst cu.
  destruct (total_safeRunVisualDirector env MATRIX req u s1) as (dd & Hd).
  destruct (safeRunVisualDirector env MATRIX req u s1) as [cd s2] eqn:E2.
  simpl in Hd. subst cd.
  destruct (total_enhanceLoop env MATRIX dd (images req)
              match reference_images req with Some l => l | None => [] end
              (List.length (images req)) 0%nat
              (repeat ""%string (List.length (images req))) [] s2)
    as ([imgs sc] & Hl).
  destruct (enhanceLoop env MATRIX dd (images req) _ _ _ _ _ s2)
    as [cl s3] eqn:E3.
  simpl in Hl. subst cl.
  destruct (total_empathyStage env MATRIX req s3) as (reply & Hr).
  destruct (empathyStage env MATRIX req s3) as [cr s4] eqn:E4.
  simpl in Hr. subst cr.
  destruct (total_copyStage env MATRIX req s4) as (cp & Hc).
  destruct (copyStage env MATRIX req s4) as [cc s5] eqn:E5.
  simpl in Hc. subst cc.
  exists u, s1, dd, s2, imgs, sc, s3, reply, s4, cp, s5.
  repeat split; first [assumption | reflexivity].
Qed.

Lemma runOrchestratorSys_states req (w : World) :
  let tid := traceIdOf env req w in
  let s := mkSys (newLLMRouter req tid) w in
  runOrchestratorSys env MATRIX req w = orchestrate env MATRIX req tid s.
Proof.
  intros tid s. unfold runOrchestratorSys, tryCatch. fold tid. fold s.
  destruct (orchestrate_states req tid s)
    as (u & s1 & d & s2 & imgs & sc & s3 & reply & s4 & cp & s5 & _ & _ & _
        & _ & _ & Hrun).
  rewrite Hrun. reflexivity.
Qed.

Lemma trace_stages :
  forall req (w : World),
    let md := mode (newLLMRouter req "") in
    match runOrchestratorSys env MATRIX req w with
    | (Returns resp, _) =>
        exists ru rd rl re rc,
          llmTrace (debugInfo resp) = ru ++ rd ++ rl ++ re ++ rc /\
          within [UNDERSTANDING]
            (stageBudget MATRIX md UNDERSTANDING UNDERSTANDING) ru /\
          within [VISUAL_DIRECTOR]
            (stageBudget MATRIX md VISUAL_DIRECTOR VISUAL_DIRECTOR) rd /\
          within [IMAGE_GEN; FAST_GUARDRAIL; IMAGE_QA]
            (List.length (images req) * bodyBudget MATRIX md) rl /\
          within [EMPATHY] (stageBudget MATRIX md EMPATHY EMPATHY) re /\
          within [COPY] (stageBudget MATRIX md COPY COPY) rc
    | (Throws _, _) => False
    end.
Proof.
  intros req w md. rewrite runOrchestratorSys_states.
  set (tid := traceIdOf env req w).
  set (s := mkSys (newLLMRouter req tid) w).
  destruct (orchestrate_states req tid s)
    as (u & s1 & d & s2 & imgs & sc & s3 & reply & s4 & cp & s5 & E1 & E2
        & E3 & E4 & E5 & Hrun).
  rewrite Hrun. simpl.
  pose proof (recsAt_understanding req s) as H1. rewrite E1 in H1.
  pose proof (recsAt_director req u s1) as H2. rewrite E2 in H2.
  pose proof (recsAt_enhanceLoop d (images req) (referencesOf req)
                (List.length (images req)) 0
                (repeat ""%string (List.length (images req))) [] s2) as H3.
  rewrite E3 in H3.
  pose proof (recsAt_empathy req s3) as H4. rewrite E4 in H4.
  pose proof (recsAt_copy req s4) as H5. rewrite E5 in H5.
  simpl in H1, H2, H3, H4, H5.
  assert (M1 : mode (llm s1) = md) by (rewrite (recsAt_mode H1); reflexivity).
  assert (M2 : mode (llm s2) = md) by (rewrite (recsAt_mode H2); exact M1).
  assert (M3 : mode (llm s3) = md) by (rewrite (recsAt_mode H3); exact M2).
  assert (M4 : mode (llm s4) = md) by (rewrite (recsAt_mode H4); exact M3).
  rewrite M1 in H2. rewrite M2 in H3. rewrite M3 in H4. rewrite M4 in H5.
  change (mode (llm s)) with md in H1.
  destruct H1 as (ru & (T1 & _) & W1). destruct H2 as (rd & (T2 & _) & W2).
  destruct H3 as (rl & (T3 & _) & W3). destruct H4 as (re & (T4 & _) & W4).
  destruct H5 as (rc & (T5 & _) & W5).
  exists ru, rd, rl, re, rc. repeat split; try apply W1; try apply W2;
    try apply W3; try apply W4; try apply W5.
  rewrite T5, T4, T3, T2, T1. simpl. now rewrite <- !app_assoc.
Qed.


End TraceShape.

(** ** The trace of an invocation whose answers may be [null] *)

Section NullTrace.

Import Nullable.

Context {World : Type}.
Variable env : Env World.
Variable JSON_parse : forall k : Schema, string -> option (Json (Parsed k)).
Variable MATRIX : Mode -> AgentId -> option ModelSpec.

Lemma recsAt_null_callJson a c i k (s : Sys World) :
  recsAt [a] (budget MATRIX (mode (llm s)) a) s
    (snd (callJson env JSON_parse MATRIX a c i k s)).
Proof.
  unfold callJson, bind, getSpec, budget. simpl.
  destruct (MATRIX (mode (llm s)) a) as [spec|]; simpl.
  - apply recsAt_withRetries.
  - apply recsAt_refl.
Qed.

Lemma recsAt_null_callJsonWithMode m a c i k (s : Sys World) :
  recsAt [a] (budget MATRIX m a) s
    (snd (callJsonWithMode env JSON_parse MATRIX m a c i k s)).
Proof.
  unfold callJsonWithMode, getSpecForMode, budget.
  destruct (MATRIX m a) as [spec|]; simpl.
  - apply recsAt_withRetries.
  - apply recsAt_refl.
Qed.

(** The records of a stage whose calls follow the cascade. *)
Lemma recsAt_null_cascade A B C (stage : Async World A)
    (primary : Async World B) (cross : Async World C) dflt agents
    (bp : Mode -> nat) bc :
  cascade stage primary cross dflt ->
  (forall s, recsAt agents (bp (mode (llm s))) s (snd (primary s))) ->
  (forall s, recsAt agents bc s (snd (cross s))) ->
  forall s,
    recsAt agents
      (bp (mode (llm s))
       + match mode (llm s) with quality => bc | fast => 0 end)
      s (snd (stage s)).
Proof.
  intros Hc Hp Hx s. specialize (Hc s). specialize (Hp s).
  destruct (primary s) as [[b|e] s1]; simpl in Hp.
  - rewrite Hc. eapply recsAt_weaken; [exact Hp|apply incl_refl|lia].
  - destruct (mode (llm s)).
    + destruct Hc as (Hc & Hd). rewrite Hc, Hd. now rewrite Nat.add_0_r.
    + rewrite Hc. eapply recsAt_trans; [exact Hp|apply Hx].
Qed.

Lemma recsAt_null_understanding req (s : Sys World) :
  recsAt [UNDERSTANDING]
    (stageBudget MATRIX (mode (llm s)) UNDERSTANDING UNDERSTANDING) s
    (snd (safeRunUnderstanding env JSON_parse MATRIX req s)).
Proof.
  apply (recsAt_null_cascade (fun m => budget MATRIX m UNDERSTANDING)
           (cascade_null_understanding env JSON_parse MATRIX req)).
  - intros s0. unfold runUnderstanding.
    apply (recsAt_null_callJson UNDERSTANDING _ _ UnderstandingSchema).
  - intros s0.
    apply (recsAt_null_callJsonWithMode fast UNDERSTANDING _ _
             UnderstandingSchema).
Qed.

Lemma recsAt_null_director req u (s : Sys World) :
  recsAt [VISUAL_DIRECTOR]
    (stageBudget MATRIX (mode (llm s)) VISUAL_DIRECTOR VISUAL_DIRECTOR) s
    (snd (safeRunVisualDirector env JSON_parse MATRIX req u s)).
Proof.
  destruct (images req) as [|img rest] eqn:Himgs.
  - unfold safeRunVisualDirector. rewrite Himgs. apply recsAt_refl.
  - assert (Hne : images req <> []) by congruence.
    apply (recsAt_null_cascade (fun m => budget MATRIX m VISUAL_DIRECTOR)
             (@cascade_null_director _ env JSON_parse MATRIX req u Hne)).
    + intros s0. unfold runVisualDirector, bind.
      pose proof (recsAt_null_callJson VISUAL_DIRECTOR
                    (map (fileToGenerativePart env) (images req)
                     ++ [Text DIRECTOR_TEXT]) DIRECTOR_SYSTEM DirectorSchema
                    s0) as H.
      destruct (callJson env JSON_parse MATRIX VISUAL_DIRECTOR _
                  DIRECTOR_SYSTEM DirectorSchema s0) as [[answer|e] t1];
        [|exact H].
      simpl in H.
      destruct answer as [|d]; simpl; [exact H|].
      pose proof (rewritePlans_state env req u d t1) as Hr.
      destruct (rewritePlans env req u d t1) as [c t2]. simpl in Hr.
      subst t2. exact H.
    + intros s0.
      apply (recsAt_null_callJsonWithMode fast VISUAL_DIRECTOR _ _
               DirectorSchema).
Qed.

Lemma recsAt_null_runFastGuardrail i o e (s : Sys World) :
  recsAt [FAST_GUARDRAIL; IMAGE_QA]
    (budget MATRIX (mode (llm s)) (preferredAgentOf MATRIX (mode (llm s))))
    s (snd (runFastGuardrail env JSON_parse MATRIX i o e s)).
Proof.
  unfold runFastGuardrail, bind, getMode. simpl.
  destruct (negb (isSome (getSpecForMode MATRIX (mode (llm s))
                            (preferredAgentOf MATRIX (mode (llm s))))));
    [apply recsAt_refl|].
  destruct (preferredAgentOf_cases MATRIX (mode (llm s))) as [Hp|Hp];
    rewrite Hp.
  - eapply recsAt_weaken;
      [apply (recsAt_null_callJson FAST_GUARDRAIL _ _ GuardrailSchema)| |lia].
    intros a [<-|[]]. now left.
  - pose proof (recsAt_null_callJson IMAGE_QA
                  [base64ToGenerativePart env o; base64ToGenerativePart env e]
                  GUARDRAIL_SYSTEM QASchema s) as H.
    destruct (callJson env JSON_parse MATRIX IMAGE_QA _ GUARDRAIL_SYSTEM
                QASchema s) as [[[|qa]|err] s1]; simpl in *;
      (eapply recsAt_weaken; [exact H| |lia]);
      intros a [<-|[]]; right; now left.
Qed.

Lemma recsAt_null_guardrail i o e (s : Sys World) :
  recsAt [FAST_GUARDRAIL; IMAGE_QA]
    (stageBudget MATRIX (mode (llm s))
       (preferredAgentOf MATRIX (mode (llm s))) FAST_GUARDRAIL)
    s (snd (safeRunFastGuardrail env JSON_parse MATRIX i o e s)).
Proof.
  apply (recsAt_null_cascade
           (fun m => budget MATRIX m (preferredAgentOf MATRIX m))
           (cascade_null_guardrail env JSON_parse MATRIX i o e)).
  - intros s0. apply recsAt_null_runFastGuardrail.
  - intros s0.
    eapply recsAt_weaken;
      [apply (recsAt_null_callJsonWithMode fast FAST_GUARDRAIL _ _
                GuardrailSchema)| |lia].
    intros a [<-|[]]. now left.
Qed.

Lemma recsAt_null_enhanceBody i plan o r sc (s : Sys World) :
  recsAt [IMAGE_GEN; FAST_GUARDRAIL; IMAGE_QA]
    (bodyBudget MATRIX (mode (llm s))) s
    (snd (enhanceBody env JSON_parse MATRIX i plan o r sc s)).
Proof.
  assert (Hi : incl [IMAGE_GEN] [IMAGE_GEN; FAST_GUARDRAIL; IMAGE_QA]).
  { intros a [<-|[]]. now left. }
  assert (Hg : incl [FAST_GUARDRAIL; IMAGE_QA]
                 [IMAGE_GEN; FAST_GUARDRAIL; IMAGE_QA]).
  { intros a Ha. now right. }
  unfold enhanceBody, bind, bodyBudget.
  pose proof (recsAt_generateImage env MATRIX plan o r s) as H1.
  destruct (generateImage env MATRIX plan o r s) as [[res|err] s1];
    simpl in H1 |- *;
    [|eapply recsAt_weaken; [exact H1|exact Hi|lia]].
  destruct res as [img|];
    [|eapply recsAt_weaken; [exact H1|exact Hi|lia]].
  destruct (truthy img);
    [|eapply recsAt_weaken; [exact H1|exact Hi|lia]].
  pose proof (recsAt_null_guardrail (Z.of_nat i) o img s1) as H2.
  rewrite (recsAt_mode H1) in H2.
  assert (H12 : recsAt [IMAGE_GEN; FAST_GUARDRAIL; IMAGE_QA]
                  (stageBudget MATRIX (mode (llm s)) IMAGE_GEN IMAGE_GEN
                   + stageBudget MATRIX (mode (llm s))
                       (preferredAgentOf MATRIX (mode (llm s)))
                       FAST_GUARDRAIL)
                  s
                  (snd (safeRunFastGuardrail env JSON_parse MATRIX
                          (Z.of_nat i) o img s1))).
  { eapply recsAt_trans;
      [eapply recsAt_weaken; [exact H1|exact Hi|apply le_n]
      |eapply recsAt_weaken; [exact H2|exact Hg|apply le_n]]. }
  destruct (safeRunFastGuardrail env JSON_parse MATRIX (Z.of_nat i) o img s1)
    as [[answer|err] s2]; simpl in H12 |- *;
    [|eapply recsAt_weaken; [exact H12|apply incl_refl|lia]].
  destruct answer as [|guard]; simpl;
    [eapply recsAt_weaken; [exact H12|apply incl_refl|lia]|].
  destruct (negb (pass guard)); simpl.
  - pose proof (recsAt_rescue env MATRIX plan o r (Some img) s2) as H3.
    destruct (rescue env MATRIX plan o r (Some img) s2) as [[x|err] s3];
      simpl in H3 |- *;
      (eapply recsAt_trans;
       [exact H12|eapply recsAt_weaken; [exact H3|exact Hi|apply le_n]]).
  - eapply recsAt_weaken; [exact H12|apply incl_refl|lia].
Qed.

Lemma recsAt_null_enhanceLoop d o r fuel :
  forall i imgs sc (s : Sys World),
    recsAt [IMAGE_GEN; FAST_GUARDRAIL; IMAGE_QA]
      (fuel * bodyBudget MATRIX (mode (llm s))) s
      (snd (enhanceLoop env JSON_parse MATRIX d o r fuel i imgs sc s)).
Proof.
  induction fuel as [|fuel IH]; intros i imgs sc s; simpl.
  - apply recsAt_refl.
  - destruct (findPlan d i) as [plan|].
    + unfold bind.
      pose proof (recsAt_null_enhanceBody i plan (nth i o ""%string) r sc s)
        as H1.
      destruct (enhanceBody env JSON_parse MATRIX i plan (nth i o ""%string)
                  r sc s) as [[res|err] s1]; simpl in H1 |- *.
      * eapply recsAt_trans; [exact H1|].
        rewrite <- (recsAt_mode H1). apply IH.
      * eapply recsAt_weaken; [exact H1|apply incl_refl|lia].
    + eapply recsAt_weaken; [apply IH|apply incl_refl|lia].
Qed.

Lemma recsAt_null_copy req (s : Sys World) :
  recsAt [COPY] (stageBudget MATRIX (mode (llm s)) COPY COPY) s
    (snd (copyStage env JSON_parse MATRIX req s)).
Proof.
  apply (recsAt_null_cascade (fun m => budget MATRIX m COPY)
           (cascade_null_copy env JSON_parse MATRIX req)).
  - intros s0. apply (recsAt_null_callJson COPY _ _ CopySchema).
  - intros s0.
    apply (recsAt_null_callJsonWithMode fast COPY _ _ CopySchema).
Qed.

(** X4. When the orchestrator returns, whether or not an answer was
    [null] on the way, the trace its response carries is laid out in the
    order of the stages: the records of understanding, then those of
    direction, then those of image generation and guardrail, then those of
    the empathic reply, then those of the caption; no stage records under
    another stage's agent, and each part is no longer than the attempts its
    stage can make: the budget of the call under the active mode plus, in
    [quality] mode, the budget of the call under [fast], and for the images
    that sum for generation and guardrail plus the budget of the rescue,
    once per image. Nothing is said of an invocation that throws: it
    returns no trace. *)
Theorem trace_follows_stage_order_within_budgets :
  forall req (w : World),
    let md := mode (newLLMRouter req "") in
    match runOrchestratorSys env JSON_parse MATRIX req w with
    | (Returns resp, _) =>
        exists ru rd rl re rc,
          llmTrace (debugInfo resp) = ru ++ rd ++ rl ++ re ++ rc /\
          within [UNDERSTANDING]
            (stageBudget MATRIX md UNDERSTANDING UNDERSTANDING) ru /\
          within [VISUAL_DIRECTOR]
            (stageBudget MATRIX md VISUAL_DIRECTOR VISUAL_DIRECTOR) rd /\
          within [IMAGE_GEN; FAST_GUARDRAIL; IMAGE_QA]
            (List.length (images req) * bodyBudget MATRIX md) rl /\
          within [EMPATHY] (stageBudget MATRIX md EMPATHY EMPATHY) re /\
          within [COPY] (stageBudget MATRIX md COPY COPY) rc
    | (Throws _, _) => True
    end.
Proof.
  intros req w md. unfold runOrchestratorSys, tryCatch.
  set (tid := traceIdOf env req w).
  set (s := mkSys (newLLMRouter req tid) w).
  unfold orchestrate, bind.
  pose proof (recsAt_null_understanding req s) as H1.
  destruct (safeRunUnderstanding env JSON_parse MATRIX req s)
    as [[u|e] s1]; [|exact I].
  pose proof (recsAt_null_director req u s1) as H2.
  destruct (safeRunVisualDirector env JSON_parse MATRIX req u s1)
    as [[d|e] s2]; [|exact I].
  pose proof (recsAt_null_enhanceLoop d (images req)
                match reference_images req with Some l => l | None => [] end
                (List.length (images req)) 0
                (repeat ""%string (List.length (images req))) [] s2) as H3.
  destruct (enhanceLoop env JSON_parse MATRIX d (images req) _ _ _ _ _ s2)
    as [[[imgs sc]|e] s3]; [|exact I].
  pose proof (recsAt_empathy env MATRIX req s3) as H4.
  destruct (empathyStage env MATRIX req s3) as [[reply|e] s4]; [|exact I].
  pose proof (recsAt_null_copy req s4) as H5.
  destruct (copyStage env JSON_parse MATRIX req s4) as [[cp|e] s5];
    [|exact I].
  destruct u as [|u]; simpl; [exact I|].
  simpl in H1, H2, H3, H4, H5.
  assert (M1 : mode (llm s1) = md) by (rewrite (recsAt_mode H1); reflexivity).
  assert (M2 : mode (llm s2) = md) by (rewrite (recsAt_mode H2); exact M1).
  assert (M3 : mode (llm s3) = md) by (rewrite (recsAt_mode H3); exact M2).
  assert (M4 : mode (llm s4) = md) by (rewrite (recsAt_mode H4); exact M3).
  rewrite M1 in H2. rewrite M2 in H3. rewrite M3 in H4. rewrite M4 in H5.
  change (mode (llm s)) with md in H1.
  destruct H1 as (ru & (T1 & _) & W1). destruct H2 as (rd & (T2 & _) & W2).
  destruct H3 as (rl & (T3 & _) & W3). destruct H4 as (re & (T4 & _) & W4).
  destruct H5 as (rc & (T5 & _) & W5).
  exists ru, rd, rl, re, rc. repeat split; try apply W1; try apply W2;
    try apply W3; try apply W4; try apply W5.
  rewrite T5, T4, T3, T2, T1. simpl. now rewrite <- !app_assoc.
Qed.

End NullTrace.

Section ProgramBudget.

Context {World : Type}.
Variable env : Env World.

Lemma attempts_bound :
  forall req (w : World),
    match runOrchestratorSys env MODEL_MATRIX req w with
    | (Returns resp, _) =>
        (List.length (llmTrace (debugInfo resp)) <=
         match mode (newLLMRouter req "") with
         | fast => 8 + 6 * List.length (images req)
         | quality => 19 + 11 * List.length (images req)
         end)%nat
    | (Throws _, _) => False
    end.
Proof.
  intros req w.
  pose proof (trace_stages env MODEL_MATRIX req w) as H.
  destruct (runOrchestratorSys env MODEL_MATRIX req w) as [[resp|e] s'];
    [|exact H].
  destruct H as (ru & rd & rl & re & rc & -> & (L1 & _) & (L2 & _) & (L3 & _)
                 & (L4 & _) & (L5 & _)).
  rewrite !length_app.
  destruct (mode (newLLMRouter req "")).
  - change (stageBudget MODEL_MATRIX fast UNDERSTANDING UNDERSTANDING)
      with 2%nat in L1.
    change (stageBudget MODEL_MATRIX fast VISUAL_DIRECTOR VISUAL_DIRECTOR)
      with 2%nat in L2.
    change (bodyBudget MODEL_MATRIX fast) with 6%nat in L3.
    change (stageBudget MODEL_MATRIX fast EMPATHY EMPATHY) with 2%nat in L4.
    change (stageBudget MODEL_MATRIX fast COPY COPY) with 2%nat in L5.
    lia.
  - change (stageBudget MODEL_MATRIX quality UNDERSTANDING UNDERSTANDING)
      with 5%nat in L1.
    change (stageBudget MODEL_MATRIX quality VISUAL_DIRECTOR VISUAL_DIRECTOR)
      with 5%nat in L2.
    change (bodyBudget MODEL_MATRIX quality) with 11%nat in L3.
    change (stageBudget MODEL_MATRIX quality EMPATHY EMPATHY)
      with 4%nat in L4.
    change (stageBudget MODEL_MATRIX quality COPY COPY) with 5%nat in L5.
    lia.
Qed.


End ProgramBudget.

(** ** What a response is made of *)

Section ResponseShape.

Context {World : Type}.
Variable env : Env World.
Variable MATRIX : Mode -> AgentId -> option ModelSpec.

Lemma isPngUrl_truthy img : isPngUrl img -> truthy img = true.
Proof. intros (data & ->). reflexivity. Qed.

Lemma generateImage_png plan o r (s : Sys World) res :
  fst (generateImage env MATRIX plan o r s) = Returns res ->
  res = None \/ exists img, res = Some img /\ isPngUrl img.
Proof.
  unfold generateImage, tryCatch, bind, getMode.
  destruct (callImageGen env MATRIX (nano_prompt_en_v2 plan) o r s)
    as [[x|e] s1] eqn:E1; simpl.
  - intros H. injection H as <-.
    assert (E : fst (callImageGen env MATRIX (nano_prompt_en_v2 plan) o r s)
                = Returns x) by now rewrite E1.
    destruct (callImageGen_png _ _ _ _ _ _ E) as (data & ->).
    right. eexists. split; [reflexivity|]. now exists data.
  - destruct (mode (llm s1)); simpl.
    + intros H. injection H as <-. now left.
    + destruct (callImageGenWithMode env MATRIX fast (nano_prompt_en_v2 plan)
                  o r s1) as [[x|e2] s2] eqn:E2; simpl.
      * intros H. injection H as <-.
        assert (E : fst (callImageGenWithMode env MATRIX fast
                           (nano_prompt_en_v2 plan) o r s1) = Returns x)
          by now rewrite E2.
        destruct (callImageGenWithMode_png _ _ _ _ _ _ _ E)
          as [->|(data & ->)]; [now left|].
        right. eexists. split; [reflexivity|]. now exists data.
      * intros H. injection H as <-. now left.
Qed.

Lemma rescue_png plan o r img (s : Sys World) res :
  isPngUrl img ->
  fst (rescue env MATRIX plan o r (Some img) s) = Returns res ->
  exists img', res = Some img' /\ isPngUrl img'.
Proof.
  intros Himg. unfold rescue, tryCatch, bind, getMode. simpl.
  destruct (callImageGenWithMode env MATRIX (rescueModeOf (mode (llm s)))
              (nano_prompt_en_v2 plan ++ STRICT_DIRECTIVE)%string o r s)
    as [[x|e] s1] eqn:E1; simpl.
  - intros H. injection H as <-.
    assert (E : fst (callImageGenWithMode env MATRIX
                       (rescueModeOf (mode (llm s)))
                       (nano_prompt_en_v2 plan ++ STRICT_DIRECTIVE)%string
                       o r s) = Returns x) by now rewrite E1.
    destruct (callImageGenWithMode_png _ _ _ _ _ _ _ E)
      as [->|(data & ->)]; simpl.
    + eauto.
    + eexists. split; [reflexivity|]. now exists data.
  - intros H. injection H as <-. eauto.
Qed.

(** What the loop body yields: no image and no new score, or a PNG data URL
    and the one score of the guardrail. *)
Lemma enhanceBody_shape i plan o r sc (s : Sys World) :
  match fst (enhanceBody env MATRIX i plan o r sc s) with
  | Returns (res, sc') =>
      (res = None /\ sc' = sc) \/
      (exists img x, res = Some img /\ isPngUrl img /\
                     sc' = sc ++ [x] /\ s_index x = i)
  | Throws _ => False
  end.
Proof.
  unfold enhanceBody, bind.
  destruct (total_generateImage env MATRIX plan o r s) as (res & Hres).
  pose proof (generateImage_png plan o r s) as Hpng.
  destruct (generateImage env MATRIX plan o r s) as [c s1].
  simpl in Hres. subst c. specialize (Hpng res eq_refl).
  destruct Hpng as [->|(img & -> & Himg)]; simpl; [now left|].
  rewrite (isPngUrl_truthy Himg).
  destruct (total_safeRunFastGuardrail env MATRIX (Z.of_nat i) o img s1)
    as (guard & Hg).
  destruct (safeRunFastGuardrail env MATRIX (Z.of_nat i) o img s1) as [c s2].
  simpl in Hg. subst c.
  destruct (negb (pass guard)); simpl.
  - destruct (total_rescue env MATRIX plan o r (Some img) s2) as (res' & Hr).
    pose proof (rescue_png plan o r s2 (img := img)) as Hpng.
    destruct (rescue env MATRIX plan o r (Some img) s2) as [c s3].
    simpl in Hr. subst c. simpl.
    destruct (Hpng res' Himg eq_refl) as (img' & -> & Himg').
    right. eexists. eexists. repeat split; eauto.
  - right. eexists. eexists. repeat split; eauto.
Qed.


Lemma enhanceLoop_scores d o r fuel :
  forall i imgs sc (s : Sys World),
    match enhanceLoop env MATRIX d o r fuel i imgs sc s with
    | (Returns (imgs', sc'), _) =>
        exists new, sc' = sc ++ new /\
          StronglySorted lt (map s_index new) /\
          Forall (fun x =>
                    (i <= s_index x < i + fuel)%nat /\
                    findPlan d (s_index x) <> None /\
                    ((s_index x < List.length imgs)%nat ->
                     exists e, nth_error imgs' (s_index x) = Some e /\
                               isPngUrl e)) new
    | (Throws _, _) => False
    end.
Proof.
  induction fuel as [|fuel IH]; intros i imgs sc s.
  - simpl. exists []. rewrite app_nil_r. repeat split; constructor.
  - simpl. destruct (findPlan d i) as [plan|] eqn:Hp.
    + unfold bind.
      pose proof (enhanceBody_shape i plan (nth i o ""%string) r sc s) as Hb.
      destruct (enhanceBody env MATRIX i plan (nth i o ""%string) r sc s)
        as [[[res sc1]|err] s1]; simpl in Hb; [|contradiction].
      simpl fst. simpl snd.
      set (imgs1 := array_set imgs i (imageOr res (nth i o ""%string))).
      specialize (IH (S i) imgs1 sc1 s1).
      pose proof (enhanceLoop_untouched env MATRIX d o r fuel (S i) imgs1
                    sc1 s1) as Hun.
      destruct (enhanceLoop env MATRIX d o r fuel (S i) imgs1 sc1 s1)
        as [[[imgs' sc']|err] s']; [|contradiction].
      destruct IH as (new & -> & Hsorted & Hall).
      destruct Hun as (_ & Hkeep).
      assert (Hall' : Forall (fun x =>
                    (i <= s_index x < i + S fuel)%nat /\
                    findPlan d (s_index x) <> None /\
                    ((s_index x < List.length imgs)%nat ->
                     exists e, nth_error imgs' (s_index x) = Some e /\
                               isPngUrl e)) new).
      { eapply Forall_impl; [|exact Hall]. simpl.
        intros x (Hb1 & Hb2 & Hb3). repeat split; auto; try lia.
        unfold imgs1 in Hb3. rewrite array_set_length in Hb3. exact Hb3. }
      destruct Hb as [(-> & ->)|(img & x & -> & Himg & -> & Hx)].
      * exists new. repeat split; auto.
      * exists (x :: new). rewrite <- app_assoc. simpl.
        repeat split; auto.
        -- constructor; [exact Hsorted|].
           rewrite Hx. apply Forall_map.
           eapply Forall_impl; [|exact Hall]. simpl. intros y (Hy & _). lia.
        -- constructor; [|exact Hall'].
           rewrite Hx. repeat split; try lia; [congruence|].
           intros Hlt. rewrite Hkeep by (right; lia).
           unfold imgs1. rewrite array_set_same by exact Hlt.
           eexists. split; [reflexivity|]. simpl. unfold orElse.
           now rewrite (isPngUrl_truthy Himg).
    + specialize (IH (S i) imgs sc s).
      destruct (enhanceLoop env MATRIX d o r fuel (S i) imgs sc s)
        as [[[imgs' sc']|err] s']; [|contradiction].
      destruct IH as (new & -> & Hsorted & Hall).
      exists new. repeat split; auto.
      eapply Forall_impl; [|exact Hall]. simpl.
      intros x (Hb1 & Hb2 & Hb3). repeat split; auto; lia.
Qed.


Lemma empathyStage_nonblank req (s : Sys World) reply :
  fst (empathyStage env MATRIX req s) = Returns reply ->
  truthy reply = true.
Proof.
  unfold empathyStage, tryCatch, bind, getMode.
  destruct (callText env MATRIX EMPATHY [Text (raw_text req)] EMPATHY_SYSTEM s)
    as [[t|e] s1] eqn:E1; simpl.
  - intros H. injection H as <-.
    eapply callText_nonblank. now rewrite E1.
  - assert (Hf : truthy (fallbackReply req) = true).
    { unfold fallbackReply. destruct (truthy (raw_text req)); reflexivity. }
    destruct (mode (llm s1)); simpl.
    + intros H. injection H as <-. exact Hf.
    + destruct (callTextWithMode env MATRIX fast EMPATHY
                  [Text (raw_text req)] EMPATHY_SYSTEM s1) as [[t|e2] s2];
        simpl; intros H; injection H as <-; exact Hf.
Qed.


End ResponseShape.

(** ** Properties every record of a trace has *)

Section TraceInvariant.

Context {World : Type}.
Variable env : Env World.
Variable MATRIX : Mode -> AgentId -> option ModelSpec.

Lemma adds_refl P (s : Sys World) : adds P s s.
Proof. exists []. split; [apply appended_refl|constructor]. Qed.

Lemma adds_trans P (s1 s2 s3 : Sys World) :
  adds P s1 s2 -> adds P s2 s3 -> adds P s1 s3.
Proof.
  intros (r1 & Ha1 & Hf1) (r2 & Ha2 & Hf2).
  exists (r1 ++ r2). split; [eapply appended_trans; eauto|].
  apply Forall_app. auto.
Qed.

Lemma adding_ret P A (a : A) : adding P (ret a : Async World A).
Proof. intros s. apply adds_refl. Qed.

Lemma adding_throw P A e : adding P (throw e : Async World A).
Proof. intros s. apply adds_refl. Qed.

Lemma adding_getMode P : adding P (getMode : Async World Mode).
Proof. intros s. apply adds_refl. Qed.

Lemma adding_bind P A B (m : Async World A) (k : A -> Async World B) :
  adding P m -> (forall a, adding P (k a)) -> adding P (bind m k).
Proof.
  intros Hm Hk s. unfold bind. specialize (Hm s).
  destruct (m s) as [[a|e] s1]; simpl in *; [|exact Hm].
  eapply adds_trans; [exact Hm|apply Hk].
Qed.

Lemma adding_tryCatch P A (m : Async World A) (h : Thrown -> Async World A) :
  adding P m -> (forall e, adding P (h e)) -> adding P (tryCatch m h).
Proof.
  intros Hm Hh s. unfold tryCatch. specialize (Hm s).
  destruct (m s) as [[a|e] s1]; simpl in *; [exact Hm|].
  eapply adds_trans; [exact Hm|apply Hh].
Qed.

Section Stages.

Variable P : LLMTraceRecord -> Prop.

Hypothesis P_callJson :
  forall a c i k, adding P (callJson env MATRIX a c i k).
Hypothesis P_callText : forall a c i, adding P (callText env MATRIX a c i).
Hypothesis P_callJsonWithMode :
  forall m a c i k, adding P (callJsonWithMode env MATRIX m a c i k).
Hypothesis P_callTextWithMode :
  forall m a c i, adding P (callTextWithMode env MATRIX m a c i).
Hypothesis P_callImageGen :
  forall p b r, adding P (callImageGen env MATRIX p b r).
Hypothesis P_callImageGenWithMode :
  forall m p b r, adding P (callImageGenWithMode env MATRIX m p b r).

Ltac stage :=
  repeat first
    [ apply adding_ret
    | apply adding_throw
    | apply adding_getMode
    | apply P_callText
    | apply P_callTextWithMode
    | apply P_callImageGen
    | apply P_callImageGenWithMode
    | apply (P_callJson _ _ _ UnderstandingSchema)
    | apply (P_callJson _ _ _ DirectorSchema)
    | apply (P_callJson _ _ _ GuardrailSchema)
    | apply (P_callJson _ _ _ QASchema)
    | apply (P_callJson _ _ _ CopySchema)
    | apply (P_callJsonWithMode _ _ _ _ UnderstandingSchema)
    | apply (P_callJsonWithMode _ _ _ _ DirectorSchema)
    | apply (P_callJsonWithMode _ _ _ _ GuardrailSchema)
    | apply (P_callJsonWithMode _ _ _ _ CopySchema)
    | apply adding_bind; [|intros ?]
    | apply adding_tryCatch; [|intros ?]
    | progress cbv zeta
    | match goal with
      | |- adding _ (match ?x with _ => _ end) => destruct x
      | |- adding _ (if ?x then _ else _) => destruct x
      end ].

Lemma adding_safeRunUnderstanding req :
  adding P (safeRunUnderstanding env MATRIX req).
Proof. unfold safeRunUnderstanding, runUnderstanding. stage. Qed.

Lemma adding_safeRunVisualDirector req u :
  adding P (safeRunVisualDirector env MATRIX req u).
Proof. unfold safeRunVisualDirector, runVisualDirector. stage. Qed.

Lemma adding_safeRunFastGuardrail i o e :
  adding P (safeRunFastGuardrail env MATRIX i o e).
Proof. unfold safeRunFastGuardrail, runFastGuardrail. stage. Qed.

Lemma adding_enhanceBody i plan o r sc :
  adding P (enhanceBody env MATRIX i plan o r sc).
Proof.
  unfold enhanceBody, generateImage, rescue,
    safeRunFastGuardrail, runFastGuardrail.
  stage.
Qed.

Lemma adding_enhanceLoop d o r fuel :
  forall i imgs sc, adding P (enhanceLoop env MATRIX d o r fuel i imgs sc).
Proof.
  induction fuel as [|fuel IH]; intros i imgs sc; simpl.
  - apply adding_ret.
  - destruct (findPlan d i) as [plan|]; [|apply IH].
    apply adding_bind; [apply adding_enhanceBody|]. intros a. apply IH.
Qed.

Lemma adding_empathyStage req : adding P (empathyStage env MATRIX req).
Proof. unfold empathyStage. stage. Qed.

Lemma adding_copyStage req : adding P (copyStage env MATRIX req).
Proof. unfold copyStage. stage. Qed.

(** Every record of the trace of a response satisfies [P]. *)
Lemma trace_all req (w : World) :
  match runOrchestratorSys env MATRIX req w with
  | (Returns resp, _) => Forall P (llmTrace (debugInfo resp))
  | (Throws _, _) => False
  end.
Proof.
  rewrite runOrchestratorSys_states.
  set (tid := traceIdOf env req w).
  set (s := mkSys (newLLMRouter req tid) w).
  destruct (orchestrate_states env MATRIX req tid s)
    as (u & s1 & d & s2 & imgs & sc & s3 & reply & s4 & cp & s5 & E1 & E2
        & E3 & E4 & E5 & Hrun).
  rewrite Hrun. simpl.
  pose proof (adding_safeRunUnderstanding req s) as H1. rewrite E1 in H1.
  pose proof (adding_safeRunVisualDirector req u s1) as H2.
  rewrite E2 in H2.
  pose proof (adding_enhanceLoop d (images req) (referencesOf req)
                (List.length (images req)) 0
                (repeat ""%string (List.length (images req))) [] s2) as H3.
  rewrite E3 in H3.
  pose proof (adding_empathyStage req s3) as H4. rewrite E4 in H4.
  pose proof (adding_copyStage req s4) as H5. rewrite E5 in H5.
  simpl in H1, H2, H3, H4, H5.
  destruct (adds_trans (adds_trans (adds_trans (adds_trans H1 H2) H3) H4) H5)
    as (recs & (Ht & _) & Hall).
  rewrite Ht. exact Hall.
Qed.

End Stages.

Lemma configured_withRetries T a spec (action : Backend World T) isValid
    modeOverride (s : Sys World) :
  MATRIX (recordedMode modeOverride (mode (llm s))) a = Some spec ->
  adds (configured MATRIX) s
    (snd (withRetries env a spec action isValid modeOverride s)).
Proof.
  intros Hspec.
  destruct (withRetries_spec env a spec action isValid modeOverride s)
    as (recs & Happ & _ & (_ & Hall) & _).
  exists recs. split; [exact Happ|].
  eapply Forall_impl; [|exact Hall]. simpl. intros r (Ha & Hm & Hmodel).
  exists spec. rewrite Ha, Hm. auto.
Qed.


End TraceInvariant.

(** ** The fallbacks *)

Section Fallbacks.

Context {World : Type}.
Variable env : Env World.

Lemma In_mapIndex A B (f : nat -> B) (l : list A) :
  forall k x, In x (mapIndex f l k) -> exists idx, x = f idx.
Proof.
  induction l as [|a l IH]; intros k x; simpl; [contradiction|].
  intros [<-|H]; eauto.
Qed.

Lemma mapIndex_length A B (f : nat -> B) (l : list A) :
  forall k, List.length (mapIndex f l k) = List.length l.
Proof. induction l as [|a l IH]; intros k; simpl; auto. Qed.

Lemma mapIndex_map A B C (f : nat -> B) (g : B -> C) (l : list A) :
  forall k, map g (mapIndex f l k) = map (fun j => g (f (k + j)%nat))
                                       (seq 0 (List.length l)).
Proof.
  induction l as [|a l IH]; intros k; simpl; [reflexivity|].
  rewrite Nat.add_0_r. f_equal. rewrite IH, <- seq_shift, map_map.
  apply map_ext. intros j. now rewrite Nat.add_succ_r.
Qed.

Lemma find_mapIndex A (f : nat -> DirectorImagePlan)
    (g : DirectorImagePlan -> DirectorImagePlan) (l : list A) :
  (forall idx, image_index (g (f idx)) = Z.of_nat idx) ->
  forall k j, (k <= j < k + List.length l)%nat ->
    find (fun p => image_index p =? Z.of_nat j) (map g (mapIndex f l k))
    = Some (g (f j)).
Proof.
  intros Hidx. induction l as [|a l IH]; intros k j Hj; simpl in *; [lia|].
  rewrite Hidx. destruct (Z.eqb_spec (Z.of_nat k) (Z.of_nat j)) as [E|E].
  - apply Nat2Z.inj in E. now subst.
  - apply IH. assert (k <> j) by congruence. lia.
Qed.

Lemma findPlan_fallback req u j :
  (j < List.length (images req))%nat ->
  exists plan,
    findPlan (rewritePlans env req u (buildFallbackDirector env req u)) j
    = Some plan /\ image_index plan = Z.of_nat j.
Proof.
  intros Hj. unfold findPlan, rewritePlans, buildFallbackDirector. simpl.
  rewrite find_mapIndex; [|reflexivity|lia].
  eexists. split; reflexivity.
Qed.

(** X11. The plans written when the director fails cover the images one by
    one: they carry the indices 0, 1, ... of the request's images in order,
    so that the loop finds a plan, and only that one, for every image; and
    the understanding written when the understanding call fails names
    ["subject"] as what matters, whatever index is asked for. *)
Theorem fallback_plans_cover_every_image :
  forall req u,
    let d := rewritePlans env req u (buildFallbackDirector env req u) in
    map image_index (d_images d)
    = indicesFrom 0 (List.length (images req)) /\
    (forall j, (j < List.length (images req))%nat ->
       exists plan, findPlan d j = Some plan /\
                    image_index plan = Z.of_nat j) /\
    (forall j, (List.length (images req) <= j)%nat -> findPlan d j = None) /\
    List.length (per_image (buildFallbackUnderstanding req))
    = List.length (images req) /\
    forall idx, subjectOf (buildFallbackUnderstanding req) idx
                = "subject"%string.
Proof.
  intros req u d. repeat split.
  - unfold d, rewritePlans, buildFallbackDirector, indicesFrom. simpl.
    rewrite map_map. rewrite (mapIndex_map _ _ (images req) 0).
    apply map_ext. intros j. reflexivity.
  - intros j Hj. apply findPlan_fallback, Hj.
  - intros j Hj. unfold findPlan.
    destruct (find _ (d_images d)) as [p|] eqn:E; [|reflexivity].
    apply find_some in E. destruct E as (Hin & Heq).
    unfold d, rewritePlans, buildFallbackDirector in Hin. simpl in Hin.
    rewrite (mapIndex_map _ _ (images req) 0) in Hin.
    apply in_map_iff in Hin. destruct Hin as (k & <- & Hk).
    apply in_seq in Hk. simpl in Heq. apply Z.eqb_eq in Heq. lia.
  - unfold buildFallbackUnderstanding. simpl. apply mapIndex_length.
  - intros idx. unfold subjectOf, buildFallbackUnderstanding. simpl.
    destruct (find _ _) as [p|] eqn:E; [|reflexivity].
    apply find_some in E. destruct E as (Hin & _).
    apply In_mapIndex in Hin. destruct Hin as (k & ->). reflexivity.
Qed.

End Fallbacks.

(** ** The backend is down *)

Section Offline.

Context {World : Type}.
Variable env : Env World.
Variable MATRIX : Mode -> AgentId -> option ModelSpec.
Hypothesis Hdown : down env.

Lemma callBackend_down A params
    (k : GenerateContentResponse -> Completion A) (w : World) :
  exists e, fst (callBackend env params k w) = Throws e.
Proof.
  unfold callBackend. destruct (Hdown params w) as (e & He).
  destruct (generateContent env params w) as [[res|e'] w']; simpl in *;
    [discriminate|eauto].
Qed.

Lemma all_false A (f : A -> bool) l n :
  map f l = repeat false n -> Forall (fun x => f x = false) l.
Proof.
  intros H. apply Forall_forall. intros x Hx.
  apply (in_map f) in Hx. rewrite H in Hx.
  now apply repeat_spec in Hx.
Qed.

Lemma withRetries_down T a spec (action : Backend World T) isValid mo
    (s : Sys World) :
  (forall w, exists e, fst (action w) = Throws e) ->
  (exists e, fst (withRetries env a spec action isValid mo s) = Throws e) /\
  adds failedRecord s (snd (withRetries env a spec action isValid mo s)).
Proof.
  intros Hact.
  destruct (withRetries_spec env a spec action isValid mo s)
    as (recs & Happ & _ & _ & _ & Hout).
  destruct (withRetries env a spec action isValid mo s) as [[v|e] s'];
    simpl in *.
  - destruct Hout as (_ & k & _ & _ & Hret & _).
    destruct (Hact (worldAfter action k (world s))) as (e & He).
    congruence.
  - split; [eauto|]. exists recs. split; [exact Happ|].
    destruct Hout as (_ & Hok & _). eapply all_false, Hok.
Qed.

Lemma callJson_down a c i k (s : Sys World) :
  (exists e, fst (callJson env MATRIX a c i k s) = Throws e) /\
  adds failedRecord s (snd (callJson env MATRIX a c i k s)).
Proof.
  unfold callJson, bind, getSpec. simpl.
  destruct (MATRIX (mode (llm s)) a) as [spec|]; simpl.
  - apply withRetries_down. intros w. apply callBackend_down.
  - split; [eexists; reflexivity|apply adds_refl].
Qed.

Lemma callText_down a c i (s : Sys World) :
  (exists e, fst (callText env MATRIX a c i s) = Throws e) /\
  adds failedRecord s (snd (callText env MATRIX a c i s)).
Proof.
  unfold callText, bind, getSpec. simpl.
  destruct (MATRIX (mode (llm s)) a) as [spec|]; simpl.
  - apply withRetries_down. intros w. apply callBackend_down.
  - split; [eexists; reflexivity|apply adds_refl].
Qed.

Lemma callJsonWithMode_down m a c i k (s : Sys World) :
  (exists e, fst (callJsonWithMode env MATRIX m a c i k s) = Throws e) /\
  adds failedRecord s (snd (callJsonWithMode env MATRIX m a c i k s)).
Proof.
  unfold callJsonWithMode, getSpecForMode.
  destruct (MATRIX m a) as [spec|]; simpl.
  - apply withRetries_down. intros w. apply callBackend_down.
  - split; [eexists; reflexivity|apply adds_refl].
Qed.

Lemma callTextWithMode_down m a c i (s : Sys World) :
  (exists e, fst (callTextWithMode env MATRIX m a c i s) = Throws e) /\
  adds failedRecord s (snd (callTextWithMode env MATRIX m a c i s)).
Proof.
  unfold callTextWithMode, getSpecForMode.
  destruct (MATRIX m a) as [spec|]; simpl.
  - apply withRetries_down. intros w. apply callBackend_down.
  - split; [eexists; reflexivity|apply adds_refl].
Qed.

Lemma callImageGen_down p b r (s : Sys World) :
  (exists e, fst (callImageGen env MATRIX p b r s) = Throws e) /\
  adds failedRecord s (snd (callImageGen env MATRIX p b r s)).
Proof.
  unfold callImageGen, callImageGenWithSpec, bind, getSpec. simpl.
  destruct (MATRIX (mode (llm s)) IMAGE_GEN) as [spec|]; simpl.
  - apply withRetries_down. intros w. apply callBackend_down.
  - split; [eexists; reflexivity|apply adds_refl].
Qed.

Lemma callImageGenWithMode_down m p b r (s : Sys World) :
  (fst (callImageGenWithMode env MATRIX m p b r s) = Returns None \/
   exists e, fst (callImageGenWithMode env MATRIX m p b r s) = Throws e) /\
  adds failedRecord s (snd (callImageGenWithMode env MATRIX m p b r s)).
Proof.
  unfold callImageGenWithMode, callImageGenWithSpec, getSpecForMode.
  destruct (MATRIX m IMAGE_GEN) as [spec|]; simpl.
  - destruct (withRetries_down IMAGE_GEN spec
                (imageAction env spec p b r) (imageValid) (Some m) s) as (H1 & H2).
    + intros w. apply callBackend_down.
    + split; [right; exact H1|exact H2].
  - split; [now left|apply adds_refl].
Qed.

Lemma safeRunUnderstanding_down req (s : Sys World) :
  fst (safeRunUnderstanding env MATRIX req s)
  = Returns (buildFallbackUnderstanding req).
Proof.
  unfold safeRunUnderstanding, runUnderstanding, tryCatch, bind, getMode.
  destruct (callJson_down UNDERSTANDING
              (map (fileToGenerativePart env) (images req)
               ++ [Text (raw_text req)]) UNDERSTANDING_SYSTEM
              UnderstandingSchema s) as ((e & He) & _).
  destruct (callJson env MATRIX UNDERSTANDING _ UNDERSTANDING_SYSTEM
              UnderstandingSchema s) as [[u|e'] s1];
    simpl in *; [discriminate|].
  destruct (mode (llm s1)); simpl; [reflexivity|].
  destruct (callJsonWithMode_down fast UNDERSTANDING [Text (raw_text req)]
              UNDERSTANDING_SYSTEM UnderstandingSchema s1)
    as ((e2 & He2) & _).
  destruct (callJsonWithMode env MATRIX fast UNDERSTANDING _
              UNDERSTANDING_SYSTEM UnderstandingSchema s1) as [[u|e''] s2];
    simpl in *; [discriminate|reflexivity].
Qed.

Lemma safeRunVisualDirector_down req u (s : Sys World) :
  fst (safeRunVisualDirector env MATRIX req u s)
  = Returns (rewritePlans env req u (buildFallbackDirector env req u)).
Proof.
  unfold safeRunVisualDirector, runVisualDirector, tryCatch, bind, getMode.
  destruct (images req) as [|img rest] eqn:Himgs.
  - unfold rewritePlans, buildFallbackDirector. rewrite Himgs. reflexivity.
  - assert (H1 : forall s0, exists e,
               fst (callJson env MATRIX VISUAL_DIRECTOR
                      (map (fileToGenerativePart env) (img :: rest)
                       ++ [Text DIRECTOR_TEXT]) DIRECTOR_SYSTEM
                      DirectorSchema s0) = Throws e)
      by (intros s0;
          apply (callJson_down VISUAL_DIRECTOR _ _ DirectorSchema)).
    assert (H2 : forall s0, exists e,
               fst (callJsonWithMode env MATRIX fast VISUAL_DIRECTOR
                      (map (fileToGenerativePart env) (img :: rest)
                       ++ [Text DIRECTOR_TEXT]) DIRECTOR_SYSTEM
                      DirectorSchema s0) = Throws e)
      by (intros s0;
          apply (callJsonWithMode_down fast VISUAL_DIRECTOR _ _
                   DirectorSchema)).
    destruct (H1 s) as (e & He).
    destruct (callJson env MATRIX VISUAL_DIRECTOR _ DIRECTOR_SYSTEM
                DirectorSchema s) as [[x|e'] s1];
      simpl in *; [discriminate|].
    destruct (mode (llm s1)); simpl; [reflexivity|].
    destruct (H2 s1) as (e2 & He2).
    destruct (callJsonWithMode env MATRIX fast VISUAL_DIRECTOR _
                DIRECTOR_SYSTEM DirectorSchema s1) as [[x|e''] s2];
      simpl in *; [discriminate|reflexivity].
Qed.

Lemma generateImage_down plan o r (s : Sys World) :
  fst (generateImage env MATRIX plan o r s) = Returns None.
Proof.
  unfold generateImage, tryCatch, bind, getMode.
  destruct (callImageGen_down (nano_prompt_en_v2 plan) o r s)
    as ((e & He) & _).
  destruct (callImageGen env MATRIX (nano_prompt_en_v2 plan) o r s)
    as [[x|e'] s1]; simpl in *; [discriminate|].
  destruct (mode (llm s1)); simpl; [reflexivity|].
  destruct (callImageGenWithMode_down fast (nano_prompt_en_v2 plan) o r s1)
    as (H & _).
  destruct (callImageGenWithMode env MATRIX fast (nano_prompt_en_v2 plan)
              o r s1) as [[x|e''] s2]; simpl in *; [|reflexivity].
  destruct H as [H|(e2 & H)]; [exact H|discriminate].
Qed.

Lemma enhanceBody_down i plan o r sc (s : Sys World) :
  fst (enhanceBody env MATRIX i plan o r sc s) = Returns (None, sc).
Proof.
  unfold enhanceBody, bind.
  pose proof (generateImage_down plan o r s) as H.
  destruct (generateImage env MATRIX plan o r s) as [[x|e] s1];
    simpl in *; [|discriminate].
  injection H as ->. reflexivity.
Qed.

Lemma array_set_firstn A (l : list A) :
  forall i v, (i < List.length l)%nat ->
    firstn (S i) (array_set l i v) = firstn i l ++ [v].
Proof.
  induction l as [|x l IH]; intros [|i] v H; simpl in *; try lia.
  - reflexivity.
  - f_equal. apply IH. lia.
Qed.

Lemma skipn_nth A (l : list A) d :
  forall i, (i < List.length l)%nat -> skipn i l = nth i l d :: skipn (S i) l.
Proof.
  induction l as [|x l IH]; intros [|i] H; simpl in *; try lia.
  - reflexivity.
  - apply IH. lia.
Qed.

Lemma enhanceLoop_down d o r fuel :
  forall i imgs sc (s : Sys World),
    (forall j, (i <= j < i + fuel)%nat -> findPlan d j <> None) ->
    (i + fuel = List.length o)%nat ->
    List.length imgs = List.length o ->
    fst (enhanceLoop env MATRIX d o r fuel i imgs sc s)
    = Returns (firstn i imgs ++ skipn i o, sc).
Proof.
  induction fuel as [|fuel IH]; intros i imgs sc s Hplan Hi Hlen; simpl.
  - rewrite Nat.add_0_r in Hi. subst i.
    rewrite <- Hlen at 1. rewrite firstn_all, skipn_all, app_nil_r.
    reflexivity.
  - destruct (findPlan d i) as [plan|] eqn:Hp;
      [|exfalso; apply (Hplan i); [lia|exact Hp]].
    unfold bind.
    pose proof (enhanceBody_down i plan (nth i o ""%string) r sc s) as Hb.
    destruct (enhanceBody env MATRIX i plan (nth i o ""%string) r sc s)
      as [[x|e] s1]; simpl in Hb; [|discriminate].
    injection Hb as ->. simpl.
    rewrite IH.
    + rewrite array_set_firstn by lia.
      rewrite (skipn_nth o ""%string (i := i)) by lia.
      now rewrite <- app_assoc.
    + intros j Hj. apply Hplan. lia.
    + lia.
    + now rewrite array_set_length.
Qed.

Lemma empathyStage_down req (s : Sys World) :
  fst (empathyStage env MATRIX req s) = Returns (fallbackReply req).
Proof.
  unfold empathyStage, tryCatch, bind, getMode.
  destruct (callText_down EMPATHY [Text (raw_text req)] EMPATHY_SYSTEM s)
    as ((e & He) & _).
  destruct (callText env MATRIX EMPATHY [Text (raw_text req)] EMPATHY_SYSTEM
              s) as [[x|e'] s1]; simpl in *; [discriminate|].
  destruct (mode (llm s1)); simpl; [reflexivity|].
  destruct (callTextWithMode env MATRIX fast EMPATHY [Text (raw_text req)]
              EMPATHY_SYSTEM s1) as [[x|e''] s2]; reflexivity.
Qed.

Lemma copyStage_down req (s : Sys World) :
  fst (copyStage env MATRIX req s) = Returns (fallbackCopy req).
Proof.
  unfold copyStage, tryCatch, bind, getMode.
  destruct (callJson_down COPY [Text (raw_text req)] COPY_SYSTEM CopySchema
              s) as ((e & He) & _).
  destruct (callJson env MATRIX COPY [Text (raw_text req)] COPY_SYSTEM
              CopySchema s) as [[x|e'] s1]; simpl in *; [discriminate|].
  destruct (mode (llm s1)); simpl; [reflexivity|].
  destruct (callJsonWithMode env MATRIX fast COPY [Text (raw_text req)]
              COPY_SYSTEM CopySchema s1) as [[x|e''] s2]; reflexivity.
Qed.

(** The response of an invocation that finds the backend down. *)
Lemma offline_run req (w : World) :
  exists tr s',
    Forall failedRecord tr /\
    runOrchestratorSys env MATRIX req w =
    (Returns
       (let u := buildFallbackUnderstanding req in
        let d := rewritePlans env req u (buildFallbackDirector env req u) in
        let tid := traceIdOf env req w in
        {| r_traceId := tid;
           understanding := {| b_story_core := story_core u; scene := "V3";
                               theme := mood u |};
           visual_director_output := d;
           empathic_reply := fallbackReply req;
           variants :=
             [ {| v_id := (tid ++ "_v1")%string;
                  style_name := "Amplify Master";
                  usage_hint := "Social ready";
                  creative_rationale :=
                    "Structural relighting and background cleanup";
                  tone_direction := "professional_clean";
                  visual_direction := "V3 Structural Overhaul";
                  copy := fallbackCopy req;
                  enhanced_images_base64 := images req |} ];
           debugInfo :=
             {| nano_banana_prompts := map nano_prompt_en_v2 (d_images d);
                llmTrace := tr;
                perImageScores := [] |} |}), s').
Proof.
  pose proof (trace_all (P := failedRecord)
                (fun a c i k s => proj2 (callJson_down a c i k s))
                (fun a c i s => proj2 (callText_down a c i s))
                (fun m a c i k s => proj2 (callJsonWithMode_down m a c i k s))
                (fun m a c i s => proj2 (callTextWithMode_down m a c i s))
                (fun p b r s => proj2 (callImageGen_down p b r s))
                (fun m p b r s => proj2 (callImageGenWithMode_down m p b r s))
                req w) as Hall.
  rewrite runOrchestratorSys_states in Hall |- *.
  set (tid := traceIdOf env req w) in *.
  set (s := mkSys (newLLMRouter req tid) w) in *.
  destruct (orchestrate_states env MATRIX req tid s)
    as (u & s1 & d & s2 & imgs & sc & s3 & reply & s4 & cp & s5 & E1 & E2
        & E3 & E4 & E5 & Hrun).
  rewrite Hrun in Hall |- *. simpl in Hall.
  pose proof (safeRunUnderstanding_down req s) as D1.
  rewrite E1 in D1. injection D1 as ->.
  pose proof (safeRunVisualDirector_down req (buildFallbackUnderstanding req)
                s1) as D2.
  rewrite E2 in D2. injection D2 as ->.
  pose proof (enhanceLoop_down
                (rewritePlans env req (buildFallbackUnderstanding req)
                   (buildFallbackDirector env req
                      (buildFallbackUnderstanding req)))
                (images req) (referencesOf req)
                (List.length (images req)) (i := 0%nat)
                (repeat ""%string (List.length (images req))) [] s2) as D3.
  rewrite E3 in D3. simpl in D3.
  assert (D3' : Returns (imgs, sc) = Returns (images req, @nil ImageScore)).
  { apply D3.
    - intros j Hj.
      destruct (findPlan_fallback env req (buildFallbackUnderstanding req)
                  (j := j)) as (plan & Hp & _); [lia|]. congruence.
    - reflexivity.
    - apply repeat_length. }
  injection D3' as -> ->.
  pose proof (empathyStage_down req s3) as D4.
  rewrite E4 in D4. injection D4 as ->.
  pose proof (copyStage_down req s4) as D5.
  rewrite E5 in D5. injection D5 as ->.
  exists (traces (llm s5)), s5. split; [exact Hall|reflexivity].
Qed.

(** X12. When the backend fails every request, the orchestrator still
    returns: the enhanced images are the request's own images, there is no
    score, the reply and the caption are the templates built from the raw
    text, the plans are the template plans, one per image, the tone is
    [professional_clean], and the trace holds failed attempts only. *)
Theorem backend_down_response_is_all_fallbacks :
  forall req (w : World),
    match runOrchestratorSys env MATRIX req w with
    | (Returns resp, _) =>
        map enhanced_images_base64 (variants resp) = [images req] /\
        map copy (variants resp) = [fallbackCopy req] /\
        map tone_direction (variants resp) = ["professional_clean"%string] /\
        empathic_reply resp = fallbackReply req /\
        perImageScores (debugInfo resp) = [] /\
        visual_director_output resp
        = rewritePlans env req (buildFallbackUnderstanding req)
            (buildFallbackDirector env req (buildFallbackUnderstanding req)) /\
        List.length (nano_banana_prompts (debugInfo resp))
        = List.length (images req) /\
        b_story_core (understanding resp)
        = orElse (raw_text req) "No user input provided." /\
        Forall (fun r => tr_ok r = false) (llmTrace (debugInfo resp))
    | (Throws _, _) => False
    end.
Proof.
  intros req w. destruct (offline_run req w) as (tr & s' & Hall & ->).
  simpl. repeat split; try exact Hall.
  rewrite !length_map. apply mapIndex_length.
Qed.

End Offline.

(** ** The page and its callers *)

Section OfflinePage.

Context {World : Type}.
Variable env : Env World.
Variable MATRIX : Mode -> AgentId -> option ModelSpec.

(** X13. The sanity check of the test file reports that all checks have
    passed when the backend fails every request: what it checks, a trace
    id, one variant and a caption with a main text, is there without any
    call succeeding. *)
Theorem sanity_check_passes_with_backend_down :
  forall w : World,
    down env ->
    truthy (freshTraceId env w) = true ->
    fst (runSanityCheck env MATRIX w) = AllChecksPassed.
Proof.
  intros w Hdown Hfresh. unfold runSanityCheck, runOrchestrator.
  destruct (offline_run MATRIX Hdown mockRequest w)
    as (tr & s' & _ & ->).
  simpl. unfold traceIdOf. simpl. rewrite Hfresh. reflexivity.
Qed.

Lemma prefix_truthy s p :
  truthy p = true -> startsWith s p = true -> truthy s = true.
Proof.
  destruct p as [|c p]; [discriminate|].
  destruct s as [|c' s]; [discriminate|reflexivity].
Qed.

(** X14. With the backend down and a request whose first image is an
    image data URL, the result panel still takes the variant for an
    enhanced one: the variant it shows, whatever variant is selected, has
    the request's own images as its enhanced images, [isVariantEnhanced]
    holds of it, its first image can be downloaded, and the badge is drawn
    on every image whose preview URL differs from its non-empty data
    URL. *)
Theorem backend_down_panel_still_says_enhanced :
  forall req (w : World) first rest,
    down env ->
    images req = first :: rest ->
    startsWith first "data:image/" = true ->
    match runOrchestratorSys env MATRIX req w with
    | (Returns resp, _) =>
        forall selectedVariantId,
        exists v,
          activeVariant (Some resp) selectedVariantId = Some v /\
          enhanced_images_base64 v = images req /\
          isVariantEnhanced v = true /\
          downloadable v 0 = true /\
          forall previews idx img,
            nth_error (images req) idx = Some img ->
            truthy img = true ->
            nth_error previews idx <> Some img ->
            enhancedBadge previews (Some (enhanced_images_base64 v)) idx
            = true
    | (Throws _, _) => False
    end.
Proof.
  intros req w first rest Hdown Himgs Hfirst.
  destruct (offline_run MATRIX Hdown req w) as (tr & s' & _ & ->).
  intros sel. eexists. split.
  { unfold activeVariant. simpl.
    destruct sel as [id|]; [|reflexivity].
    destruct (String.eqb _ id); reflexivity. }
  split; [reflexivity|].
  simpl. unfold isVariantEnhanced, downloadable. simpl.
  rewrite Himgs. simpl. rewrite Hfirst.
  rewrite (prefix_truthy first "data:image/" eq_refl Hfirst).
  repeat split.
  intros previews idx img Hidx Ht Hp.
  unfold enhancedBadge, enhancedAt. rewrite Hidx, Ht. simpl.
  destruct (nth_error previews idx) as [original|]; [|reflexivity].
  destruct (String.eqb_spec img original) as [->|]; [|reflexivity].
  now elim Hp.
Qed.

End OfflinePage.

Section Page.

Context {World : Type}.
Variable env : Env World.
Variable MATRIX : Mode -> AgentId -> option ModelSpec.

Lemma runOrchestrator_returns req (w : World) :
  exists r s,
    runOrchestratorSys env MATRIX req w = (Returns r, s) /\
    runOrchestrator env MATRIX req w = (Returns r, world s) /\
    r_traceId r = traceIdOf env req w /\
    map v_id (variants r) = [(traceIdOf env req w ++ "_v1")%string].
Proof.
  unfold runOrchestrator. rewrite runOrchestratorSys_states.
  set (tid := traceIdOf env req w).
  set (s := mkSys (newLLMRouter req tid) w).
  destruct (orchestrate_states env MATRIX req tid s)
    as (u & s1 & d & s2 & imgs & sc & s3 & reply & s4 & cp & s5 & _ & _ & _
        & _ & _ & Hrun).
  rewrite Hrun. eexists. eexists. repeat split.
Qed.

Lemma formChange_keeps request request' :
  formChange request request' ->
  req_traceId request' = req_traceId request /\
  ((List.length (images request) <= 9)%nat ->
   (List.length (images request') <= 9)%nat).
Proof.
  intros [value|sel|checked| |newFiles|index Hidx];
    (split; [reflexivity|]); intros H; try exact H.
  - unfold processFiles, withImages. cbn [images].
    apply firstn_le_length.
  - unfold removeImage, withImages, splice1. cbn [images].
    rewrite length_app, length_firstn, length_skipn. lia.
Qed.

Lemma handleSubmit_sessionOk st (w : World) :
  sessionOk st -> sessionOk (fst (fst (handleSubmit env MATRIX st w))).
Proof.
  intros (Himgs & Hload & Hresp & Hreq). unfold handleSubmit.
  destruct (runOrchestrator_returns (withAction (app_request st) (Some create))
              w) as (r & s & _ & -> & Hid & _).
  unfold sessionOk. simpl. repeat split; auto.
  destruct (req_traceId (app_request st)) as [t|] eqn:Ht; [|exact I].
  destruct Hreq as (_ & Htruthy). split; [|exact Htruthy].
  rewrite Hid. unfold traceIdOf. simpl. now rewrite Ht, Htruthy.
Qed.

Lemma handleRefineState_sessionOk st v m i idx (w : World) :
  sessionOk st ->
  sessionOk (fst (fst (handleRefineState env MATRIX st v m i idx w))).
Proof.
  intros Hok. pose proof Hok as (Himgs & Hload & Hresp & Hreq).
  unfold handleRefineState, handleRefine.
  destruct (app_currentTraceId st) as [tid|] eqn:Hc; [|exact Hok].
  destruct (truthy tid) eqn:Htid; [|exact Hok].
  match goal with
  | |- context [runOrchestrator env MATRIX ?q w] =>
      destruct (runOrchestrator_returns q w) as (r & s & _ & -> & Hid & _)
  end.
  unfold sessionOk. simpl. repeat split; auto.
  rewrite Hid. unfold traceIdOf. simpl. now rewrite Htid.
Qed.

Lemma triggerRefine_sessionOk st sel m i idx (w : World) :
  sessionOk st ->
  sessionOk (fst (fst (triggerRefine env MATRIX st sel m i idx w))).
Proof.
  intros Hok. unfold triggerRefine.
  destruct (activeVariant (app_response st) sel) as [v|]; [|exact Hok].
  now apply handleRefineState_sessionOk.
Qed.

Lemma step_sessionOk a b :
  step env MATRIX a b -> sessionOk (fst a) -> sessionOk (fst b).
Proof.
  intros [st w request Hc|st w Hs|st w|st w sel m i idx]; simpl.
  - intros (Himgs & Hload & Hresp & Hreq).
    destruct (formChange_keeps Hc) as (Hid & Hlen).
    unfold sessionOk. simpl. rewrite Hid. auto.
  - apply handleSubmit_sessionOk.
  - intros (Himgs & Hload & Hresp & Hreq).
    unfold sessionOk. simpl. repeat split; auto. lia.
  - apply triggerRefine_sessionOk.
Qed.

Lemma reachable_sessionOk w0 a :
  reachable env MATRIX w0 a -> sessionOk (fst a).
Proof.
  induction 1 as [|a b Ha IH Hstep].
  - unfold sessionOk. simpl. repeat split; auto. lia.
  - eapply step_sessionOk; eauto.
Qed.

(** X15. Whatever the user does with the form and the result panel, one
    event after another from the page's initial state, the page never
    holds more than nine images, is not left loading, shows a response
    only under the trace id it keeps for the session, and its request
    carries either no trace id or the non-empty id of the session. *)
Theorem page_session_stays_consistent :
  forall (w0 : World) st w,
    reachable env MATRIX w0 (st, w) ->
    (List.length (images (app_request st)) <= 9)%nat /\
    app_isLoading st = false /\
    (forall r, app_response st = Some r ->
               app_currentTraceId st = Some (r_traceId r)) /\
    (forall t, req_traceId (app_request st) = Some t ->
               app_currentTraceId st = Some t /\ truthy t = true).
Proof.
  intros w0 st w H. apply reachable_sessionOk in H.
  destruct H as (Himgs & Hload & Hresp & Hreq). simpl in *.
  repeat split; auto.
  - intros r Hr. now rewrite Hr in Hresp.
  - rewrite H in Hreq. apply Hreq.
  - rewrite H in Hreq. apply Hreq.
Qed.

(** The trace id of a response on display is not empty when the generator
    of trace ids never gives the empty string. *)
Lemma reachable_id_truthy w0 a :
  (forall w, truthy (freshTraceId env w) = true) ->
  reachable env MATRIX w0 a ->
  forall r, app_response (fst a) = Some r -> truthy (r_traceId r) = true.
Proof.
  intros Hfresh. induction 1 as [|a b Ha IH Hstep]; [discriminate|].
  pose proof (reachable_sessionOk Ha) as Hok.
  destruct Hstep as [st w request Hc|st w Hs|st w|st w sel m i idx];
    simpl in *.
  - exact IH.
  - unfold handleSubmit.
    destruct (runOrchestrator_returns
                (withAction (app_request st) (Some create)) w)
      as (r & s & _ & -> & Hid & _).
    simpl. intros r' Hr'. injection Hr' as <-. rewrite Hid.
    unfold traceIdOf.
    destruct (req_traceId _) as [t|]; [|apply Hfresh].
    destruct (truthy t) eqn:Ht; [exact Ht|apply Hfresh].
  - discriminate.
  - unfold triggerRefine.
    destruct (activeVariant (app_response st) sel) as [v|]; [|exact IH].
    unfold handleRefineState, handleRefine.
    destruct (app_currentTraceId st) as [tid|] eqn:Hc; [|exact IH].
    destruct (truthy tid) eqn:Htid; [|exact IH].
    match goal with
    | |- context [runOrchestrator env MATRIX ?q w] =>
        destruct (runOrchestrator_returns q w) as (r & s & _ & -> & Hid & _)
    end.
    simpl. intros r' Hr'. injection Hr' as <-. rewrite Hid.
    unfold traceIdOf. simpl. now rewrite Htid.
Qed.

(** As long as every handler has run to its end before the next event is
    handled, and the generator of trace ids never gives the empty string, a
    refinement asked for in the result panel raises no alert. The page
    itself does not keep events from coming in while a call is awaited. *)
Lemma refine_alert_not_raised_between_events :
  forall (w0 : World) st w selectedVariantId refineMode refineInput
         activeImageIndex,
    (forall w', truthy (freshTraceId env w') = true) ->
    reachable env MATRIX w0 (st, w) ->
    snd (fst (triggerRefine env MATRIX st selectedVariantId refineMode
                refineInput activeImageIndex w)) = None.
Proof.
  intros w0 st w sel m i idx Hfresh Hreach.
  pose proof (reachable_sessionOk Hreach) as (_ & _ & Hresp & _).
  pose proof (reachable_id_truthy Hfresh Hreach) as Hid.
  simpl in *. unfold triggerRefine, activeVariant.
  destruct (app_response st) as [r|]; [|reflexivity].
  specialize (Hid r eq_refl).
  match goal with
  | |- context [match ?x with Some _ => _ | None => _ end] =>
      destruct x as [v|]; [|reflexivity]
  end.
  unfold handleRefineState, handleRefine. rewrite Hresp, Hid.
  match goal with
  | |- context [runOrchestrator env MATRIX ?q w] =>
      destruct (runOrchestrator_returns q w) as (r' & s & _ & -> & _)
  end.
  reflexivity.
Qed.

(** What the orchestrator returns carries the trace id it ran under and
    one variant, named after it. *)
Lemma runOrchestrator_ids req (w : World) r w' :
  runOrchestrator env MATRIX req w = (Returns r, w') ->
  r_traceId r = traceIdOf env req w /\
  map v_id (variants r) = [(traceIdOf env req w ++ "_v1")%string].
Proof.
  intros H.
  destruct (runOrchestrator_returns req w)
    as (r0 & s & _ & Hr & Hid & Hv).
  rewrite Hr in H. injection H as <- _. split; assumption.
Qed.

(** The two parts of [handleRefine], one right after the other, are the
    handler. *)
Lemma handleRefineState_parts st v m ins idx (w : World) :
  handleRefineState env MATRIX st v m ins idx w =
  match refineBegin st v m ins idx with
  | (st1, None, Some refineRequest) =>
      (refineSettle st1 (fst (runOrchestrator env MATRIX refineRequest w)),
       None, snd (runOrchestrator env MATRIX refineRequest w))
  | (st1, alert, _) => (st1, alert, w)
  end.
Proof.
  unfold handleRefineState, handleRefine, refineBegin.
  destruct (app_currentTraceId st) as [tid|]; [|reflexivity].
  destruct (truthy tid); [|reflexivity].
  fold (refineRequestOf tid (app_request st) v m ins idx).
  destruct (runOrchestrator env MATRIX
              (refineRequestOf tid (app_request st) v m ins idx) w)
    as [[r|e] w']; reflexivity.
Qed.

(** X16. [handleRefine] awaits the orchestrator, and the page handles
    other events meanwhile. The handler is its part before the [await]
    followed by its part after it; when nothing is handled in between, the
    two make up [handleRefineState]. When the reset is handled in between
    and the call returns, the page ends up showing the response of the
    refinement with no trace id of the session, not loading, and from then
    on every refinement asked for in the result panel raises the alert of
    an expired session and does nothing else. *)
Theorem reset_during_refine_expires_session :
  (forall st v m ins idx (w : World),
     handleRefineState env MATRIX st v m ins idx w =
     match refineBegin st v m ins idx with
     | (st1, None, Some refineRequest) =>
         (refineSettle st1 (fst (runOrchestrator env MATRIX refineRequest w)),
          None, snd (runOrchestrator env MATRIX refineRequest w))
     | (st1, alert, _) => (st1, alert, w)
     end) /\
  (forall st v m ins idx (w : World) st1 refineRequest result w',
     refineBegin st v m ins idx = (st1, None, Some refineRequest) ->
     runOrchestrator env MATRIX refineRequest w = (Returns result, w') ->
     let settled := refineSettle (handleReset st1) (Returns result) in
     app_response settled = Some result /\
     app_currentTraceId settled = None /\
     app_isLoading settled = false /\
     forall selectedVariantId refineMode refineInput activeImageIndex w'',
       triggerRefine env MATRIX settled selectedVariantId refineMode
         refineInput activeImageIndex w''
       = (settled, Some SESSION_EXPIRED, w'')).
Proof.
  split.
  - apply handleRefineState_parts.
  - intros st v m ins idx w st1 refineRequest result w' Hbegin Hrun settled.
    repeat split.
    intros sel m' input idx' w''.
    destruct (runOrchestrator_ids _ _ Hrun) as (_ & Hv).
    assert (Hact : exists v1, activeVariant (Some result) sel = Some v1).
    { unfold activeVariant. destruct (find _ (variants result)); [eauto|].
      destruct (variants result) as [|v0 rest]; [discriminate|].
      simpl. eauto. }
    destruct Hact as (v1 & Hact).
    unfold triggerRefine.
    change (app_response settled) with (Some result).
    rewrite Hact. reflexivity.
Qed.

(** X17. Once a refinement has run under the trace id of the session, the
    request of the page keeps that id, whether the refinement has returned
    or thrown: the next submission, although it is a creation, runs under
    the same trace id and leaves the trace id of the session as it is;
    when it raises no alert, the response on display has that trace id and
    its variant the variant id made of it. The reset drops the id: the
    submission after it runs under a freshly generated one, which its
    response, when there is one, carries. *)
Theorem create_after_refine_keeps_trace_id :
  forall st (w : World) tid variantId refineMode instruction
         refineImageIndex,
    app_currentTraceId st = Some tid ->
    truthy tid = true ->
    let refined :=
      handleRefineState env MATRIX st variantId refineMode instruction
        refineImageIndex w in
    let created := handleSubmit env MATRIX (fst (fst refined)) (snd refined) in
    let fresh := handleSubmit env MATRIX (handleReset st) w in
    req_traceId (app_request (fst (fst refined))) = Some tid /\
    traceIdOf env (withAction (app_request (fst (fst refined))) (Some create))
      (snd refined) = tid /\
    app_currentTraceId (fst (fst created)) = Some tid /\
    (snd (fst created) = None ->
     option_map r_traceId (app_response (fst (fst created))) = Some tid /\
     option_map (fun r => map v_id (variants r))
       (app_response (fst (fst created)))
     = Some [(tid ++ "_v1")%string]) /\
    traceIdOf env (withAction (app_request (handleReset st)) (Some create)) w
    = freshTraceId env w /\
    (snd (fst fresh) = None ->
     option_map r_traceId (app_response (fst (fst fresh)))
     = Some (freshTraceId env w)).
Proof.
  intros st w tid v m i idx Hc Htid refined created fresh.
  assert (Hreq : req_traceId (app_request (fst (fst refined))) = Some tid
                 /\ app_currentTraceId (fst (fst refined)) = Some tid).
  { unfold refined, handleRefineState, handleRefine. rewrite Hc, Htid.
    match goal with
    | |- context [runOrchestrator env MATRIX ?q w] =>
        destruct (runOrchestrator env MATRIX q w) as [[r|e] w']
    end; simpl; auto. }
  destruct Hreq as (Hreq & Hcur).
  assert (Ht : traceIdOf env
                 (withAction (app_request (fst (fst refined))) (Some create))
                 (snd refined) = tid).
  { unfold traceIdOf. simpl. now rewrite Hreq, Htid. }
  split; [exact Hreq|]. split; [exact Ht|].
  split; [|split; [|split]].
  - unfold created, handleSubmit.
    destruct (runOrchestrator env MATRIX
                (withAction (app_request (fst (fst refined))) (Some create))
                (snd refined)) as [[r|e] w'] eqn:Hrun; simpl.
    + destruct (runOrchestrator_ids _ _ Hrun) as (Hid & _).
      rewrite Hid, Ht. reflexivity.
    + exact Hcur.
  - unfold created, handleSubmit.
    destruct (runOrchestrator env MATRIX
                (withAction (app_request (fst (fst refined))) (Some create))
                (snd refined)) as [[r|e] w'] eqn:Hrun; simpl.
    + intros _. destruct (runOrchestrator_ids _ _ Hrun) as (Hid & Hv).
      rewrite Hid, Hv, Ht. auto.
    + discriminate.
  - reflexivity.
  - unfold fresh, handleSubmit.
    destruct (runOrchestrator env MATRIX
                (withAction (app_request (handleReset st)) (Some create)) w)
      as [[r|e] w'] eqn:Hrun; simpl.
    + intros _. destruct (runOrchestrator_ids _ _ Hrun) as (Hid & _).
      rewrite Hid. reflexivity.
    + discriminate.
Qed.

End Page.

Section PageBudget.

Context {World : Type}.
Variable env : Env World.

Lemma runOrchestrator_bound req (w : World) r w' :
  (List.length (images req) <= 9)%nat ->
  runOrchestrator env MODEL_MATRIX req w = (Returns r, w') ->
  (List.length (llmTrace (debugInfo r)) <= 118)%nat.
Proof.
  intros Hlen. unfold runOrchestrator.
  pose proof (attempts_bound env req w) as H.
  destruct (runOrchestratorSys env MODEL_MATRIX req w) as [[resp|e] s];
    [|contradiction].
  intros E. injection E as <- _.
  destruct (mode (newLLMRouter req "")); lia.
Qed.

(** X18. With the program's table, the response the page has on display
    never carries more than 118 trace records: the form holds at most nine
    images, and an invocation on nine images records at most 19 + 11 * 9
    attempts. *)
Theorem page_response_trace_bounded :
  forall (w0 : World) st w r,
    reachable env MODEL_MATRIX w0 (st, w) ->
    app_response st = Some r ->
    (List.length (llmTrace (debugInfo r)) <= 118)%nat.
Proof.
  intros w0 st w r H. revert r.
  change st with (fst (st, w)). generalize (st, w) H. clear.
  intros a H. induction H as [|a b Ha IH Hstep]; [discriminate|].
  pose proof (reachable_sessionOk Ha) as (Himgs & _).
  destruct Hstep as [st w request Hc|st w Hs|st w|st w sel m i idx];
    simpl in *.
  - exact IH.
  - unfold handleSubmit.
    destruct (runOrchestrator env MODEL_MATRIX
                (withAction (app_request st) (Some create)) w)
      as [[r|e] w'] eqn:E; simpl; [|exact IH].
    intros r' Hr'. injection Hr' as <-.
    eapply runOrchestrator_bound; [|exact E]. exact Himgs.
  - discriminate.
  - unfold triggerRefine.
    destruct (activeVariant (app_response st) sel) as [v|]; [|exact IH].
    unfold handleRefineState, handleRefine.
    destruct (app_currentTraceId st) as [tid|]; [|exact IH].
    destruct (truthy tid); [|exact IH].
    match goal with
    | |- context [runOrchestrator env MODEL_MATRIX ?q w] =>
        destruct (runOrchestrator env MODEL_MATRIX q w)
          as [[r|e] w'] eqn:E
    end; simpl; [|exact IH].
    intros r' Hr'. injection Hr' as <-.
    eapply runOrchestrator_bound; [|exact E]. exact Himgs.
Qed.

End PageBudget.

(** ** The form and the result panel *)

Section Panel.

Context {World : Type}.
Variable env : Env World.
Variable MATRIX : Mode -> AgentId -> option ModelSpec.

Lemma mapWithIndex_nth A B (f : A -> nat -> B) (l : list A) :
  forall k idx,
    nth_error (mapWithIndex f l k) idx
    = option_map (fun x => f x (k + idx)%nat) (nth_error l idx).
Proof.
  induction l as [|x l IH]; intros k [|idx]; simpl; auto.
  - now rewrite Nat.add_0_r.
  - rewrite IH. now rewrite Nat.add_succ_r.
Qed.


(** X20. Files picked or dropped are put behind the images the form
    holds, in their order; a file whose type does not start with [image/]
    is never taken, the form never holds more than nine images, and
    nothing else of the request changes. *)
Theorem picked_files_append_images_up_to_nine :
  forall request newFiles,
    (List.length (images request) <= 9)%nat ->
    exists taken,
      images (processFiles request newFiles)
      = images request ++ map file_url taken /\
      taken
      = firstn (9 - List.length (images request))
          (filter (fun f => startsWith (file_type f) "image/") newFiles) /\
      Forall (fun f => startsWith (file_type f) "image/" = true) taken /\
      (List.length (images (processFiles request newFiles)) <= 9)%nat /\
      withImages (processFiles request newFiles) (images request)
      = withImages request (images request).
Proof.
  intros request newFiles Hlen. eexists. split; [|split; [reflexivity|]].
  - unfold processFiles, withImages. cbn [images].
    rewrite firstn_app, firstn_all2 by exact Hlen.
    now rewrite firstn_map.
  - split; [|split].
    + apply Forall_forall. intros f Hf.
      assert (Hin : In f (filter (fun f => startsWith (file_type f) "image/")
                            newFiles)).
      { rewrite <- (firstn_skipn (9 - List.length (images request))).
        apply in_or_app. now left. }
      apply filter_In in Hin. apply Hin.
    + unfold processFiles, withImages. cbn [images].
      apply firstn_le_length.
    + reflexivity.
Qed.

(** X21. The arrows of the carousel keep the index inside the images:
    from an index of an image they lead to an index of an image, and
    inside the range stepping forth and back, or back and forth, leads to
    where one was. *)
Theorem carousel_index_stays_in_range :
  forall total activeIndex,
    0 <= activeIndex < total ->
    0 <= handlePrev activeIndex < total /\
    0 <= handleNext total activeIndex < total /\
    (activeIndex < total - 1 ->
     handlePrev (handleNext total activeIndex) = activeIndex) /\
    (0 < activeIndex ->
     handleNext total (handlePrev activeIndex) = activeIndex) /\
    handlePrev 0 = 0 /\
    handleNext total (total - 1) = total - 1.
Proof.
  intros total i Hi. unfold handlePrev, handleNext.
  repeat split;
    repeat match goal with
           | |- context [?a <? ?b] => destruct (Z.ltb_spec a b)
           end; intros; lia.
Qed.

Lemma hashTag_starts t : startsWith (hashTag t) "#" = true.
Proof.
  unfold hashTag. destruct (startsWith t "#") eqn:E; [exact E|].
  unfold startsWith. simpl. destruct t; reflexivity.
Qed.

(** X22. The text put on the clipboard names every tag with one leading
    [#]: a tag that has it is left as it is, a tag that has not gets it,
    and doing it twice changes nothing. For the caption written when the
    caption calls have failed, the clipboard gets the title [Draft] and,
    if there is one, the raw text, and no line of tags. *)
Theorem clipboard_tags_and_fallback_caption :
  forall req t,
    startsWith (hashTag t) "#" = true /\
    hashTag (hashTag t) = hashTag t /\
    copyText (fallbackCopy req)
    = if truthy (raw_text req)
      then String.concat "

" ["Draft"%string; raw_text req]
      else "Draft"%string.
Proof.
  intros req t. split; [apply hashTag_starts|]. split.
  - unfold hashTag at 1. now rewrite hashTag_starts.
  - unfold copyText, fallbackCopy, orElse. simpl.
    destruct (truthy (raw_text req)) eqn:E; simpl; rewrite ?E; reflexivity.
Qed.

End Panel.

(** ** The first version of router and orchestrator *)

Section OldVersion.

Context {World : Type}.
Variable env : Env World.
Variable MATRIX : Mode -> AgentId -> option ModelSpec.

Lemma addsPlain_nil a (s s' : Sys World) :
  llm s' = llm s -> addsPlain a [] s s'.
Proof.
  intros H. split; [|constructor].
  unfold appended. rewrite H, app_nil_r. auto.
Qed.

Lemma addsPlain_app a r1 r2 (s1 s2 s3 : Sys World) :
  addsPlain a r1 s1 s2 -> addsPlain a r2 s2 s3 ->
  addsPlain a (r1 ++ r2) s1 s3.
Proof.
  intros (Ha1 & Hf1) (Ha2 & Hf2).
  split; [eapply appended_trans; eauto|].
  apply Forall_app. split; [exact Hf1|].
  destruct Ha1 as (_ & Hm & _). now rewrite Hm in Hf2.
Qed.

Lemma addsPlain_push a spec (s : Sys World) w' :
  exists r, addsPlain a [r] s (mkSys (V1.pushTrace a spec (llm s)) w').
Proof.
  eexists. split; [repeat split|].
  constructor; [|constructor]. repeat split.
Qed.

Lemma old_callJson_returns a c i k (s : Sys World) v s' :
  V1.callJson env MATRIX a c i k s = (Returns v, s') ->
  exists r, addsPlain a [r] s s'.
Proof.
  unfold V1.callJson.
  destruct (MATRIX (mode (llm s)) a) as [spec|]; [|discriminate].
  destruct (generateContent env _ (world s)) as [[res|e] w'];
    [|discriminate].
  destruct (res_text res) as [text|]; [|discriminate].
  destruct (JSON_parse env k text); [|discriminate].
  intros H. injection H as _ <-. apply addsPlain_push.
Qed.

Lemma old_callText_returns a c i (s : Sys World) v s' :
  V1.callText env MATRIX a c i s = (Returns v, s') ->
  exists r, addsPlain a [r] s s'.
Proof.
  unfold V1.callText.
  destruct (MATRIX (mode (llm s)) a) as [spec|]; [|discriminate].
  destruct (generateContent env _ (world s)) as [[res|e] w'];
    [|discriminate].
  intros H. injection H as _ <-. apply addsPlain_push.
Qed.

Lemma old_callImageGen_silent p b (s : Sys World) :
  llm (snd (V1.callImageGen env MATRIX p b s)) = llm s.
Proof.
  unfold V1.callImageGen.
  destruct (MATRIX (mode (llm s)) IMAGE_GEN) as [spec|]; [|reflexivity].
  destruct (generateContent env _ (world s)) as [[res|e] w'];
    [|reflexivity].
  destruct (res_parts res); reflexivity.
Qed.

Lemma old_enhanceBody_returns i plan o sc (s : Sys World) res sc' s' :
  V1.enhanceBody env MATRIX i plan o sc s = (Returns (res, sc'), s') ->
  exists new recs,
    sc' = sc ++ new /\ List.length recs = List.length new /\
    addsPlain FAST_GUARDRAIL recs s s'.
Proof.
  unfold V1.enhanceBody, bind.
  pose proof (old_callImageGen_silent (nano_prompt_en_v2 plan) o s) as H1.
  destruct (V1.callImageGen env MATRIX (nano_prompt_en_v2 plan) o s)
    as [[x|e] s1]; [|discriminate]. simpl in H1.
  assert (Hnone : forall (r : option string),
             (Returns (r, sc), s1)
             = (Returns (res, sc'), s') ->
             exists new recs,
               sc' = sc ++ new /\ List.length recs = List.length new /\
               addsPlain FAST_GUARDRAIL recs s s').
  { intros r H. injection H as _ <- <-. exists [], [].
    rewrite app_nil_r. split; [reflexivity|].
    split; [reflexivity|now apply addsPlain_nil]. }
  destruct x as [img|]; [|apply Hnone].
  destruct (truthy img); [|apply Hnone].
  unfold V1.runFastGuardrail.
  destruct (V1.callJson env MATRIX FAST_GUARDRAIL _ V1.GUARDRAIL_SYSTEM
              GuardrailSchema s1) as [[guard|e] s2] eqn:E2; [|discriminate].
  apply old_callJson_returns in E2. destruct E2 as (r & E2).
  assert (H12 : addsPlain FAST_GUARDRAIL [r] s s2).
  { apply (addsPlain_app (r1 := []) (addsPlain_nil _ s s1 H1) E2). }
  destruct (negb (pass guard)).
  - pose proof (old_callImageGen_silent
                  (nano_prompt_en_v2 plan ++ STRICT_DIRECTIVE)%string o s2)
      as H3.
    destruct (V1.callImageGen env MATRIX _ o s2) as [[y|e] s3];
      [|discriminate]. simpl in H3.
    intros H. injection H as _ <- <-. eexists. exists [r].
    split; [reflexivity|]. split; [reflexivity|].
    rewrite <- (app_nil_r [r]).
    apply (addsPlain_app H12). now apply addsPlain_nil.
  - intros H. injection H as _ <- <-. eexists. exists [r].
    split; [reflexivity|]. split; [reflexivity|exact H12].
Qed.

Lemma old_enhanceLoop_returns d o fuel :
  forall i imgs sc (s : Sys World) imgs' sc' s',
    V1.enhanceLoop env MATRIX d o fuel i imgs sc s
    = (Returns (imgs', sc'), s') ->
    exists new recs,
      sc' = sc ++ new /\ List.length recs = List.length new /\
      addsPlain FAST_GUARDRAIL recs s s'.
Proof.
  induction fuel as [|fuel IH]; intros i imgs sc s imgs' sc' s'; simpl.
  - intros H. injection H as _ <- <-. exists [], []. rewrite app_nil_r.
    split; [reflexivity|]. split; [reflexivity|now apply addsPlain_nil].
  - destruct (findPlan d i) as [plan|]; [|apply IH].
    unfold bind.
    destruct (V1.enhanceBody env MATRIX i plan (nth i o ""%string) sc s)
      as [[[res sc1]|e] s1] eqn:E1; [|discriminate].
    apply old_enhanceBody_returns in E1.
    destruct E1 as (new1 & recs1 & -> & L1 & H1). simpl.
    intros H. apply IH in H. destruct H as (new2 & recs2 & -> & L2 & H2).
    exists (new1 ++ new2), (recs1 ++ recs2). rewrite app_assoc.
    split; [reflexivity|]. split; [rewrite !length_app; lia|].
    eapply addsPlain_app; eauto.
Qed.

(** X23. In the first version, the trace of a response lists the calls
    that have answered, and nothing else: the record of understanding,
    that of direction, one guardrail record per score, the record of the
    reply and that of the caption, in this order, all under the router's
    mode with [ok = true], no error and retry index 0. An image call
    leaves no record: this router does not log it. *)
Theorem old_response_trace_counts_answered_calls :
  forall req (w : World),
    match V1.runOrchestratorSys env MATRIX req w with
    | (Returns resp, _) =>
        exists ru rd rg re rc,
          llmTrace (debugInfo resp) = [ru; rd] ++ rg ++ [re; rc] /\
          List.length rg = List.length (perImageScores (debugInfo resp)) /\
          map tr_agent [ru; rd; re; rc]
          = [UNDERSTANDING; VISUAL_DIRECTOR; EMPATHY; COPY] /\
          Forall (fun r => tr_agent r = FAST_GUARDRAIL) rg /\
          Forall (fun r => tr_mode r = mode (newLLMRouter req "") /\
                           tr_ok r = true /\ tr_error r = None /\
                           tr_retriesUsed r = 0)
            (llmTrace (debugInfo resp))
    | (Throws _, _) => True
    end.
Proof.
  intros req w. unfold V1.runOrchestratorSys, tryCatch.
  set (tid := traceIdOf env req w).
  set (s := mkSys (newLLMRouter req tid) w).
  unfold V1.orchestrate, bind, V1.runUnderstanding, V1.runVisualDirector.
  destruct (V1.callJson env MATRIX UNDERSTANDING _ V1.UNDERSTANDING_SYSTEM
              UnderstandingSchema s) as [[u|e] s1] eqn:E1; [|exact I].
  apply old_callJson_returns in E1. destruct E1 as (ru & A1 & F1).
  unfold bind.
  destruct (V1.callJson env MATRIX VISUAL_DIRECTOR _ V1.DIRECTOR_SYSTEM
              DirectorSchema s1) as [[d|e] s2] eqn:E2; [|exact I].
  apply old_callJson_returns in E2. destruct E2 as (rd & A2 & F2).
  simpl.
  match goal with
  | |- context [V1.enhanceLoop env MATRIX ?dd ?o ?f ?i ?im ?sc s2] =>
      destruct (V1.enhanceLoop env MATRIX dd o f i im sc s2)
        as [[[imgs scores]|e] s3] eqn:E3; [|exact I]
  end.
  apply old_enhanceLoop_returns in E3.
  destruct E3 as (new & rg & Hs & Lg & A3 & F3).
  simpl in Hs. subst scores.
  destruct (V1.callText env MATRIX EMPATHY [Text (raw_text req)]
              EMPATHY_SYSTEM s3) as [[reply|e] s4] eqn:E4; [|exact I].
  apply old_callText_returns in E4. destruct E4 as (re & A4 & F4).
  destruct (V1.callJson env MATRIX COPY [Text (raw_text req)] COPY_SYSTEM
              CopySchema s4) as [[cp|e] s5] eqn:E5; [|exact I].
  apply old_callJson_returns in E5. destruct E5 as (rc & A5 & F5).
  simpl.
  assert (M1 : mode (llm s1) = mode (llm s)) by apply A1.
  assert (M2 : mode (llm s2) = mode (llm s)) by (rewrite <- M1; apply A2).
  assert (M3 : mode (llm s3) = mode (llm s)) by (rewrite <- M2; apply A3).
  assert (M4 : mode (llm s4) = mode (llm s)) by (rewrite <- M3; apply A4).
  rewrite M1 in F2. rewrite M2 in F3. rewrite M3 in F4. rewrite M4 in F5.
  change (mode (llm s)) with (mode (newLLMRouter req "")) in *.
  destruct A1 as (T1 & _). destruct A2 as (T2 & _). destruct A3 as (T3 & _).
  destruct A4 as (T4 & _). destruct A5 as (T5 & _).
  assert (Ht : traces (llm s5) = [ru; rd] ++ rg ++ [re; rc]).
  { rewrite T5, T4, T3, T2, T1. simpl. now rewrite <- !app_assoc. }
  inversion F1 as [|? ? (G1 & P1) _]; subst.
  inversion F2 as [|? ? (G2 & P2) _]; subst.
  inversion F4 as [|? ? (G4 & P4) _]; subst.
  inversion F5 as [|? ? (G5 & P5) _]; subst.
  exists ru, rd, rg, re, rc. rewrite Ht.
  split; [reflexivity|]. split; [exact Lg|].
  split; [simpl; now rewrite G1, G2, G4, G5|].
  split.
  - eapply Forall_impl; [|exact F3]. intros r Hr. apply Hr.
  - constructor; [exact P1|]. constructor; [exact P2|].
    apply Forall_app. split.
    + eapply Forall_impl; [|exact F3]. intros r Hr. apply Hr.
    + constructor; [exact P4|]. constructor; [exact P5|constructor].
Qed.

(** X24. The first version of the router writes the record of a JSON call,
    with [ok = true], as soon as the backend has answered and before it
    reads the answer: when the answer has no text or its text does not
    parse, the call throws and the trace nevertheless has one more record
    that says the call went well. *)
Theorem old_router_records_ok_before_parsing :
  forall a c i k (s : Sys World) spec res w',
    MATRIX (mode (llm s)) a = Some spec ->
    (forall p, generateContent env p (world s) = (Returns res, w')) ->
    match res_text res with
    | Some text => JSON_parse env k text = None
    | None => True
    end ->
    exists e r,
      fst (V1.callJson env MATRIX a c i k s) = Throws e /\
      traces (llm (snd (V1.callJson env MATRIX a c i k s)))
      = traces (llm s) ++ [r] /\
      tr_agent r = a /\ tr_model r = model spec /\
      tr_ok r = true /\ tr_error r = None.
Proof.
  intros a c i k s spec res w' Hspec Hres Hbad.
  unfold V1.callJson. rewrite Hspec, Hres.
  destruct (res_text res) as [text|]; [rewrite Hbad|];
    eexists; eexists; repeat split.
Qed.

(** X25. The first version has no fallback: with the backend down its
    orchestrator throws, at the first call, and returns no response, where
    the last version returns the response made of the templates. No record
    is written for the failed call. *)
Theorem old_orchestrator_throws_when_backend_down :
  forall req (w : World),
    down env ->
    exists e,
      fst (V1.runOrchestratorSys env MATRIX req w) = Throws e /\
      traces (llm (snd (V1.runOrchestratorSys env MATRIX req w))) = [] /\
      exists resp, fst (runOrchestratorSys env MATRIX req w) = Returns resp.
Proof.
  intros req w Hdown.
  assert (Hnew : exists resp,
             fst (runOrchestratorSys env MATRIX req w) = Returns resp).
  { destruct (offline_run MATRIX Hdown req w) as (tr & s' & _ & ->).
    eexists. reflexivity. }
  unfold V1.runOrchestratorSys, tryCatch.
  set (tid := traceIdOf env req w).
  set (s := mkSys (newLLMRouter req tid) w).
  unfold V1.orchestrate, bind, V1.runUnderstanding, V1.callJson.
  destruct (MATRIX (mode (llm s)) UNDERSTANDING) as [spec|].
  - match goal with
    | |- context [generateContent env ?p (world s)] =>
        destruct (Hdown p (world s)) as (e & He);
        destruct (generateContent env p (world s)) as [[res|e'] w']
    end; simpl in He; [discriminate|].
    eexists. repeat split. exact Hnew.
  - eexists. repeat split. exact Hnew.
Qed.

End OldVersion.

Section PageMode.

Context {World : Type}.
Variable env : Env World.
Variable MATRIX : Mode -> AgentId -> option ModelSpec.

Lemma formChange_flags request request' :
  formChange request request' ->
  (exists checked,
     enable_l4_loop request = Some checked /\
     performance_mode request = Some (if checked then quality else fast)) ->
  exists checked,
    enable_l4_loop request' = Some checked /\
    performance_mode request' = Some (if checked then quality else fast).
Proof.
  intros [value|sel|checked| |newFiles|index Hidx] H; try exact H.
  exists checked. split; reflexivity.
Qed.

Lemma reachable_flags w0 a :
  reachable env MATRIX w0 a ->
  exists checked,
    enable_l4_loop (app_request (fst a)) = Some checked /\
    performance_mode (app_request (fst a))
    = Some (if checked then quality else fast).
Proof.
  induction 1 as [|a b Ha IH Hstep].
  - exists false. split; reflexivity.
  - destruct Hstep as [st w request Hc|st w Hs|st w|st w sel m i idx];
      simpl in *.
    + eapply formChange_flags; eauto.
    + unfold handleSubmit.
      destruct (runOrchestrator env MATRIX _ w) as [[r|e] w']; exact IH.
    + exists false. split; reflexivity.
    + unfold triggerRefine.
      destruct (activeVariant (app_response st) sel) as [v|]; [|exact IH].
      unfold handleRefineState, handleRefine.
      destruct (app_currentTraceId st) as [tid|]; [|exact IH].
      destruct (truthy tid); [|exact IH].
      destruct (runOrchestrator env MATRIX _ w) as [[r|e] w']; exact IH.
Qed.

(** X26. On the page the two mode fields of the request always agree: the
    advanced switch is the only handler that writes them and it writes
    both, so in every state the page gets to the router of the next
    invocation runs in [quality] mode exactly when the switch is on, and
    its mode is the request's [performance_mode]. *)
Theorem page_mode_follows_advanced_switch :
  forall (w0 : World) st w,
    reachable env MATRIX w0 (st, w) ->
    exists checked,
      enable_l4_loop (app_request st) = Some checked /\
      performance_mode (app_request st)
      = Some (if checked then quality else fast) /\
      forall tid a,
        mode (newLLMRouter (withAction (app_request st) a) tid)
        = if checked then quality else fast.
Proof.
  intros w0 st w H. apply reachable_flags in H.
  destruct H as (checked & H1 & H2). simpl in *.
  exists checked. split; [exact H1|]. split; [exact H2|].
  intros tid a. unfold newLLMRouter. simpl. rewrite H1, H2.
  destruct checked; reflexivity.
Qed.

End PageMode.

(** ** The version in between and the last version *)

Section Versions.

Context {World : Type}.
Variable env : Env World.
Variable MATRIX : Mode -> AgentId -> option ModelSpec.

Lemma between_body i plan o r sc (s : Sys World) x s' :
  preferredAgentOf MATRIX (mode (llm s)) = FAST_GUARDRAIL ->
  V2.enhanceBody env MATRIX i plan o r sc s = (Returns x, s') ->
  enhanceBody env MATRIX i plan o r sc s = (Returns x, s').
Proof.
  intros Hp.
  unfold V2.enhanceBody, enhanceBody, bind, generateImage, tryCatch.
  pose proof (appendOnly_mode s
                (appendOnly_callImageGen env MATRIX (nano_prompt_en_v2 plan)
                   o r)) as M1.
  destruct (callImageGen env MATRIX (nano_prompt_en_v2 plan) o r s)
    as [[res|e] s1]; [|discriminate].
  simpl in M1. destruct res as [img|]; [|auto].
  destruct (truthy img); [|auto].
  unfold V2.runFastGuardrail, safeRunFastGuardrail, runFastGuardrail,
    tryCatch, bind, getMode.
  simpl. rewrite M1, Hp.
  destruct (negb (isSome (getSpecForMode MATRIX (mode (llm s))
                            FAST_GUARDRAIL))); [auto|].
  destruct (callJson env MATRIX FAST_GUARDRAIL _ GUARDRAIL_SYSTEM
              GuardrailSchema s1) as [[guard|e] s2]; [|discriminate].
  destruct (negb (pass guard)); [|auto].
  unfold rescue, bind, getMode, tryCatch. simpl.
  destruct (callImageGenWithMode env MATRIX (rescueModeOf (mode (llm s2))) _
              o r s2) as [[y|e] s3]; [|discriminate].
  auto.
Qed.

Lemma between_loop d o r fuel :
  forall i imgs sc (s : Sys World) x s',
    preferredAgentOf MATRIX (mode (llm s)) = FAST_GUARDRAIL ->
    V2.enhanceLoop env MATRIX d o r fuel i imgs sc s = (Returns x, s') ->
    enhanceLoop env MATRIX d o r fuel i imgs sc s = (Returns x, s').
Proof.
  induction fuel as [|fuel IH]; intros i imgs sc s x s' Hp; simpl; [auto|].
  destruct (findPlan d i) as [plan|]; [|now apply IH].
  unfold bind.
  destruct (V2.enhanceBody env MATRIX i plan (nth i o ""%string) r sc s)
    as [[res|e] s1] eqn:E; [|discriminate].
  apply between_body in E; [|exact Hp].
  pose proof (appendOnly_mode s
                (appendOnly_enhanceBody env MATRIX i plan (nth i o ""%string)
                   r sc)) as M.
  rewrite E in M |- *. simpl in M.
  apply IH. now rewrite M.
Qed.

Lemma between_orchestrate req tid (s : Sys World) resp s' :
  images req <> [] ->
  preferredAgentOf MATRIX (mode (llm s)) = FAST_GUARDRAIL ->
  V2.orchestrate env MATRIX req tid s = (Returns resp, s') ->
  orchestrate env MATRIX req tid s = (Returns resp, s').
Proof.
  intros Himgs Hp. unfold V2.orchestrate, orchestrate, bind.
  pose proof (appendOnly_mode s (appendOnly_runUnderstanding env MATRIX req))
    as M1.
  unfold safeRunUnderstanding, tryCatch.
  destruct (runUnderstanding env MATRIX req s) as [[u|e] s1];
    [|discriminate].
  simpl in M1.
  pose proof (appendOnly_mode s1
                (appendOnly_runVisualDirector env MATRIX req u)) as M2.
  assert (Hd : forall d s2,
             runVisualDirector env MATRIX req u s1 = (Returns d, s2) ->
             safeRunVisualDirector env MATRIX req u s1 = (Returns d, s2)).
  { intros d s2 E. unfold safeRunVisualDirector.
    destruct (images req) as [|img rest] eqn:Hi; [now elim Himgs|].
    unfold tryCatch. now rewrite E. }
  destruct (runVisualDirector env MATRIX req u s1) as [[d|e] s2];
    [|discriminate].
  rewrite (Hd d s2 eq_refl). simpl in M2.
  match goal with
  | |- context [V2.enhanceLoop env MATRIX d ?o ?r ?f ?i ?im ?sc s2] =>
      pose proof (appendOnly_mode s2
                    (appendOnly_enhanceLoop env MATRIX d o r f i im sc))
        as M3;
      destruct (V2.enhanceLoop env MATRIX d o r f i im sc s2)
        as [[loopOut|e] s3] eqn:E3; [|discriminate]
  end.
  apply between_loop in E3; [|now rewrite M2, M1].
  rewrite E3 in M3 |- *. unfold empathyStage, copyStage, tryCatch.
  destruct (callText env MATRIX EMPATHY [Text (raw_text req)] EMPATHY_SYSTEM
              s3) as [[reply|e] s4]; [|discriminate].
  destruct (callJson env MATRIX COPY [Text (raw_text req)] COPY_SYSTEM
              CopySchema s4) as [[cp|e] s5]; [|discriminate].
  auto.
Qed.

(** X27. The last version changes nothing of a run in which nothing fails:
    for a request with at least one image, under a mode whose guardrail
    evaluator is FAST_GUARDRAIL, whenever the orchestrator of the version
    in between returns a response, the orchestrator of the last version
    returns the same response, trace included, and leaves the same router
    and backend state. *)
Theorem last_version_agrees_with_version_between :
  forall req (w : World) resp s',
    images req <> [] ->
    preferredAgentOf MATRIX (mode (newLLMRouter req "")) = FAST_GUARDRAIL ->
    V2.runOrchestratorSys env MATRIX req w = (Returns resp, s') ->
    runOrchestratorSys env MATRIX req w = (Returns resp, s').
Proof.
  intros req w resp s' Himgs Hp.
  unfold V2.runOrchestratorSys, runOrchestratorSys, tryCatch.
  destruct (V2.orchestrate env MATRIX req (traceIdOf env req w)
              (mkSys (newLLMRouter req (traceIdOf env req w)) w))
    as [[r|e] s1] eqn:E; [|discriminate].
  apply between_orchestrate in E; [|exact Himgs|exact Hp].
  now rewrite E.
Qed.

End Versions.

(** ** Further scenarios on the scripted backend *)

Section MoreScenarios.

Import Mock.


(** One image, [quality] mode, the backend switched off. *)
Lemma backend_down_witness :
  match runOrchestratorSys offline MODEL_MATRIX (request [photo] quality)
          (start []) with
  | (Returns resp, _) =>
      map enhanced_images_base64 (variants resp) = [[photo]] /\
      Forall (fun r => tr_ok r = false) (llmTrace (debugInfo resp))
  | (Throws _, _) => False
  end.
Proof.
  assert (H := fun Hdown =>
                 @backend_down_response_is_all_fallbacks _ offline
                   MODEL_MATRIX Hdown (request [photo] quality) (start [])).
  specialize (H (fun p w => ex_intro _ _ eq_refl)).
  destruct (runOrchestratorSys offline MODEL_MATRIX (request [photo] quality)
              _) as [[resp|e] s]; [|exact H].
  destruct H as (H1 & _ & _ & _ & _ & _ & _ & _ & H2). split; assumption.
Defined.

Lemma sanity_check_witness :
  fst (runSanityCheck offline MODEL_MATRIX (start [])) = AllChecksPassed.
Proof.
  apply (@sanity_check_passes_with_backend_down _ offline MODEL_MATRIX
           (start [])).
  - intros p w. eexists. reflexivity.
  - reflexivity.
Defined.

Lemma panel_says_enhanced_witness :
  match runOrchestratorSys offline MODEL_MATRIX (request [photo] fast)
          (start []) with
  | (Returns resp, _) =>
      exists v, activeVariant (Some resp) None = Some v /\
                isVariantEnhanced v = true
  | (Throws _, _) => False
  end.
Proof.
  pose proof (@backend_down_panel_still_says_enhanced _ offline MODEL_MATRIX
                (request [photo] fast) (start []) photo []
                (fun p w => ex_intro _ _ eq_refl) eq_refl eq_refl) as H.
  destruct (runOrchestratorSys offline MODEL_MATRIX (request [photo] fast) _)
    as [[resp|e] s]; [|exact H].
  destruct (H None) as (v & H1 & _ & H2 & _). exists v. split; assumption.
Defined.

(** The page after one picture was picked and the form submitted. *)
Lemma page_session_witness :
  let picked :=
    setRequest initialState
      (processFiles (app_request initialState)
         [ {| file_type := "image/png"; file_url := photo |} ]) in
  let st := fst (fst (handleSubmit env MODEL_MATRIX picked (start []))) in
  (List.length (images (app_request st)) <= 9)%nat /\
  app_isLoading st = false.
Proof.
  intros picked st.
  destruct (@page_session_stays_consistent _ env MODEL_MATRIX (start []) st
              (snd (handleSubmit env MODEL_MATRIX picked (start []))))
    as (H1 & H2 & _).
  - eapply reach_step; [eapply reach_step; [apply reach_init|]|].
    + apply step_change. apply change_files.
    + apply (step_submit env MODEL_MATRIX picked (start [])). reflexivity.
  - split; assumption.
Defined.

(** A photo is picked and submitted; a refinement of the result is asked
    for and, while it is awaited, everything is cleared. When the
    refinement has returned, the next one raises the alert. *)
Lemma reset_during_refine_witness :
  let picked :=
    setRequest initialState
      (processFiles (app_request initialState)
         [ {| file_type := "image/png"; file_url := photo |} ]) in
  let st := fst (fst (handleSubmit env MODEL_MATRIX picked (start []))) in
  let w := snd (handleSubmit env MODEL_MATRIX picked (start [])) in
  let begun := refineBegin st "trace_0_v1" "lighter" "" (Some 0) in
  app_currentTraceId st = Some "trace_0"%string /\
  snd (fst begun) = None /\
  match snd begun with
  | Some refineRequest =>
      match runOrchestrator env MODEL_MATRIX refineRequest w with
      | (Returns result, w') =>
          let settled :=
            refineSettle (handleReset (fst (fst begun))) (Returns result) in
          app_response settled = Some result /\
          snd (fst (triggerRefine env MODEL_MATRIX settled None "lighter" ""
                      0 w'))
          = Some "Session expired. Please generate new content."%string
      | (Throws _, _) => False
      end
  | None => False
  end.
Proof.
  intros picked st w begun.
  split; [vm_compute; reflexivity|]. split; [vm_compute; reflexivity|].
  destruct (snd begun) as [refineRequest|] eqn:Hb;
    [|vm_compute in Hb; discriminate].
  assert (Hbegin : begun = (fst (fst begun), None, Some refineRequest)).
  { rewrite <- Hb. vm_compute. reflexivity. }
  assert (Hret : exists r, fst (runOrchestrator env MODEL_MATRIX
                                  refineRequest w) = Returns r).
  { destruct (runOrchestrator_returns env MODEL_MATRIX refineRequest w)
      as (r & s & _ & Hr & _). rewrite Hr. simpl. eauto. }
  destruct (runOrchestrator env MODEL_MATRIX refineRequest w)
    as [[result|e] w'] eqn:Hrun;
    [|destruct Hret as (r & Hr); discriminate].
  destruct (@reset_during_refine_expires_session _ env MODEL_MATRIX)
    as (_ & H).
  destruct (H st "trace_0_v1"%string "lighter"%string ""%string (Some 0) w
              (fst (fst begun)) refineRequest result w' Hbegin Hrun)
    as (H1 & _ & _ & H2).
  split; [exact H1|].
  rewrite (H2 None "lighter"%string ""%string 0 w'). reflexivity.
Defined.

Lemma create_after_refine_witness :
  let st := {| app_request := request [] fast; app_response := None;
               app_isLoading := false;
               app_currentTraceId := Some "trace_0"%string |} in
  let refined :=
    handleRefineState env MODEL_MATRIX st "trace_0_v1" "lighter" "" None
      (start []) in
  let created :=
    handleSubmit env MODEL_MATRIX (fst (fst refined)) (snd refined) in
  snd (fst created) = None /\
  app_currentTraceId (fst (fst created)) = Some "trace_0"%string /\
  option_map r_traceId (app_response (fst (fst created)))
  = Some "trace_0"%string.
Proof.
  intros st refined created. unfold created, refined.
  assert (Hnone : snd (fst (handleSubmit env MODEL_MATRIX
                              (fst (fst (handleRefineState env MODEL_MATRIX st
                                           "trace_0_v1" "lighter" "" None
                                           (start []))))
                              (snd (handleRefineState env MODEL_MATRIX st
                                      "trace_0_v1" "lighter" "" None
                                      (start []))))) = None)
    by (vm_compute; reflexivity).
  destruct (@create_after_refine_keeps_trace_id _ env MODEL_MATRIX st
              (start []) "trace_0"%string "trace_0_v1"%string
              "lighter"%string ""%string None eq_refl eq_refl)
    as (_ & _ & H1 & H2 & _).
  destruct (H2 Hnone) as (H3 & _).
  exact (conj Hnone (conj H1 H3)).
Defined.

Lemma page_trace_bound_witness :
  let picked :=
    setRequest initialState
      (processFiles (app_request initialState)
         [ {| file_type := "image/png"; file_url := photo |} ]) in
  let st := fst (fst (handleSubmit env MODEL_MATRIX picked (start []))) in
  match app_response st with
  | Some r => (List.length (llmTrace (debugInfo r)) <= 118)%nat
  | None => True
  end.
Proof.
  intros picked st.
  destruct (app_response st) as [r|] eqn:E; [|exact I].
  apply (@page_response_trace_bounded _ env (start []) st
           (snd (handleSubmit env MODEL_MATRIX picked (start []))) r);
    [|exact E].
  eapply reach_step; [eapply reach_step; [apply reach_init|]|].
  - apply step_change. apply change_files.
  - apply (step_submit env MODEL_MATRIX picked (start [])). reflexivity.
Defined.


Lemma picked_files_witness :
  let files := [ {| file_type := "image/png"; file_url := photo |};
                 {| file_type := "application/pdf";
                    file_url := "data:application/pdf;base64,CCCC" |} ] in
  exists taken,
    images (processFiles (blankRequest (Some en)) files)
    = images (blankRequest (Some en)) ++ map file_url taken /\
    Forall (fun f => startsWith (file_type f) "image/" = true) taken.
Proof.
  intros files.
  destruct (@picked_files_append_images_up_to_nine (blankRequest (Some en))
              files) as (taken & H1 & _ & H2 & _).
  - simpl. lia.
  - exists taken. split; assumption.
Defined.

Lemma carousel_witness :
  0 <= handlePrev 1 < 3 /\ 0 <= handleNext 3 1 < 3.
Proof.
  destruct (@carousel_index_stays_in_range 3 1) as (H1 & H2 & _).
  - lia.
  - split; assumption.
Defined.

(** A caption call of the first router whose answer does not parse. *)
Lemma old_router_witness :
  let s := mkSys (newLLMRouter (request [] fast) "t")
             (start [textResponse "not json"]) in
  exists e r,
    fst (V1.callJson env MODEL_MATRIX COPY [Text "x"] COPY_SYSTEM CopySchema s)
    = Throws e /\
    traces (llm (snd (V1.callJson env MODEL_MATRIX COPY [Text "x"]
                        COPY_SYSTEM CopySchema s))) = [r] /\
    tr_ok r = true.
Proof.
  intros s.
  edestruct (@old_router_records_ok_before_parsing _ env MODEL_MATRIX COPY
               [Text "x"] COPY_SYSTEM CopySchema s)
    as (e & r & H1 & H2 & _ & _ & H3 & _).
  - reflexivity.
  - intros p. reflexivity.
  - reflexivity.
  - exists e, r. repeat split; assumption.
Defined.

Lemma old_orchestrator_witness :
  exists e,
    fst (V1.runOrchestratorSys offline MODEL_MATRIX (request [photo] fast)
           (start [])) = Throws e.
Proof.
  destruct (@old_orchestrator_throws_when_backend_down _ offline MODEL_MATRIX
              (request [photo] fast) (start [])
              (fun p w => ex_intro _ _ eq_refl))
    as (e & H & _).
  exists e. exact H.
Defined.

(** The page after the advanced switch was turned on. *)
Lemma page_mode_witness :
  let st := setRequest initialState
              (handleAdvancedToggle (app_request initialState) true) in
  exists checked,
    enable_l4_loop (app_request st) = Some checked /\
    forall tid,
      mode (newLLMRouter (withAction (app_request st) (Some create)) tid)
      = if checked then quality else fast.
Proof.
  intros st.
  destruct (@page_mode_follows_advanced_switch _ env MODEL_MATRIX (start [])
              st (start [])) as (checked & H1 & _ & H2).
  - eapply reach_step; [apply reach_init|].
    apply step_change. apply change_advanced.
  - exists checked. split; [exact H1|]. intros tid. apply H2.
Defined.

(** One image, [fast] mode, every call answered. *)
Lemma versions_agree_witness :
  let req := request [photo] fast in
  let l := [textResponse "u"; textResponse "relight [SUBJECT]";
            imageResponse "BBBB"; textResponse "OK";
            textResponse "with you"; textResponse "cap"] in
  exists resp s',
    V2.runOrchestratorSys env MODEL_MATRIX req (start l) = (Returns resp, s')
    /\ runOrchestratorSys env MODEL_MATRIX req (start l) = (Returns resp, s').
Proof.
  intros req l.
  destruct (V2.runOrchestratorSys env MODEL_MATRIX req (start l))
    as [[resp|e] s'] eqn:E.
  - exists resp, s'. split; [reflexivity|].
    apply (@last_version_agrees_with_version_between _ env MODEL_MATRIX req
             (start l) resp s'); [discriminate|reflexivity|exact E].
  - exfalso. vm_compute in E. discriminate.
Defined.

End MoreScenarios.
